(** * Proxmox VM lifecycle: a shallow embedding of
      [extensions/models/lib/proxmox.ts] and [extensions/models/proxmox_vm.ts]

    The TypeScript sources are asynchronous, talk to the hypervisor through
    [curl], read the clock and the disk, and append resource versions through
    the framework's [context.writeResource].  Here every method is a function
    in a small state-and-exception monad over a [World] record that holds the
    clock, the list of HTTP requests issued so far, the resource store and the
    environment (hypervisor, file system, platform parsers); the [logs] array
    of a method is a local value handed from one statement to the next.  The
    two polling loops take a fuel argument; running out of fuel is the outcome [Diverge]
    and is kept apart from both a normal return and a raised error.

    Of [proxmox_vm.ts] the methods [start], [stop], [create], [delete] and
    [sync] are embedded, with [resolveVm]; of [lib/proxmox.ts] everything but
    the inside of [fetchWithCurl], which is the boundary to the hypervisor. *)

From Stdlib Require Import ZArith List String Ascii Bool Lia DecimalString.
Import ListNotations.
Local Open Scope string_scope.
Local Open Scope Z_scope.
Local Open Scope list_scope.
Set Warnings "-register-all".

(* ===================================================================== *)
(** ** Strings *)
(* ===================================================================== *)

(** A template literal: the pieces of [`a${b}c`] in order. *)
Definition tpl (pieces : list string) : string := String.concat "" pieces.

(** The double-quote character, for messages such as [VM "name" not found]. *)
Definition dq : string := String (ascii_of_nat 34) EmptyString.

(** The arrow used in the [Found VM ... → vmid ...] log lines (UTF-8). *)
Definition arrow : string :=
  String (ascii_of_nat 226) (String (ascii_of_nat 134)
    (String (ascii_of_nat 146) EmptyString)).

(** [String(n)] for an integer-valued number; from 10^21 on the code
    prints an exponent, which this does not. *)
Definition string_of_Z (n : Z) : string := NilZero.string_of_int (Z.to_int n).

(** [s.startsWith(p)] *)
Definition startsWith (s p : string) : bool := String.prefix p s.

Fixpoint drop (n : nat) (s : string) : string :=
  match n, s with
  | O, _ => s
  | S _, EmptyString => EmptyString
  | S n', String _ s' => drop n' s'
  end.

Definition chars (s : string) : list ascii := list_ascii_of_string s.

(** [s.endsWith(suf)], by comparing the reversed character lists. *)
Fixpoint list_prefix (p l : list ascii) : bool :=
  match p, l with
  | [], _ => true
  | _ :: _, [] => false
  | a :: p', b :: l' => Ascii.eqb a b && list_prefix p' l'
  end.

Definition endsWith (s suf : string) : bool :=
  list_prefix (rev (chars suf)) (rev (chars s)).

(** [lines.join(sep)] *)
Definition join (sep : string) (l : list string) : string := String.concat sep l.

(* ===================================================================== *)
(** ** JavaScript values *)
(* ===================================================================== *)

(** The values the code handles without a schema: parsed JSON plus
    [undefined] and [NaN].  Numbers are the integers the hypervisor reports
    (ids, counts, byte sizes), which a double holds exactly up to 2^53;
    objects keep their fields in order. *)
Inductive JsVal : Type :=
| JUndef
| JNull
| JNaN
| JBool (b : bool)
| JNum (n : Z)
| JStr (s : string)
| JArr (items : list JsVal)
| JObj (fields : list (string * JsVal)).

(** Errors a method can raise: [new Error(msg)], and the platform's own
    [TypeError] (property of null or undefined, call of a non-function,
    iteration of a non-iterable), [SyntaxError] ([JSON.parse]) and
    [InvalidCharacterError] ([btoa]). *)
Inductive JsError : Type :=
| Error (msg : string)
| TypeError
| SyntaxError
| InvalidCharacterError.

(** [String(v)], also what a template literal does to [${v}]. *)
Fixpoint js_to_string (v : JsVal) : string :=
  match v with
  | JUndef => "undefined"
  | JNull => "null"
  | JNaN => "NaN"
  | JBool true => "true"
  | JBool false => "false"
  | JNum n => string_of_Z n
  | JStr s => s
  | JArr items =>
      String.concat ","
        (map (fun x => match x with
                       | JUndef | JNull => ""
                       | _ => js_to_string x
                       end) items)
  | JObj _ => "[object Object]"
  end.

(** Truthiness, as [if (v)], [!v], [a && b], [a || b] and [filter(Boolean)]
    use it. *)
Definition truthy (v : JsVal) : bool :=
  match v with
  | JUndef | JNull | JNaN => false
  | JBool b => b
  | JNum n => negb (n =? 0)
  | JStr s => negb (String.eqb s "")
  | JArr _ | JObj _ => true
  end.

(** [a || b] *)
Definition js_or (a b : JsVal) : JsVal := if truthy a then a else b.

(** [v === "lit"] *)
Definition is_str (v : JsVal) (lit : string) : bool :=
  match v with
  | JStr s => String.eqb s lit
  | _ => false
  end.

Definition lookup_field (k : string) (fields : list (string * JsVal)) : JsVal :=
  match find (fun kv => String.eqb (fst kv) k) fields with
  | Some kv => snd kv
  | None => JUndef
  end.

(** [v.k] or [v[k]].  [None] is the [TypeError] raised on [undefined] and
    [null]; arrays and strings answer [length], any other key of a
    primitive or an array is [undefined]. *)
Definition get (v : JsVal) (k : string) : option JsVal :=
  match v with
  | JUndef | JNull => None
  | JObj fields => Some (lookup_field k fields)
  | JArr items =>
      Some (if String.eqb k "length" then JNum (Z.of_nat (List.length items)) else JUndef)
  | JStr s =>
      Some (if String.eqb k "length" then JNum (Z.of_nat (String.length s)) else JUndef)
  | JNaN | JBool _ | JNum _ => Some JUndef
  end.

(** [v?.k] *)
Definition opt_get (v : JsVal) (k : string) : JsVal :=
  match get v k with
  | Some x => x
  | None => JUndef
  end.

(** What [for (const x of v)] visits; [None] is the [TypeError] for a value
    that is not iterable.  A string is visited character by character. *)
Definition iterate (v : JsVal) : option (list JsVal) :=
  match v with
  | JArr items => Some items
  | JStr s => Some (map (fun c => JStr (String c EmptyString)) (chars s))
  | _ => None
  end.

(** An optional string argument as the value the code sees. *)
Definition of_opt (o : option string) : JsVal :=
  match o with
  | Some s => JStr s
  | None => JUndef
  end.

(** [x ?? d] on optional arguments. *)
Definition nullish {A : Type} (o : option A) (d : A) : A :=
  match o with
  | Some x => x
  | None => d
  end.

(* ===================================================================== *)
(** ** Platform functions the code calls *)
(* ===================================================================== *)

(** White space as [\s] and [parseInt] see it, within ASCII. *)
Definition is_space (c : ascii) : bool :=
  let n := nat_of_ascii c in
  (Nat.eqb n 32 || (Nat.leb 9 n && Nat.leb n 13))%bool.

Definition digit_of (c : ascii) : option Z :=
  let n := nat_of_ascii c in
  if (Nat.leb 48 n && Nat.leb n 57)%bool then Some (Z.of_nat (n - 48)) else None.

Fixpoint skip_spaces (s : string) : string :=
  match s with
  | String c s' => if is_space c then skip_spaces s' else s
  | EmptyString => s
  end.

(** The longest run of decimal digits at the head of [s], read left to
    right with [acc] the value so far; [seen] tells whether a digit was read. *)
Fixpoint read_digits (s : string) (acc : Z) (seen : bool) : option Z :=
  match s with
  | String c s' =>
      match digit_of c with
      | Some d => read_digits s' (10 * acc + d) true
      | None => if seen then Some acc else None
      end
  | EmptyString => if seen then Some acc else None
  end.

(** [parseInt(s, 10)]; [None] is [NaN].  The value is the exact integer:
    the code's is the nearest double, which is the same up to 2^53. *)
Definition parseInt (s : string) : option Z :=
  match skip_spaces s with
  | String "-" s' => option_map Z.opp (read_digits s' 0 false)
  | String "+" s' => read_digits s' 0 false
  | s' => read_digits s' 0 false
  end.

(** [Math.max(...l)]; [None] is the [-Infinity] of an empty argument list. *)
Definition Math_max (l : list Z) : option Z :=
  match l with
  | [] => None
  | x :: rest => Some (fold_left Z.max rest x)
  end.

Definition show_max (m : option Z) : string :=
  match m with
  | Some n => string_of_Z n
  | None => "-Infinity"
  end.

(** The rest of the pattern [createdAt:\s*'([^']+)'] once [createdAt:] has
    been read: white space, a quote, at least one character that is not a
    quote, a quote.  Returns the captured group. *)
Fixpoint until_quote (s : string) : option string :=
  match s with
  | EmptyString => None
  | String c s' =>
      if Ascii.eqb c "'" then Some EmptyString
      else option_map (String c) (until_quote s')
  end.

Definition quoted_value (s : string) : option string :=
  match skip_spaces s with
  | String "'" s' =>
      match until_quote s' with
      | Some EmptyString => None
      | r => r
      end
  | _ => None
  end.

(** [metaText.match(/createdAt:\s*'([^']+)'/)]: the capture of the leftmost
    match, [None] when the pattern occurs nowhere. *)
Fixpoint match_createdAt (s : string) : option string :=
  match s with
  | EmptyString => None
  | String _ s' =>
      let here :=
        if String.prefix "createdAt:" s then quoted_value (drop 10 s) else None in
      match here with
      | Some v => Some v
      | None => match_createdAt s'
      end
  end.

Definition hex_digit (n : nat) : ascii :=
  match String.get n "0123456789ABCDEF" with
  | Some c => c
  | None => "0"%char
  end.

Definition uri_unreserved (c : ascii) : bool :=
  let n := nat_of_ascii c in
  ((Nat.leb 65 n && Nat.leb n 90) || (Nat.leb 97 n && Nat.leb n 122)
   || (Nat.leb 48 n && Nat.leb n 57)
   || existsb (Ascii.eqb c) (chars "-_.!~*'()"))%bool.

(** [encodeURIComponent(s)] on a string of bytes. *)
Fixpoint encodeURIComponent (s : string) : string :=
  match s with
  | EmptyString => EmptyString
  | String c s' =>
      if uri_unreserved c then String c (encodeURIComponent s')
      else
        let n := nat_of_ascii c in
        String "%" (String (hex_digit (n / 16)) (String (hex_digit (n mod 16))
          (encodeURIComponent s')))
  end.

Definition b64_char (n : nat) : ascii :=
  match String.get n
          "ABCDEFGHIJKLMNOPQRSTUVWXYZabcdefghijklmnopqrstuvwxyz0123456789+/" with
  | Some c => c
  | None => "="%char
  end.

Fixpoint b64_bytes (l : list nat) : string :=
  match l with
  | [] => EmptyString
  | [a] =>
      String (b64_char (a / 4)) (String (b64_char ((a mod 4) * 16)) "==")
  | [a; b] =>
      String (b64_char (a / 4))
        (String (b64_char ((a mod 4) * 16 + b / 16))
           (String (b64_char ((b mod 16) * 4)) "="))
  | a :: b :: c :: rest =>
      String (b64_char (a / 4))
        (String (b64_char ((a mod 4) * 16 + b / 16))
           (String (b64_char ((b mod 16) * 4 + c / 64))
              (String (b64_char (c mod 64)) (b64_bytes rest))))
  end%nat.

(** The code units of a string all of whose characters lie below U+0100,
    read off its UTF-8 bytes: a byte below 128 is the character itself, and
    the two bytes [0xC2] or [0xC3], [0x80..0xBF] are one character from
    U+0080 to U+00FF.  [None] when a character lies above U+00FF; bytes
    that are not UTF-8 stand for no string and give [None] as well. *)
Fixpoint latin1 (l : list nat) : option (list nat) :=
  match l with
  | [] => Some []
  | a :: rest =>
      if Nat.ltb a 128 then option_map (cons a) (latin1 rest)
      else
        match rest with
        | b :: rest' =>
            if ((Nat.eqb a 194 || Nat.eqb a 195) && Nat.leb 128 b && Nat.ltb b 192)%bool
            then option_map (cons ((a - 192) * 64 + (b - 128))%nat) (latin1 rest')
            else None
        | [] => None
        end
  end.

(** [btoa(s)]: the base64 text of the code units of [s]; [None] is the
    [InvalidCharacterError] raised for a character above U+00FF. *)
Definition btoa (s : string) : option string :=
  option_map b64_bytes (latin1 (map nat_of_ascii (chars s))).

(** A [URLSearchParams] object: its entries in order.  The request body on
    the wire is [params.toString()], the form encoding of these entries. *)
Definition URLSearchParams := list (string * string).

(** [params.set(k, v)] *)
Fixpoint params_set (k v : string) (p : URLSearchParams) : URLSearchParams :=
  match p with
  | [] => [(k, v)]
  | (k', v') :: rest =>
      if String.eqb k' k
      then (k, v) :: filter (fun kv => negb (String.eqb (fst kv) k)) rest
      else (k', v') :: params_set k v rest
  end.

(** [params.get(k)] *)
Definition params_get (k : string) (p : URLSearchParams) : option string :=
  option_map snd (find (fun kv => String.eqb (fst kv) k) p).

(* ===================================================================== *)
(** ** The world: clock, hypervisor, disk, resource store *)
(* ===================================================================== *)

(** The [url] and [options] handed to [fetchWithCurl]; header values are
    shown after the interpolation [`${key}: ${value}`] has made strings of
    them. *)
Module Request.
Record t : Type := mk {
  url : string;
  method : string;
  headers : list (string * string);
  body : option URLSearchParams;
  skipTlsVerify : bool
}.
End Request.

(** The object [fetchWithCurl] returns.  [json] is the outcome of
    [JSON.parse(bodyText)], [None] when it raises. *)
Module Response.
Record t : Type := mk {
  status : Z;
  statusText : string;
  text : string;
  json : option JsVal
}.
Definition ok (r : t) : bool := (200 <=? status r) && (status r <? 300).
End Response.

(** What one run of the [curl] command gives: it fails with a non-zero exit
    code, or its output is split into a response; and the time it took. *)
Inductive CurlResult : Type :=
| CurlFailed (code : Z) (stderr : string)
| CurlOutput (r : Response.t).

Record CurlReply : Type := { elapsed : nat; result : CurlResult }.

Record DirEntry : Type := { name : string; isDirectory : bool }.

(** The attributes of a [vm] resource: the fields of [VmDataSchema] that
    the methods embedded here write; a field a method leaves out is [JUndef].
    [logs] is [logs.join("\n")]; [timestamp] is the clock reading that
    [new Date().toISOString()] prints. *)
Module VmData.
Record t : Type := mk {
  vmid : JsVal;
  vmName : JsVal;
  status : JsVal;
  ip : JsVal;
  maxmem : JsVal;
  maxcpu : JsVal;
  success : JsVal;
  wasStarted : JsVal;
  logs : string;
  timestamp : Z
}.
End VmData.

Record ResourceVersion : Type := {
  kind : string;
  instanceName : JsVal;
  attributes : VmData.t
}.

(** The handle [context.writeResource] returns: the instance written to
    and the position of the new version in the store. *)
Record Handle : Type := { h_kind : string; h_name : JsVal; h_version : nat }.

Record World : Type := mkWorld {
  (** [Date.now()], in milliseconds *)
  now : Z;
  (** every request handed to [fetchWithCurl] so far, oldest first *)
  trace : list Request.t;
  (** the resource versions written so far, oldest first *)
  store : list ResourceVersion;
  (** the hypervisor behind [curl]: its answer may depend on the time and
      on everything asked before *)
  curl : Z -> list Request.t -> Request.t -> CurlReply;
  (** [Deno.readDir]; [None] when it raises *)
  readDir : string -> option (list DirEntry);
  (** [Deno.readTextFile]; [None] when it raises *)
  readTextFile : string -> option string;
  (** [JSON.parse]; [None] when it raises *)
  JSON_parse : string -> option JsVal;
  (** [new Date(s).getTime()]; [None] is the [NaN] of an invalid date *)
  Date_parse : string -> option Z
}.

Definition set_now (t : Z) (w : World) : World :=
  mkWorld t (trace w) (store w)
          (curl w) (readDir w) (readTextFile w) (JSON_parse w) (Date_parse w).

Definition set_trace (tr : list Request.t) (w : World) : World :=
  mkWorld (now w) tr (store w)
          (curl w) (readDir w) (readTextFile w) (JSON_parse w) (Date_parse w).

Definition set_store (st : list ResourceVersion) (w : World) : World :=
  mkWorld (now w) (trace w) st
          (curl w) (readDir w) (readTextFile w) (JSON_parse w) (Date_parse w).

(* ===================================================================== *)
(** ** The monad of methods *)
(* ===================================================================== *)

Inductive Outcome (A : Type) : Type :=
| Ok (a : A) (w : World)
| Throw (e : JsError) (w : World)
| Diverge.
Arguments Ok {A} a w.
Arguments Throw {A} e w.
Arguments Diverge {A}.

Definition M (A : Type) : Type := World -> Outcome A.

Definition ret {A : Type} (a : A) : M A := fun w => Ok a w.

Definition throw {A : Type} (e : JsError) : M A := fun w => Throw e w.

Definition diverge {A : Type} : M A := fun _ => Diverge.

Definition bind {A B : Type} (m : M A) (k : A -> M B) : M B :=
  fun w =>
    match m w with
    | Ok a w' => k a w'
    | Throw e w' => Throw e w'
    | Diverge => Diverge
    end.

(** [try { m } catch (e) { h e }] *)
Definition try_catch {A : Type} (m : M A) (h : JsError -> M A) : M A :=
  fun w =>
    match m w with
    | Throw e w' => h e w'
    | r => r
    end.

Declare Scope js_scope.
Delimit Scope js_scope with js.
Notation "x <- m ;; k" := (bind m (fun x => k))
  (at level 61, m at next level, right associativity) : js_scope.
Notation "m ;; k" := (bind m (fun _ => k))
  (at level 61, right associativity) : js_scope.
Open Scope js_scope.

(** A value that must be there: [None] raises [e]. *)
Definition orThrow {A : Type} (e : JsError) (o : option A) : M A :=
  match o with
  | Some a => ret a
  | None => throw e
  end.

(** [Date.now()] *)
Definition Date_now : M Z := fun w => Ok (now w) w.

(** [await new Promise(r => setTimeout(r, ms))]: the clock moves on by [ms];
    a delay below zero counts as zero. *)
Definition sleep (ms : Z) : M unit :=
  fun w => Ok tt (set_now (now w + Z.max 0 ms) w).

(** [log(msg)], that is [logs.push(msg)], on the method's own [logs] array. *)
Definition push (logs : list string) (msg : string) : list string := logs ++ [msg].

Definition nl : string := String (ascii_of_nat 10) EmptyString.

Definition Deno_readDir (path : string) : M (list DirEntry) :=
  fun w => orThrow (Error "readDir") (readDir w path) w.

Definition Deno_readTextFile (path : string) : M string :=
  fun w => orThrow (Error "readTextFile") (readTextFile w path) w.

Definition parse_json (s : string) : M JsVal :=
  fun w => orThrow SyntaxError (JSON_parse w s) w.

(** [v.k], raising the [TypeError] of a null or undefined [v]. *)
Definition prop (v : JsVal) (k : string) : M JsVal := orThrow TypeError (get v k).

(** Modelled from the spec: the framework's [context.writeResource], which
    is not part of the repository.  It always appends a new version under
    (kind, instance name) and never touches an existing one; the handle
    names the version written. *)
Definition writeResource (k : string) (nm : JsVal) (data : VmData.t) : M Handle :=
  fun w =>
    Ok {| h_kind := k; h_name := nm; h_version := List.length (store w) |}
       (set_store (store w ++ [{| kind := k; instanceName := nm; attributes := data |}]) w).

(** [fetchWithCurl(url, options)].  The request joins the trace, the clock
    moves on by the time [curl] took, and the method sees either the error
    raised for a non-zero exit code or the response object.  Building the
    argument vector and splitting status line, headers and body out of the
    output stay inside [curl]. *)
Definition fetchWithCurl (rq : Request.t) : M Response.t :=
  fun w =>
    let reply := curl w (now w) (trace w) rq in
    let w' := set_now (now w + Z.of_nat (elapsed reply)) (set_trace (trace w ++ [rq]) w) in
    match result reply with
    | CurlFailed code stderr =>
        Throw (Error (tpl ["curl failed with code "; string_of_Z code; ": "; stderr])) w'
    | CurlOutput r => Ok r w'
    end.

(** [await response.json()] *)
Definition response_json (r : Response.t) : M JsVal :=
  orThrow SyntaxError (Response.json r).

(* ===================================================================== *)
(** ** lib/proxmox.ts *)
(* ===================================================================== *)

Module TaskResult.
Record t : Type := mk { success : bool; exitstatus : JsVal; pollCount : Z }.
End TaskResult.

Definition task_url (apiUrl node : string) (upid : JsVal) : string :=
  tpl [apiUrl; "/api2/json/nodes/"; node; "/tasks/";
       encodeURIComponent (js_to_string upid); "/status"].

Definition task_request (apiUrl node : string) (upid ticket csrfToken : JsVal)
    (skipTlsVerify : bool) : Request.t :=
  Request.mk (task_url apiUrl node upid) "GET"
    (("Cookie", tpl ["PVEAuthCookie="; js_to_string ticket])
       :: (if truthy csrfToken
           then [("CSRFPreventionToken", js_to_string csrfToken)]
           else []))
    None skipTlsVerify.

(** The [while (true)] loop of [waitForTask]; [pollCount] is the number of
    polls made before this round.  There is no bound in the source: the
    fuel is the number of rounds this run is allowed. *)
Fixpoint waitForTask_loop (fuel : nat) (rq : Request.t) (pollCount : Z)
    : M TaskResult.t :=
  match fuel with
  | O => diverge
  | S fuel' =>
      let pollCount := pollCount + 1 in
      response <- fetchWithCurl rq ;;
      if negb (Response.ok response) then
        throw (Error (tpl ["Task status check failed: ";
                           string_of_Z (Response.status response)]))
      else
        result <- response_json response ;;
        data <- prop result "data" ;;
        let status := opt_get data "status" in
        if is_str status "stopped" then
          let exitstatus := opt_get data "exitstatus" in
          ret (TaskResult.mk (is_str exitstatus "OK") exitstatus pollCount)
        else
          sleep 1000 ;;
          waitForTask_loop fuel' rq pollCount
  end.

Definition waitForTask (fuel : nat) (apiUrl node : string)
    (upid ticket csrfToken : JsVal) (skipTlsVerify : bool) : M TaskResult.t :=
  waitForTask_loop fuel (task_request apiUrl node upid ticket csrfToken skipTlsVerify) 0.

Definition AUTH_TTL_MS : Z := 2 * 60 * 60 * 1000.

(** The connection arguments every method shares, with the credentials
    [resolveAuth] also looks for. *)
Module GlobalArgs.
Record t : Type := mk {
  apiUrl : string;
  ticket : option string;
  csrfToken : option string;
  node : string;
  skipTlsVerify : option bool;
  username : option string;
  password : option string;
  realm : option string
}.
End GlobalArgs.

(** What [resolveAuth] reads of the framework's [context]. *)
Module Context.
Record t : Type := mk {
  globalArgs : GlobalArgs.t;
  definition_id : string;
  repoDir : string
}.
End Context.

Module AuthOpts.
Record t : Type := mk { skipCache : bool; modelType : option string }.
End AuthOpts.

Module Auth.
Record t : Type := mk {
  ticket : JsVal;
  csrfToken : JsVal;
  username : option string;
  source : string;
  freshAuth : bool
}.
End Auth.

Definition authDir_of (context : Context.t) (opts : AuthOpts.t) : string :=
  let modelType :=
    if truthy (of_opt (AuthOpts.modelType opts))
    then nullish (AuthOpts.modelType opts) ""
    else "@user/proxmox/api" in
  let defId := Context.definition_id context in
  tpl [Context.repoDir context; "/.swamp/data/"; modelType; "/"; defId; "/auth"].

Definition dir_versions (entries : list DirEntry) : list Z :=
  flat_map (fun e => match parseInt (name e) with
                     | Some n => [n]
                     | None => []
                     end) entries.

Definition rawPath_of (authDir latest : string) : string :=
  tpl [authDir; "/"; latest; "/raw"].

Definition metaPath_of (authDir latest : string) : string :=
  tpl [authDir; "/"; latest; "/metadata.yaml"].

(** The body of the [try] block of step 2: [Some] is its [return], [None]
    is falling out of the block. *)
Definition cachedAuth (context : Context.t) (opts : AuthOpts.t) : M (option Auth.t) :=
  let authDir := authDir_of context opts in
  listing <- Deno_readDir authDir ;;
  let entries := filter isDirectory listing in
  if (0 <? Z.of_nat (List.length entries)) then
    let versions := dir_versions entries in
    let latest := show_max (Math_max versions) in
    let rawPath := rawPath_of authDir latest in
    let metaPath := metaPath_of authDir latest in
    metaText <- Deno_readTextFile metaPath ;;
    match match_createdAt metaText with
    | Some createdAtMatch =>
        createdAt <- (fun w => Ok (Date_parse w createdAtMatch) w) ;;
        t <- Date_now ;;
        match createdAt with
        | Some created =>
            let ageMs := t - created in
            if ageMs <? AUTH_TTL_MS then
              rawText <- Deno_readTextFile rawPath ;;
              cached <- parse_json rawText ;;
              tk <- prop cached "ticket" ;;
              cs <- prop cached "csrfToken" ;;
              ret (Some (Auth.mk tk cs None "cache" false))
            else ret None
        | None => ret None
        end
    | None => ret None
    end
  else ret None.

Definition ticket_url (apiUrl : string) : string :=
  tpl [apiUrl; "/api2/json/access/ticket"].

Definition principal (username : string) (realm : option string) : string :=
  tpl [username; "@"; js_to_string (js_or (of_opt realm) (JStr "pam"))].

Definition ticket_request (g : GlobalArgs.t) : Request.t :=
  Request.mk (ticket_url (GlobalArgs.apiUrl g)) "POST"
    [("Content-Type", "application/x-www-form-urlencoded")]
    (Some [("username",
            principal (nullish (GlobalArgs.username g) "") (GlobalArgs.realm g));
           ("password", nullish (GlobalArgs.password g) "")])
    (nullish (GlobalArgs.skipTlsVerify g) true).

(** Step 3 of [resolveAuth]: the exchange of user name and password. *)
Definition passwordAuth (g : GlobalArgs.t) : M Auth.t :=
  if negb (truthy (of_opt (GlobalArgs.username g)))
     || negb (truthy (of_opt (GlobalArgs.password g))) then
    throw (Error (tpl [
      "No auth available: no explicit ticket, no valid cached auth, and no username/password. ";
      "Run 'swamp workflow run sync-proxmox-vms --json' to authenticate via vault."]))
  else
    response <- fetchWithCurl (ticket_request g) ;;
    if negb (Response.ok response) then
      let errorText := Response.text response in
      throw (Error (tpl ["Authentication failed: ";
                         string_of_Z (Response.status response); " ";
                         Response.statusText response; " - "; errorText]))
    else
      result <- response_json response ;;
      data <- prop result "data" ;;
      tk <- prop data "ticket" ;;
      cs <- prop data "CSRFPreventionToken" ;;
      ret (Auth.mk tk cs
             (Some (principal (nullish (GlobalArgs.username g) "") (GlobalArgs.realm g)))
             "password" true).

Definition resolveAuth (g : GlobalArgs.t) (context : Context.t) (opts : AuthOpts.t)
    : M Auth.t :=
  let explicitTicket := of_opt (GlobalArgs.ticket g) in
  let explicitCsrf := of_opt (GlobalArgs.csrfToken g) in
  if truthy explicitTicket && truthy explicitCsrf then
    ret (Auth.mk explicitTicket explicitCsrf None "explicit" false)
  else
    cached <-
      (if negb (AuthOpts.skipCache opts)
       then try_catch (cachedAuth context opts) (fun _ => ret None)
       else ret None) ;;
    match cached with
    | Some a => ret a
    | None => passwordAuth g
    end.

(** The outcome of the two nested [for] loops of [getVmIpWithRetry] on one
    response: the address returned, nothing, or a [TypeError] part-way. *)
Inductive Scan : Type :=
| Found (address : string)
| NotFound
| ScanThrows.

Fixpoint scanIps (ips : list JsVal) : Scan :=
  match ips with
  | [] => NotFound
  | ip :: rest =>
      match get ip "ip-address-type" with
      | None => ScanThrows
      | Some ty =>
          if is_str ty "ipv4" then
            match opt_get ip "ip-address" with
            | JStr address =>
                if negb (startsWith address "127.") then Found address
                else scanIps rest
            | _ => ScanThrows
            end
          else scanIps rest
      end
  end.

Fixpoint scanInterfaces (interfaces : list JsVal) : Scan :=
  match interfaces with
  | [] => NotFound
  | iface :: rest =>
      match get iface "name" with
      | None => ScanThrows
      | Some nm =>
          if is_str nm "lo" then scanInterfaces rest
          else
            match iterate (js_or (opt_get iface "ip-addresses") (JArr [])) with
            | None => ScanThrows
            | Some ips =>
                match scanIps ips with
                | NotFound => scanInterfaces rest
                | r => r
                end
            end
      end
  end.

Definition agent_url (apiUrl node : string) (vmid : JsVal) : string :=
  tpl [apiUrl; "/api2/json/nodes/"; node; "/qemu/"; js_to_string vmid;
       "/agent/network-get-interfaces"].

Definition agent_request (apiUrl node : string) (vmid ticket csrfToken : JsVal)
    (skipTlsVerify : option bool) : Request.t :=
  Request.mk (agent_url apiUrl node vmid) "GET"
    [("Cookie", tpl ["PVEAuthCookie="; js_to_string ticket]);
     ("CSRFPreventionToken", js_to_string csrfToken)]
    None (nullish skipTlsVerify true).

(** One pass through the [try] block: [Some] is the [return] of an address,
    [None] is reaching the end of the block. *)
Definition pollAgent (rq : Request.t) : M (option string) :=
  netResponse <- fetchWithCurl rq ;;
  if Response.ok netResponse then
    netResult <- response_json netResponse ;;
    data <- prop netResult "data" ;;
    let interfaces := js_or (opt_get data "result") (JArr []) in
    ifaces <- orThrow TypeError (iterate interfaces) ;;
    match scanInterfaces ifaces with
    | Found address => ret (Some address)
    | NotFound => ret None
    | ScanThrows => throw TypeError
    end
  else ret None.

(** The [while (Date.now() < deadline)] loop.  The test comes before
    anything else; a round uses one unit of fuel. *)
Fixpoint getVmIpWithRetry_loop (fuel : nat) (rq : Request.t)
    (deadline pollInterval : Z) : M (option string) :=
  t <- Date_now ;;
  if t <? deadline then
    match fuel with
    | O => diverge
    | S fuel' =>
        found <- try_catch (pollAgent rq) (fun _ => ret None) ;;
        match found with
        | Some address => ret (Some address)
        | None =>
            sleep (pollInterval * 1000) ;;
            getVmIpWithRetry_loop fuel' rq deadline pollInterval
        end
    end
  else ret None.

(** [getVmIpWithRetry]; [None] is [null].  Every caller passes
    [waitSeconds] and [pollInterval]. *)
Definition getVmIpWithRetry (fuel : nat) (apiUrl node : string)
    (vmid ticket csrfToken : JsVal) (skipTlsVerify : option bool)
    (waitSeconds pollInterval : Z) : M (option string) :=
  t <- Date_now ;;
  let deadline := t + waitSeconds * 1000 in
  getVmIpWithRetry_loop fuel (agent_request apiUrl node vmid ticket csrfToken skipTlsVerify)
    deadline pollInterval.

(* ===================================================================== *)
(** ** proxmox_vm.ts *)
(* ===================================================================== *)

(** [items.join(sep)] on values. *)
Definition js_join (sep : string) (items : list JsVal) : string :=
  String.concat sep
    (map (fun x => match x with
                   | JUndef | JNull => ""
                   | _ => js_to_string x
                   end) items).

Module Vm.
Record t : Type := mk { vmid : JsVal; name : JsVal; status : JsVal }.
End Vm.

Definition auth_headers (ticket csrfToken : JsVal) : list (string * string) :=
  [("Cookie", tpl ["PVEAuthCookie="; js_to_string ticket]);
   ("CSRFPreventionToken", js_to_string csrfToken)].

Definition form_headers (ticket csrfToken : JsVal) : list (string * string) :=
  [("Cookie", tpl ["PVEAuthCookie="; js_to_string ticket]);
   ("Content-Type", "application/x-www-form-urlencoded");
   ("CSRFPreventionToken", js_to_string csrfToken)].

Definition list_url (apiUrl node : string) : string :=
  tpl [apiUrl; "/api2/json/nodes/"; node; "/qemu"].

Definition list_request (apiUrl node : string) (ticket csrfToken : JsVal)
    (skipTlsVerify : option bool) : Request.t :=
  Request.mk (list_url apiUrl node) "GET" (auth_headers ticket csrfToken)
    None (nullish skipTlsVerify true).

(** [vms.find((v) => v.name === vmName)]: the first match, [JUndef] when
    there is none, a [TypeError] at a null or undefined element. *)
Fixpoint find_vm (vmName : string) (vms : list JsVal) : option JsVal :=
  match vms with
  | [] => Some JUndef
  | v :: rest =>
      match get v "name" with
      | None => None
      | Some nm => if is_str nm vmName then Some v else find_vm vmName rest
      end
  end.

(** [vms.map((v) => v.name)] *)
Fixpoint vm_names (vms : list JsVal) : option (list JsVal) :=
  match vms with
  | [] => Some []
  | v :: rest =>
      match get v "name", vm_names rest with
      | Some nm, Some nms => Some (nm :: nms)
      | _, _ => None
      end
  end.

(** The elements of a value that has array methods; anything else raises a
    [TypeError] at [.find]. *)
Definition as_array (v : JsVal) : option (list JsVal) :=
  match v with
  | JArr items => Some items
  | _ => None
  end.

Definition resolveVm (apiUrl node vmName : string) (ticket csrfToken : JsVal)
    (skipTlsVerify : option bool) : M Vm.t :=
  listResponse <- fetchWithCurl (list_request apiUrl node ticket csrfToken skipTlsVerify) ;;
  if negb (Response.ok listResponse) then
    throw (Error (tpl ["Failed to list VMs: ";
                       string_of_Z (Response.status listResponse); " ";
                       Response.text listResponse]))
  else
    listed <- response_json listResponse ;;
    data <- prop listed "data" ;;
    vms <- orThrow TypeError (as_array data) ;;
    vm <- orThrow TypeError (find_vm vmName vms) ;;
    if negb (truthy vm) then
      all <- orThrow TypeError (vm_names vms) ;;
      let names := js_join ", " (filter truthy all) in
      throw (Error (tpl ["VM "; dq; vmName; dq; " not found. Available: "; names]))
    else
      ret (Vm.mk (opt_get vm "vmid") (opt_get vm "name") (opt_get vm "status")).

Definition authOpts : AuthOpts.t := AuthOpts.mk false (Some "@user/proxmox/vm").

Definition vm_path (apiUrl node : string) (vmid : JsVal) (tail : string) : string :=
  tpl [apiUrl; "/api2/json/nodes/"; node; "/qemu/"; js_to_string vmid; tail].

Definition start_request (apiUrl node : string) (vmid ticket csrfToken : JsVal)
    (skipTlsVerify : option bool) : Request.t :=
  Request.mk (vm_path apiUrl node vmid "/status/start") "POST"
    (form_headers ticket csrfToken) None (nullish skipTlsVerify true).

Definition stop_request (apiUrl node : string) (vmid ticket csrfToken : JsVal)
    (skipTlsVerify : option bool) : Request.t :=
  Request.mk (vm_path apiUrl node vmid "/status/stop") "POST"
    (form_headers ticket csrfToken) None (nullish skipTlsVerify true).

Definition delete_request (apiUrl node : string) (vmid ticket csrfToken : JsVal)
    (skipTlsVerify : option bool) : Request.t :=
  Request.mk (vm_path apiUrl node vmid "") "DELETE"
    (auth_headers ticket csrfToken) None (nullish skipTlsVerify true).

(** An address or [null], as a value. *)
Definition ip_value (ip : option string) : JsVal :=
  match ip with
  | Some address => JStr address
  | None => JNull
  end.

(** [context.writeResource("vm", name, { ..., logs: logs.join("\n"),
    timestamp: new Date().toISOString() })] *)
Definition writeVm (nm : JsVal) (logs : list string)
    (fields : string -> Z -> VmData.t) : M Handle :=
  ts <- Date_now ;;
  writeResource "vm" nm (fields (join nl logs) ts).

Module StartArgs.
Record t : Type := mk {
  vmName : string;
  waitSeconds : option Z;
  pollInterval : option Z
}.
End StartArgs.

Definition missing_ip_message (vmName : string) (vmid : JsVal) (waitSeconds : Z) : string :=
  tpl ["VM "; dq; vmName; dq; " (vmid "; js_to_string vmid;
       ") is running but guest agent did not return an IP within ";
       string_of_Z waitSeconds;
       "s. Is qemu-guest-agent installed and agent enabled in VM config?"].

Definition found_line (vmName : string) (vm : Vm.t) : string :=
  tpl ["Found VM "; dq; vmName; dq; " "; arrow; " vmid "; js_to_string (Vm.vmid vm);
       " ["; js_to_string (Vm.status vm); "]"].

(** The [if (vm.status === "stopped") { ... } else { ... }] block of [start]:
    the new [wasStarted] and [logs]. *)
Definition start_if_stopped (fuel : nat) (apiUrl node : string) (vm : Vm.t)
    (ticket csrfToken : JsVal) (skipTlsVerify : option bool) (logs : list string)
    : M (bool * list string) :=
  if is_str (Vm.status vm) "stopped" then
    let logs := push logs "VM is stopped, starting" in
    startResponse <-
      fetchWithCurl (start_request apiUrl node (Vm.vmid vm) ticket csrfToken skipTlsVerify) ;;
    if negb (Response.ok startResponse) then
      throw (Error (tpl ["Failed to start VM: ";
                         string_of_Z (Response.status startResponse); " ";
                         Response.text startResponse]))
    else
      started <- response_json startResponse ;;
      upid <- prop started "data" ;;
      taskResult <-
        waitForTask fuel apiUrl node upid ticket csrfToken (nullish skipTlsVerify true) ;;
      if negb (TaskResult.success taskResult) then
        throw (Error (tpl ["VM start failed: ";
                           js_to_string (TaskResult.exitstatus taskResult)]))
      else
        ret (true,
             push logs (tpl ["VM "; js_to_string (Vm.vmid vm); " started successfully (";
                             string_of_Z (TaskResult.pollCount taskResult); " polls)"]))
  else
    ret (false, push logs "VM is already running").

(** The statements of [start] that follow the lookup of the VM. *)
Definition start_resolved (fuel : nat) (args : StartArgs.t) (context : Context.t)
    (auth : Auth.t) (vm : Vm.t) (logs : list string) : M (list Handle) :=
  let vmName := StartArgs.vmName args in
  let waitSeconds := nullish (StartArgs.waitSeconds args) 120 in
  let pollInterval := nullish (StartArgs.pollInterval args) 5 in
  let g := Context.globalArgs context in
  let apiUrl := GlobalArgs.apiUrl g in
  let node := GlobalArgs.node g in
  let skipTlsVerify := GlobalArgs.skipTlsVerify g in
  let ticket := Auth.ticket auth in
  let csrfToken := Auth.csrfToken auth in
  let logs := push logs (found_line vmName vm) in
  branch <- start_if_stopped fuel apiUrl node vm ticket csrfToken skipTlsVerify logs ;;
  let wasStarted := fst branch in
  let logs := snd branch in
  let logs := push logs (tpl ["Waiting for guest agent IP (up to ";
                              string_of_Z waitSeconds; "s)"]) in
  ip <- getVmIpWithRetry fuel apiUrl node (Vm.vmid vm) ticket csrfToken skipTlsVerify
          waitSeconds pollInterval ;;
  if truthy (ip_value ip) then
    let logs := push logs (tpl ["Got IP: "; js_to_string (ip_value ip)]) in
    handle <- writeVm (Vm.name vm) logs (fun lg ts =>
      VmData.mk (Vm.vmid vm) (Vm.name vm) (JStr "running") (ip_value ip)
                JUndef JUndef JUndef (JBool wasStarted) lg ts) ;;
    ret [handle]
  else
    throw (Error (missing_ip_message vmName (Vm.vmid vm) waitSeconds)).

(** [methods.start.execute] *)
Definition start (fuel : nat) (args : StartArgs.t) (context : Context.t)
    : M (list Handle) :=
  let vmName := StartArgs.vmName args in
  let g := Context.globalArgs context in
  let apiUrl := GlobalArgs.apiUrl g in
  let node := GlobalArgs.node g in
  let skipTlsVerify := GlobalArgs.skipTlsVerify g in
  let logs := push [] (tpl ["Ensuring VM "; dq; vmName; dq; " is running on node "; node]) in
  auth <- resolveAuth g context authOpts ;;
  vm <- resolveVm apiUrl node vmName (Auth.ticket auth) (Auth.csrfToken auth) skipTlsVerify ;;
  start_resolved fuel args context auth vm logs.

(** [methods.stop.execute] *)
Definition stop (fuel : nat) (vmName : string) (context : Context.t)
    : M (list Handle) :=
  let g := Context.globalArgs context in
  let apiUrl := GlobalArgs.apiUrl g in
  let node := GlobalArgs.node g in
  let skipTlsVerify := GlobalArgs.skipTlsVerify g in
  let logs := push [] (tpl ["Stopping VM "; dq; vmName; dq; " on node "; node]) in
  auth <- resolveAuth g context authOpts ;;
  vm <- resolveVm apiUrl node vmName (Auth.ticket auth) (Auth.csrfToken auth) skipTlsVerify ;;
  let logs := push logs (found_line vmName vm) in
  if is_str (Vm.status vm) "stopped" then
    let logs := push logs "VM is already stopped" in
    handle <- writeVm (Vm.name vm) logs (fun lg ts =>
      VmData.mk (Vm.vmid vm) (Vm.name vm) (JStr "stopped") JNull
                JUndef JUndef (JBool true) JUndef lg ts) ;;
    ret [handle]
  else
    let logs := push logs (tpl ["Sending stop command for VM "; js_to_string (Vm.vmid vm)]) in
    response <-
      fetchWithCurl (stop_request apiUrl node (Vm.vmid vm)
                       (Auth.ticket auth) (Auth.csrfToken auth) skipTlsVerify) ;;
    if negb (Response.ok response) then
      throw (Error (tpl ["Failed to stop VM: ";
                         string_of_Z (Response.status response); " ";
                         Response.text response]))
    else
      stopped <- response_json response ;;
      upid <- prop stopped "data" ;;
      let logs := push logs "Stop task initiated, waiting for completion" in
      taskResult <-
        waitForTask fuel apiUrl node upid (Auth.ticket auth) (Auth.csrfToken auth)
          (nullish skipTlsVerify true) ;;
      let logs :=
        if TaskResult.success taskResult then
          push logs (tpl ["VM "; js_to_string (Vm.vmid vm); " stopped successfully (";
                          string_of_Z (TaskResult.pollCount taskResult); " polls)"])
        else
          push logs (tpl ["VM "; js_to_string (Vm.vmid vm); " stop failed: ";
                          js_to_string (TaskResult.exitstatus taskResult)]) in
      handle <- writeVm (Vm.name vm) logs (fun lg ts =>
        VmData.mk (Vm.vmid vm) (Vm.name vm) (JStr "stopped") JNull
                  JUndef JUndef (JBool (TaskResult.success taskResult)) JUndef lg ts) ;;
      ret [handle].

Module CreateArgs.
Record t : Type := mk {
  vmName : string;
  memory : option Z;
  cores : option Z;
  sockets : option Z;
  diskSize : option Z;
  diskStorage : option string;
  networkBridge : option string;
  osType : option string
}.
End CreateArgs.

(** [diskSize !== 0] *)
Definition hasDisk_of (diskSize : option Z) : bool :=
  match diskSize with
  | Some 0 => false
  | _ => true
  end.

Definition nextid_request (apiUrl : string) (ticket csrfToken : JsVal)
    (skipTlsVerify : option bool) : Request.t :=
  Request.mk (tpl [apiUrl; "/api2/json/cluster/nextid"]) "GET"
    (auth_headers ticket csrfToken) None (nullish skipTlsVerify true).

(** The [URLSearchParams] of the create call, the [scsi0] entry included.
    The form is built only once [btoa] has returned: [create] raises
    before it otherwise. *)
Definition create_params (args : CreateArgs.t) (vmid : JsVal) : URLSearchParams :=
  let vmName := CreateArgs.vmName args in
  let diskSize := CreateArgs.diskSize args in
  let hasDisk := hasDisk_of diskSize in
  let params :=
    [("vmid", js_to_string vmid);
     ("name", vmName);
     ("memory", string_of_Z (nullish (CreateArgs.memory args) 2048));
     ("cores", string_of_Z (nullish (CreateArgs.cores args) 2));
     ("sockets", string_of_Z (nullish (CreateArgs.sockets args) 1));
     ("ostype", nullish (CreateArgs.osType args) "l26");
     ("agent", "1");
     ("boot", if hasDisk then "order=net0;scsi0" else "order=net0");
     ("net0", tpl ["virtio,bridge="; nullish (CreateArgs.networkBridge args) "vmbr0"]);
     ("scsihw", "virtio-scsi-single");
     ("smbios1", tpl ["base64=1,serial="; nullish (btoa vmName) ""])] in
  if hasDisk then
    params_set "scsi0"
      (tpl [nullish (CreateArgs.diskStorage args) "local-lvm"; ":";
            string_of_Z (nullish diskSize 32); ",format=raw"]) params
  else params.

Definition create_request (apiUrl node : string) (ticket csrfToken : JsVal)
    (skipTlsVerify : option bool) (params : URLSearchParams) : Request.t :=
  Request.mk (list_url apiUrl node) "POST"
    (auth_headers ticket csrfToken
       ++ [("Content-Type", "application/x-www-form-urlencoded")])
    (Some params) (nullish skipTlsVerify true).

(** [parseInt(data, 10)] as a value; as [parseInt] and [String], exact for
    ids up to 2^53. *)
Definition vmid_of (data : JsVal) : JsVal :=
  match parseInt (js_to_string data) with
  | Some n => JNum n
  | None => JNaN
  end.

(** [methods.create.execute] *)
Definition create (fuel : nat) (args : CreateArgs.t) (context : Context.t)
    : M (list Handle) :=
  let vmName := CreateArgs.vmName args in
  let memory := CreateArgs.memory args in
  let cores := CreateArgs.cores args in
  let diskSize := CreateArgs.diskSize args in
  let g := Context.globalArgs context in
  let apiUrl := GlobalArgs.apiUrl g in
  let node := GlobalArgs.node g in
  let skipTlsVerify := GlobalArgs.skipTlsVerify g in
  let logs := push [] (tpl ["Creating VM "; dq; vmName; dq; " on node "; node]) in
  auth <- resolveAuth g context authOpts ;;
  let ticket := Auth.ticket auth in
  let csrfToken := Auth.csrfToken auth in
  let logs := push logs "Fetching next available VM ID" in
  nextIdResponse <- fetchWithCurl (nextid_request apiUrl ticket csrfToken skipTlsVerify) ;;
  if negb (Response.ok nextIdResponse) then
    throw (Error (tpl ["Failed to get next VM ID: "; Response.text nextIdResponse]))
  else
    nextId <- response_json nextIdResponse ;;
    idText <- prop nextId "data" ;;
    let vmid := vmid_of idText in
    let logs := push logs (tpl ["Got next VM ID: "; js_to_string vmid]) in
    let hasDisk := hasDisk_of diskSize in
    let logs :=
      push logs (tpl ["Specs: "; string_of_Z (nullish memory 2048); "MB RAM, ";
                      string_of_Z (nullish cores 2); " cores, ";
                      if hasDisk then tpl [string_of_Z (nullish diskSize 32); "GB disk"]
                      else "no disk (PXE)"]) in
    orThrow InvalidCharacterError (btoa vmName) ;;
    let params := create_params args vmid in
    response <-
      fetchWithCurl (create_request apiUrl node ticket csrfToken skipTlsVerify params) ;;
    if negb (Response.ok response) then
      let errorText := Response.text response in
      throw (Error (tpl ["Failed to create VM: ";
                         string_of_Z (Response.status response); " ";
                         Response.statusText response; " - "; errorText]))
    else
      created <- response_json response ;;
      upid <- prop created "data" ;;
      let logs := push logs "VM creation task started, waiting for completion" in
      taskResult <-
        waitForTask fuel apiUrl node upid ticket csrfToken (nullish skipTlsVerify true) ;;
      if negb (TaskResult.success taskResult) then
        throw (Error (tpl ["VM creation failed: ";
                           js_to_string (TaskResult.exitstatus taskResult)]))
      else
        let logs :=
          push logs (tpl ["VM "; js_to_string vmid; " ("; dq; vmName; dq;
                          ") created successfully (";
                          string_of_Z (TaskResult.pollCount taskResult); " polls)"]) in
        handle <- writeVm (JStr vmName) logs (fun lg ts =>
          VmData.mk vmid (JStr vmName) (JStr "stopped") JNull
                    JUndef JUndef (JBool true) JUndef lg ts) ;;
        ret [handle].

(** The [try] block of [delete]: stop the VM and wait for the stop task;
    the result is [logs] with the one line the block adds at its end. *)
Definition delete_stop_phase (fuel : nat) (apiUrl node : string)
    (vm : Vm.t) (ticket csrfToken : JsVal) (skipTlsVerify : option bool)
    (logs : list string) : M (list string) :=
  stopResponse <-
    fetchWithCurl (stop_request apiUrl node (Vm.vmid vm) ticket csrfToken skipTlsVerify) ;;
  if Response.ok stopResponse then
    stopped <- response_json stopResponse ;;
    stopUpid <- prop stopped "data" ;;
    stopResult <-
      waitForTask fuel apiUrl node stopUpid ticket csrfToken (nullish skipTlsVerify true) ;;
    ret (push logs (tpl ["VM "; js_to_string (Vm.vmid vm); " stop: ";
                         js_to_string (TaskResult.exitstatus stopResult)]))
  else
    ret (push logs "VM may already be stopped, continuing to delete").

(** The [if (vm.status !== "stopped") { try { ... } catch (_e) { ... } }]
    block of [delete]. *)
Definition delete_stop_first (fuel : nat) (apiUrl node : string)
    (vm : Vm.t) (ticket csrfToken : JsVal) (skipTlsVerify : option bool)
    (logs : list string) : M (list string) :=
  if negb (is_str (Vm.status vm) "stopped") then
    let logs := push logs (tpl ["VM is "; js_to_string (Vm.status vm); ", stopping first"]) in
    try_catch (delete_stop_phase fuel apiUrl node vm ticket csrfToken skipTlsVerify logs)
      (fun _ => ret (push logs "Stop failed (VM may already be stopped), continuing"))
  else ret logs.

(** [methods.delete.execute] *)
Definition delete (fuel : nat) (vmName : string) (context : Context.t)
    : M (list Handle) :=
  let g := Context.globalArgs context in
  let apiUrl := GlobalArgs.apiUrl g in
  let node := GlobalArgs.node g in
  let skipTlsVerify := GlobalArgs.skipTlsVerify g in
  let logs := push [] (tpl ["Deleting VM "; dq; vmName; dq; " on node "; node]) in
  auth <- resolveAuth g context authOpts ;;
  let ticket := Auth.ticket auth in
  let csrfToken := Auth.csrfToken auth in
  vm <- resolveVm apiUrl node vmName ticket csrfToken skipTlsVerify ;;
  let logs := push logs (found_line vmName vm) in
  logs <- delete_stop_first fuel apiUrl node vm ticket csrfToken skipTlsVerify logs ;;
  let logs := push logs (tpl ["Sending delete command for VM "; js_to_string (Vm.vmid vm)]) in
  response <-
    fetchWithCurl (delete_request apiUrl node (Vm.vmid vm) ticket csrfToken skipTlsVerify) ;;
  if negb (Response.ok response) then
    throw (Error (tpl ["Failed to delete VM: ";
                       string_of_Z (Response.status response); " ";
                       Response.text response]))
  else
    deleted <- response_json response ;;
    upid <- prop deleted "data" ;;
    let logs := push logs "Delete task initiated, waiting for completion" in
    taskResult <-
      waitForTask fuel apiUrl node upid ticket csrfToken (nullish skipTlsVerify true) ;;
    let logs :=
      if TaskResult.success taskResult then
        push logs (tpl ["VM "; js_to_string (Vm.vmid vm); " deleted successfully (";
                        string_of_Z (TaskResult.pollCount taskResult); " polls)"])
      else
        push logs (tpl ["VM "; js_to_string (Vm.vmid vm); " deletion failed: ";
                        js_to_string (TaskResult.exitstatus taskResult)]) in
    handle <- writeVm (Vm.name vm) logs (fun lg ts =>
      VmData.mk (Vm.vmid vm) (Vm.name vm) (JStr "deleted") JNull
                JUndef JUndef (JBool (TaskResult.success taskResult)) JUndef lg ts) ;;
    ret [handle].

(** [Math.round(maxmem / 1024 ** 3)] as the log line prints it.  The
    hypervisor reports [maxmem] as a number; [true] counts as 1 and an
    object prints [NaN].  A text or an array the code would first turn into
    a number; that conversion is not followed here, where they print [NaN]
    as well.  Only the text of this log line depends on it. *)
Definition mem_gb (maxmem : JsVal) : string :=
  match maxmem with
  | JNum n => string_of_Z ((2 * n + 1024 ^ 3) / (2 * 1024 ^ 3))
  | JBool true => "0"
  | _ => "NaN"
  end.

Definition sync_line (vmName : JsVal) (rv_vmid rv_status : JsVal)
    (ip : option string) (maxmem : JsVal) : string :=
  tpl ["  "; js_to_string vmName; " (vmid "; js_to_string rv_vmid; ") [";
       js_to_string rv_status; "]";
       if truthy (ip_value ip) then tpl [" ip="; js_to_string (ip_value ip)] else "";
       if truthy maxmem then tpl [" mem="; mem_gb maxmem; "GB"] else ""].

(** The attributes [sync] writes for the listed VM [rv]. *)
Definition sync_data (rv : JsVal) (ip : option string) (lg : string) (ts : Z) : VmData.t :=
  let vmName :=
    js_or (opt_get rv "name") (JStr (tpl ["vm-"; js_to_string (opt_get rv "vmid")])) in
  VmData.mk (opt_get rv "vmid") vmName (opt_get rv "status") (ip_value ip)
            (opt_get rv "maxmem") (opt_get rv "maxcpu") JUndef JUndef lg ts.

(** The [for (const rv of rawVms)] loop of [sync], with the [handles] and
    [logs] arrays as they stand before the round. *)
Fixpoint sync_loop (fuel : nat) (apiUrl node : string) (ticket csrfToken : JsVal)
    (skipTlsVerify : option bool) (rawVms : list JsVal)
    (handles : list Handle) (logs : list string)
    : M (list Handle * list string) :=
  match rawVms with
  | [] => ret (handles, logs)
  | rv :: rest =>
      rv_status <- prop rv "status" ;;
      ip <-
        (if is_str rv_status "running" then
           getVmIpWithRetry fuel apiUrl node (opt_get rv "vmid") ticket csrfToken
             skipTlsVerify 5 2
         else ret None) ;;
      let vmName :=
        js_or (opt_get rv "name") (JStr (tpl ["vm-"; js_to_string (opt_get rv "vmid")])) in
      let logs :=
        push logs (sync_line vmName (opt_get rv "vmid") rv_status ip (opt_get rv "maxmem")) in
      handle <- writeVm vmName logs (sync_data rv ip) ;;
      sync_loop fuel apiUrl node ticket csrfToken skipTlsVerify rest
        (handles ++ [handle]) logs
  end.

(** [methods.sync.execute].  The closing [Complete: ...] line is pushed
    after the last write and reaches no resource version. *)
Definition sync (fuel : nat) (context : Context.t) : M (list Handle) :=
  let g := Context.globalArgs context in
  let apiUrl := GlobalArgs.apiUrl g in
  let node := GlobalArgs.node g in
  let skipTlsVerify := GlobalArgs.skipTlsVerify g in
  let logs := push [] (tpl ["Syncing all VMs from node "; node]) in
  auth <- resolveAuth g context authOpts ;;
  let ticket := Auth.ticket auth in
  let csrfToken := Auth.csrfToken auth in
  listResponse <- fetchWithCurl (list_request apiUrl node ticket csrfToken skipTlsVerify) ;;
  if negb (Response.ok listResponse) then
    throw (Error (tpl ["Failed to list VMs: ";
                       string_of_Z (Response.status listResponse); " ";
                       Response.text listResponse]))
  else
    listed <- response_json listResponse ;;
    rawVms <- prop listed "data" ;;
    count <- prop rawVms "length" ;;
    let logs :=
      push logs (tpl ["Found "; js_to_string count; " VMs, resolving IPs for running VMs"]) in
    vms <- orThrow TypeError (iterate rawVms) ;;
    done <- sync_loop fuel apiUrl node ticket csrfToken skipTlsVerify vms [] logs ;;
    ret (fst done).

(* ===================================================================== *)
(** ** Notions the properties are stated with *)
(* ===================================================================== *)

(** The world a run ends in, when it ends. *)
Definition final_world {A : Type} (o : Outcome A) : option World :=
  match o with
  | Ok _ w => Some w
  | Throw _ w => Some w
  | Diverge => None
  end.

(** The environment is the same in both worlds. *)
Definition same_env (w w' : World) : Prop :=
  curl w' = curl w /\ readDir w' = readDir w /\ readTextFile w' = readTextFile w
  /\ JSON_parse w' = JSON_parse w /\ Date_parse w' = Date_parse w.

(** From [w] to [w']: the requests issued in between all satisfy [P], the
    resource versions written in between all satisfy [Q], the clock did not
    go back and the environment is untouched. *)
Definition evolves (P : Request.t -> Prop) (Q : ResourceVersion -> Prop)
    (w w' : World) : Prop :=
  (exists delta, trace w' = trace w ++ delta /\ Forall P delta)
  /\ (exists vs, store w' = store w ++ vs /\ Forall Q vs)
  /\ now w <= now w'
  /\ same_env w w'.

(** Every run of [m] that ends, normally or with an error, ends in a world
    that [evolves P Q] from the one it began in. *)
Definition respects {A : Type} (P : Request.t -> Prop) (Q : ResourceVersion -> Prop)
    (m : M A) : Prop :=
  forall w w', final_world (m w) = Some w' -> evolves P Q w w'.

Definition no_request : Request.t -> Prop := fun _ => False.
Definition any_request : Request.t -> Prop := fun _ => True.
Definition any_version : ResourceVersion -> Prop := fun _ => True.
Definition no_version : ResourceVersion -> Prop := fun _ => False.

(** A hypervisor "start" mutation: a POST to a [.../status/start] endpoint. *)
Definition is_start_mutation (rq : Request.t) : bool :=
  String.eqb (Request.method rq) "POST" && endsWith (Request.url rq) "/status/start".

Definition count_start (rqs : list Request.t) : nat :=
  List.length (filter is_start_mutation rqs).

(** A request that is not a start mutation. *)
Definition quiet (rq : Request.t) : Prop := is_start_mutation rq = false.

(** Every run of [m] that ends issued at most [n] start mutations. *)
Definition emits (n : nat) {A : Type} (m : M A) : Prop :=
  forall w w', final_world (m w) = Some w' ->
    exists delta, trace w' = trace w ++ delta /\ (count_start delta <= n)%nat.

(** [s.split(sep)] for a separator of one character. *)
Fixpoint split_on (sep : ascii) (s : string) : list string :=
  match s with
  | EmptyString => [EmptyString]
  | String c s' =>
      if Ascii.eqb c sep then EmptyString :: split_on sep s'
      else match split_on sep s' with
           | h :: t => String c h :: t
           | [] => [String c EmptyString]
           end
  end.

(** The devices of a boot order string [order=a;b], first to boot first. *)
Definition boot_devices (boot : string) : list string :=
  if String.prefix "order=" boot then split_on ";" (drop 6 boot) else [].

Definition first_boot_device (boot : string) : option string :=
  match boot_devices boot with
  | d :: _ => Some d
  | [] => None
  end.

(** The boot order [create] asks for. *)
Definition requested_boot (args : CreateArgs.t) : string :=
  if hasDisk_of (CreateArgs.diskSize args) then "order=net0;scsi0" else "order=net0".

(** A request that carries a [boot] form field carries [boot]. *)
Definition boots_with (boot : string) (rq : Request.t) : Prop :=
  forall params b,
    Request.body rq = Some params -> params_get "boot" params = Some b -> b = boot.

(** Dotted-decimal IPv4 text: four numbers 0..255 without leading zeros. *)
Fixpoint digits_of (l : list ascii) : option (list Z) :=
  match l with
  | [] => Some []
  | c :: rest =>
      match digit_of c, digits_of rest with
      | Some d, Some ds => Some (d :: ds)
      | _, _ => None
      end
  end.

Definition octet (s : string) : option Z :=
  match digits_of (chars s) with
  | Some [d1] => Some d1
  | Some [d1; d2] => if d1 =? 0 then None else Some (10 * d1 + d2)
  | Some [d1; d2; d3] =>
      if d1 =? 0 then None
      else if 100 * d1 + 10 * d2 + d3 <=? 255 then Some (100 * d1 + 10 * d2 + d3)
      else None
  | _ => None
  end.

Definition parse_ipv4 (s : string) : option (Z * Z * Z * Z) :=
  match split_on "." s with
  | [a; b; c; d] =>
      match octet a, octet b, octet c, octet d with
      | Some x, Some y, Some z, Some u => Some (x, y, z, u)
      | _, _, _, _ => None
      end
  | _ => None
  end.

(** The address lies in 127.0.0.0/8. *)
Definition in_loopback_range (s : string) : bool :=
  match parse_ipv4 s with
  | Some (x, _, _, _) => x =? 127
  | None => false
  end.

(** The entry [ip] of an interface offers [address]: it is typed [ipv4] and
    its text passes the method's loopback test. *)
Definition offers (ip : JsVal) (address : string) : Prop :=
  get ip "ip-address-type" = Some (JStr "ipv4")
  /\ get ip "ip-address" = Some (JStr address)
  /\ startsWith address "127." = false.

Definition offers_nothing (ip : JsVal) : Prop := forall address, ~ offers ip address.

(** The address entries the method walks through for [iface]. *)
Definition addresses_of (iface : JsVal) : option (list JsVal) :=
  iterate (js_or (opt_get iface "ip-addresses") (JArr [])).

(** [iface] is skipped by name, or walking its entries offers nothing. *)
Definition passed_over (iface : JsVal) : Prop :=
  get iface "name" = Some (JStr "lo")
  \/ exists ips, addresses_of iface = Some ips /\ Forall offers_nothing ips.

(** [address] is the first address offered, in the order of the report, by
    an interface that is not named [lo]. *)
Definition first_offered (interfaces : list JsVal) (address : string) : Prop :=
  exists pre iface post ipre ip ipost,
    interfaces = pre ++ iface :: post
    /\ Forall passed_over pre
    /\ get iface "name" <> None
    /\ get iface "name" <> Some (JStr "lo")
    /\ addresses_of iface = Some (ipre ++ ip :: ipost)
    /\ Forall offers_nothing ipre
    /\ offers ip address.

(** The interfaces a guest-agent response reports, as the method reads them. *)
Definition reported_interfaces (r : Response.t) : option (list JsVal) :=
  if Response.ok r then
    match Response.json r with
    | Some netResult =>
        match get netResult "data" with
        | Some data => iterate (js_or (opt_get data "result") (JArr []))
        | None => None
        end
    | None => None
    end
  else None.

(** [a] is the address that some answer of the hypervisor of [w] to the
    request [rq], given at some time after some history, offers first. *)
Definition answered (w : World) (rq : Request.t) (a : string) : Prop :=
  exists t seen resp ifaces,
    result (curl w t seen rq) = CurlOutput resp
    /\ reported_interfaces resp = Some ifaces
    /\ first_offered ifaces a.

(** Rounds that cover a wait of [window] seconds when every round lasts at
    least [interval] seconds. *)
Definition rounds (window interval : Z) : nat :=
  Z.to_nat (Z.max 0 ((window + interval - 1) / interval)).

(** A listed VM as the hypervisor reports it: anything but [null] and
    [undefined]. *)
Definition listed_vm (rv : JsVal) : Prop := rv <> JNull /\ rv <> JUndef.

(** The name [sync] files the listed VM [rv] under: its [name], or
    [vm-<vmid>] when it has none. *)
Definition synced_name (rv : JsVal) : JsVal :=
  if truthy (opt_get rv "name") then opt_get rv "name"
  else JStr ("vm-" ++ js_to_string (opt_get rv "vmid")).

(** [v] is the resource version of the listed VM [rv]: a [vm] resource
    filed under the VM's name, whose id, status, memory and CPU count are
    those of the listing, whose address is a text or [null], and [null]
    unless the listing says [running], and which says nothing of success
    or of having been started. *)
Definition synced_from (rv : JsVal) (v : ResourceVersion) : Prop :=
  kind v = "vm"
  /\ instanceName v = synced_name rv
  /\ VmData.vmName (attributes v) = synced_name rv
  /\ VmData.vmid (attributes v) = opt_get rv "vmid"
  /\ VmData.status (attributes v) = opt_get rv "status"
  /\ VmData.maxmem (attributes v) = opt_get rv "maxmem"
  /\ VmData.maxcpu (attributes v) = opt_get rv "maxcpu"
  /\ VmData.success (attributes v) = JUndef
  /\ VmData.wasStarted (attributes v) = JUndef
  /\ (VmData.ip (attributes v) = JNull \/ exists a, VmData.ip (attributes v) = JStr a)
  /\ (opt_get rv "status" <> JStr "running" -> VmData.ip (attributes v) = JNull).

(** The request [rq], sent in the world [w], is accepted: the answer is a
    2xx whose JSON body carries [data]; [w'] is the world after the call. *)
Definition accepted (rq : Request.t) (w : World) (data : JsVal) (w' : World) : Prop :=
  exists response body,
    fetchWithCurl rq w = Ok response w'
    /\ Response.ok response = true
    /\ Response.json response = Some body
    /\ get body "data" = Some data.

(** Every normal return of [m] satisfies [R]. *)
Definition yields {A : Type} (R : A -> Prop) (m : M A) : Prop :=
  forall w a w', m w = Ok a w' -> R a.

(** A session step 2 of [resolveAuth] hands back is marked as cached. *)
Definition from_cache (o : option Auth.t) : Prop :=
  match o with
  | Some a => Auth.source a = "cache" /\ Auth.freshAuth a = false
  | None => True
  end.

(** A session step 3 of [resolveAuth] hands back is marked as fresh. *)
Definition from_password (a : Auth.t) : Prop :=
  Auth.source a = "password" /\ Auth.freshAuth a = true.

(** The guest-agent query [sync] may issue for one of the listed VMs: the
    VM is running. *)
Definition agent_query_for (apiUrl node : string) (ticket csrfToken : JsVal)
    (skipTlsVerify : option bool) (vms : list JsVal) (rq : Request.t) : Prop :=
  exists rv,
    In rv vms
    /\ is_str (opt_get rv "status") "running" = true
    /\ rq = agent_request apiUrl node (opt_get rv "vmid") ticket csrfToken skipTlsVerify.

(** [globalArgs] with neither [ticket] nor [csrfToken]. *)
Definition without_override (g : GlobalArgs.t) : GlobalArgs.t :=
  GlobalArgs.mk (GlobalArgs.apiUrl g) None None (GlobalArgs.node g)
    (GlobalArgs.skipTlsVerify g) (GlobalArgs.username g) (GlobalArgs.password g)
    (GlobalArgs.realm g).

(* ===================================================================== *)
(** ** A scripted hypervisor for examples *)
(* ===================================================================== *)

Module Fixture.

Definition reply (st : Z) (body : JsVal) : CurlReply :=
  {| elapsed := 100;
     result := CurlOutput (Response.mk st "HTTP/1.1" "body" (Some body)) |}.

Definition data (v : JsVal) : JsVal := JObj [("data", v)].

Definition vm (id : Z) (nm status : string) : JsVal :=
  JObj [("vmid", JNum id); ("name", JStr nm); ("status", JStr status);
        ("maxmem", JNum 2147483648); ("maxcpu", JNum 2)].

Definition address (ty a : string) : JsVal :=
  JObj [("ip-address-type", JStr ty); ("ip-address", JStr a)].

Definition iface (nm : string) (ips : list JsVal) : JsVal :=
  JObj [("name", JStr nm); ("ip-addresses", JArr ips)].

Definition interfaces : JsVal :=
  JArr [iface "lo" [address "ipv4" "127.0.0.1"; address "ipv6" "::1"];
        iface "eth0" [address "ipv6" "fe80::1"; address "ipv4" "10.0.0.50"]].

(** What the script varies: the status the list reports for [alpha] given
    the requests seen so far, the HTTP status of a stop call, the exit
    status of every task, and the guest agent's report. *)
Record Script : Type := {
  alpha_status : list Request.t -> string;
  stop_http : Z;
  task_exit : string;
  agent : JsVal
}.

Definition hypervisor (sc : Script) (t : Z) (seen : list Request.t) (rq : Request.t)
    : CurlReply :=
  let u := Request.url rq in
  let m := Request.method rq in
  if endsWith u "/access/ticket" then
    reply 200 (data (JObj [("ticket", JStr "T1"); ("CSRFPreventionToken", JStr "C1")]))
  else if endsWith u "/cluster/nextid" then reply 200 (data (JStr "105"))
  else if String.eqb m "GET" && endsWith u "/qemu" then
    reply 200 (data (JArr [vm 100 "alpha" (alpha_status sc seen); vm 101 "beta" "running"]))
  else if String.eqb m "POST" && endsWith u "/qemu" then reply 200 (data (JStr "UPID:create"))
  else if endsWith u "/status/start" then reply 200 (data (JStr "UPID:start"))
  else if endsWith u "/status/stop" then reply (stop_http sc) (data (JStr "UPID:stop"))
  else if endsWith u "/status" then
    reply 200 (data (JObj [("status", JStr "stopped"); ("exitstatus", JStr (task_exit sc))]))
  else if endsWith u "/agent/network-get-interfaces" then
    reply 200 (data (JObj [("result", agent sc)]))
  else if String.eqb m "DELETE" then reply 200 (data (JStr "UPID:delete"))
  else reply 404 JNull.

(** [alpha] is stopped until a start mutation has been seen. *)
Definition stopped_until_started (seen : list Request.t) : string :=
  if existsb is_start_mutation seen then "running" else "stopped".

Definition healthy : Script :=
  {| alpha_status := stopped_until_started; stop_http := 200;
     task_exit := "OK"; agent := interfaces |}.

Definition failing_tasks : Script :=
  {| alpha_status := stopped_until_started; stop_http := 200;
     task_exit := "command failed"; agent := interfaces |}.

Definition refusing_stop : Script :=
  {| alpha_status := stopped_until_started; stop_http := 500;
     task_exit := "OK"; agent := interfaces |}.

(** A world with an empty disk, at time 1000000. *)
Definition world (sc : Script) : World :=
  mkWorld 1000000 [] [] (hypervisor sc) (fun _ => None) (fun _ => None)
          (fun _ => None) (fun _ => None).

(** Connection arguments with an explicit session. *)
Definition globalArgs : GlobalArgs.t :=
  GlobalArgs.mk "https://pve:8006" (Some "T0") (Some "C0") "node1" None None None None.

Definition context : Context.t := Context.mk globalArgs "def1" "/repo".

(** Connection arguments with only a ticket: a partial override, and a
    user name and password to fall back on. *)
Definition partialArgs : GlobalArgs.t :=
  GlobalArgs.mk "https://pve:8006" (Some "T0") None "node1" None
    (Some "root") (Some "secret") None.

Definition partialContext : Context.t := Context.mk partialArgs "def1" "/repo".

(** A disk with two cached sessions; version 12 is the latest, written
    one hour before the clock of [world]. *)
Definition cacheDir : string := "/repo/.swamp/data/@user/proxmox/vm/def1/auth".

Definition cachedWorld : World :=
  mkWorld 1000000 [] [] (hypervisor healthy)
    (fun p => if String.eqb p cacheDir
              then Some [ {| name := "3"; isDirectory := true |};
                          {| name := "12"; isDirectory := true |};
                          {| name := "notes.txt"; isDirectory := false |} ]
              else None)
    (fun p => if String.eqb p (cacheDir ++ "/12/metadata.yaml")%string
              then Some "version: 12 createdAt: '2026-02-18T10:00:00Z' ttl: 2h"
              else if String.eqb p (cacheDir ++ "/12/raw")%string
              then Some "cached-session-12"
              else None)
    (fun s => if String.eqb s "cached-session-12"
              then Some (JObj [("ticket", JStr "T12"); ("csrfToken", JStr "C12")])
              else None)
    (fun s => if String.eqb s "2026-02-18T10:00:00Z" then Some (1000000 - 3600000) else None).

Definition cachedArgs : GlobalArgs.t :=
  GlobalArgs.mk "https://pve:8006" None None "node1" None None None None.

Definition cachedContext : Context.t := Context.mk cachedArgs "def1" "/repo".

Definition startArgs (ws : Z) : StartArgs.t := StartArgs.mk "alpha" (Some ws) (Some 5).

(** The world a run leaves behind; the world it began in if it does not end. *)
Definition world_after {A : Type} (m : M A) (w : World) : World :=
  match final_world (m w) with
  | Some w' => w'
  | None => w
  end.

(** [start("alpha")] once, and twice, against the healthy hypervisor. *)
Definition after_first_start : World :=
  world_after (start 10 (startArgs 30) context) (world healthy).

Definition after_second_start : World :=
  world_after (start 10 (startArgs 30) context) after_first_start.

(** The world in which [stop("beta")] and [delete("beta")] begin to wait
    for their task: after the list of VMs and the call itself. *)
Definition before_task (sc : Script) (call : Request.t) : World :=
  world_after
    (bind (resolveVm "https://pve:8006" "node1" "beta" (JStr "T0") (JStr "C0") None)
          (fun _ => fetchWithCurl call))
    (world sc).

Definition createArgs (disk : option Z) : CreateArgs.t :=
  CreateArgs.mk "gamma" None None None disk None None None.

Definition after_create (disk : option Z) : World :=
  world_after (create 10 (createArgs disk) context) (world healthy).

(** The list of VMs the healthy hypervisor reports at first. *)
Definition listing : list JsVal := [vm 100 "alpha" "stopped"; vm 101 "beta" "running"].

End Fixture.

(* ===================================================================== *)
(** * Further parts of the sources

    What follows embeds the code around the methods above: the second half
    of [fetchWithCurl], which makes a response object of the bytes [curl]
    wrote, and [is401], both of [lib/proxmox.ts]; the methods [lookup],
    [setBootOrder] and [setConfig] of [proxmox_vm.ts]; and the method [auth]
    of the node model, [proxmox_node.ts], which calls [resolveAuth] with
    [skipCache].  The node model's [status] computes with numbers the
    hypervisor reports and is left out. *)
(* ===================================================================== *)

From Stdlib Require DecimalPos.

(* ===================================================================== *)
(** ** lib/proxmox.ts: inside [fetchWithCurl], and [is401] *)
(* ===================================================================== *)

(** The first [n] characters of [s]. *)
Fixpoint take (n : nat) (s : string) : string :=
  match n, s with
  | O, _ => EmptyString
  | S _, EmptyString => EmptyString
  | S n', String c s' => String c (take n' s')
  end.

(** The position of the first occurrence of [sub] in [s]. *)
Fixpoint find_sub (sub s : string) : option nat :=
  match s with
  | EmptyString => if String.prefix sub EmptyString then Some O else None
  | String _ s' =>
      if String.prefix sub s then Some O else option_map S (find_sub sub s')
  end.

(** The value of a run of decimal digits read after [acc]. *)
Fixpoint uint_value (d : Decimal.uint) (acc : Z) : Z :=
  match d with
  | Decimal.Nil => acc
  | Decimal.D0 d => uint_value d (10 * acc)
  | Decimal.D1 d => uint_value d (10 * acc + 1)
  | Decimal.D2 d => uint_value d (10 * acc + 2)
  | Decimal.D3 d => uint_value d (10 * acc + 3)
  | Decimal.D4 d => uint_value d (10 * acc + 4)
  | Decimal.D5 d => uint_value d (10 * acc + 5)
  | Decimal.D6 d => uint_value d (10 * acc + 6)
  | Decimal.D7 d => uint_value d (10 * acc + 7)
  | Decimal.D8 d => uint_value d (10 * acc + 8)
  | Decimal.D9 d => uint_value d (10 * acc + 9)
  end.

(** [s.indexOf(sub)] *)
Definition indexOf (s sub : string) : Z :=
  match find_sub sub s with
  | Some i => Z.of_nat i
  | None => -1
  end.

(** [s.includes(sub)] *)
Definition includes (s sub : string) : bool :=
  match find_sub sub s with
  | Some _ => true
  | None => false
  end.

(** [s.substring(a, b)]: both ends are brought into [0, s.length] and put
    in order.  Positions count bytes here and code units in the code: the
    same up to the first character of more than one byte. *)
Definition js_substring (s : string) (a b : Z) : string :=
  let len := Z.of_nat (String.length s) in
  let a := Z.max 0 (Z.min a len) in
  let b := Z.max 0 (Z.min b len) in
  let lo := Z.min a b in
  let hi := Z.max a b in
  take (Z.to_nat (hi - lo)) (drop (Z.to_nat lo) s).

(** [s.substring(a)] *)
Definition js_substring_from (s : string) (a : Z) : string :=
  js_substring s a (Z.of_nat (String.length s)).

Definition crlf : string :=
  String (ascii_of_nat 13) (String (ascii_of_nat 10) EmptyString).

Definition blank_line : string := (crlf ++ crlf)%string.

(** [s.split(sep)[0]] *)
Definition first_piece (s sep : string) : string :=
  match find_sub sep s with
  | Some i => take i s
  | None => s
  end.

Fixpoint take_while (p : ascii -> bool) (s : string) : string :=
  match s with
  | EmptyString => EmptyString
  | String c s' => if p c then String c (take_while p s') else EmptyString
  end.

Definition is_digit (c : ascii) : bool :=
  match digit_of c with
  | Some _ => true
  | None => false
  end.

Definition is_digit_or_dot (c : ascii) : bool := is_digit c || Ascii.eqb c ".".

(** The pattern [HTTP\/[\d.]+ (\d+)] tried at the head of [s]: [HTTP/], the
    longest run of digits and dots, a space, the longest run of digits.
    Returns the captured digits. *)
Definition status_here (s : string) : option string :=
  if String.prefix "HTTP/" s then
    let rest := drop 5 s in
    let version := take_while is_digit_or_dot rest in
    if String.eqb version EmptyString then None
    else
      match drop (String.length version) rest with
      | String " " after =>
          let code := take_while is_digit after in
          if String.eqb code EmptyString then None else Some code
      | _ => None
      end
  else None.

(** [statusLine.match(/HTTP\/[\d.]+ (\d+)/)]: the capture of the leftmost
    match. *)
Fixpoint match_status (s : string) : option string :=
  match s with
  | EmptyString => None
  | String _ s' =>
      match status_here s with
      | Some code => Some code
      | None => match_status s'
      end
  end.

(** The second half of [fetchWithCurl]: what the method gets for the bytes
    [output] that [curl -i] wrote.  [parse] is [JSON.parse].  The code
    decodes the bytes first; the blank line and the line ends it looks for
    are ASCII and are found at the same places either way. *)
Definition parse_output (parse : string -> option JsVal) (output : string) : Response.t :=
  let headerEndIndex := indexOf output blank_line in
  let headersText := js_substring output 0 headerEndIndex in
  let bodyText := js_substring_from output (headerEndIndex + 4) in
  let statusLine := first_piece headersText crlf in
  let status :=
    match match_status statusLine with
    | Some code => nullish (parseInt code) 0
    | None => 0
    end in
  Response.mk status statusLine bodyText (parse bodyText).


(** [is401(e)] for an [Error] whose message is [message]; a thrown value
    that is no [Error] gives [false]. *)
Definition is401 (message : string) : bool :=
  includes message "401" || includes message "authentication".

(* ===================================================================== *)
(** ** proxmox_vm.ts: [lookup], [setBootOrder], [setConfig] *)
(* ===================================================================== *)

(** [methods.lookup.execute] *)
Definition lookup (fuel : nat) (vmName : string) (context : Context.t)
    : M (list Handle) :=
  let g := Context.globalArgs context in
  let apiUrl := GlobalArgs.apiUrl g in
  let node := GlobalArgs.node g in
  let skipTlsVerify := GlobalArgs.skipTlsVerify g in
  let logs := push [] (tpl ["Looking up VM "; dq; vmName; dq; " on node "; node]) in
  auth <- resolveAuth g context authOpts ;;
  vm <- resolveVm apiUrl node vmName (Auth.ticket auth) (Auth.csrfToken auth) skipTlsVerify ;;
  let logs := push logs (found_line vmName vm) in
  found <-
    (if is_str (Vm.status vm) "running" then
       let logs := push logs "VM is running, fetching IP from guest agent" in
       ip <- getVmIpWithRetry fuel apiUrl node (Vm.vmid vm) (Auth.ticket auth)
               (Auth.csrfToken auth) skipTlsVerify 15 3 ;;
       if truthy (ip_value ip) then
         ret (ip, push logs (tpl ["Got IP: "; js_to_string (ip_value ip)]))
       else ret (ip, push logs "Could not get IP from guest agent")
     else ret (None, logs)) ;;
  let ip := fst found in
  let logs := snd found in
  handle <- writeVm (Vm.name vm) logs (fun lg ts =>
    VmData.mk (Vm.vmid vm) (Vm.name vm) (Vm.status vm) (ip_value ip)
              JUndef JUndef JUndef JUndef lg ts) ;;
  ret [handle].

(** The framework's [context.writeResource] as the methods below get it:
    kind, instance name, attributes and, when given, options.  These methods
    write attributes that [VmData] has no field for, so the writer is an
    argument and the attributes are an object. *)
Definition Writer : Type :=
  string -> JsVal -> list (string * JsVal) -> option (list (string * string)) -> M Handle.

Definition config_url (apiUrl node : string) (vmid : JsVal) : string :=
  vm_path apiUrl node vmid "/config".

Definition config_request (apiUrl node : string) (vmid ticket csrfToken : JsVal)
    (skipTlsVerify : option bool) (params : URLSearchParams) : Request.t :=
  Request.mk (config_url apiUrl node vmid) "PUT" (form_headers ticket csrfToken)
    (Some params) (nullish skipTlsVerify true).

(** The clock reading a written [timestamp] prints. *)
Definition timestamp_value (ts : Z) : JsVal := JNum ts.

(** [methods.setBootOrder.execute] *)
Definition setBootOrder (writeResource : Writer) (vmName boot : string)
    (context : Context.t) : M (list Handle) :=
  let g := Context.globalArgs context in
  let apiUrl := GlobalArgs.apiUrl g in
  let node := GlobalArgs.node g in
  let skipTlsVerify := GlobalArgs.skipTlsVerify g in
  let logs := push [] (tpl ["Setting boot order for VM "; dq; vmName; dq; " to: "; boot]) in
  auth <- resolveAuth g context authOpts ;;
  let ticket := Auth.ticket auth in
  let csrfToken := Auth.csrfToken auth in
  vm <- resolveVm apiUrl node vmName ticket csrfToken skipTlsVerify ;;
  let logs := push logs (tpl ["Found VM "; dq; vmName; dq; " "; arrow; " vmid ";
                              js_to_string (Vm.vmid vm)]) in
  let params := [("boot", boot)] in
  response <-
    fetchWithCurl (config_request apiUrl node (Vm.vmid vm) ticket csrfToken skipTlsVerify params) ;;
  if negb (Response.ok response) then
    throw (Error (tpl ["Failed to set boot order: ";
                       string_of_Z (Response.status response); " ";
                       Response.text response]))
  else
    let logs := push logs (tpl ["Boot order updated for VM "; js_to_string (Vm.vmid vm);
                                ": "; boot]) in
    ts <- Date_now ;;
    handle <- writeResource "vm" (Vm.name vm)
      [("vmid", Vm.vmid vm); ("vmName", Vm.name vm); ("boot", JStr boot);
       ("success", JBool true); ("logs", JStr (join nl logs));
       ("timestamp", timestamp_value ts)] None ;;
    ret [handle].

(** [for (const [key, value] of Object.entries(config)) configParams.set(key,
    String(value))], from an empty [URLSearchParams]. *)
Definition config_params (config : list (string * string)) : URLSearchParams :=
  fold_left (fun params kv => params_set (fst kv) (snd kv) params) config [].

(** [Object.fromEntries(params)]: a later entry of a key replaces the value
    of the earlier one. *)
Fixpoint object_set (k : string) (v : JsVal) (o : list (string * JsVal))
    : list (string * JsVal) :=
  match o with
  | [] => [(k, v)]
  | (k', v') :: rest =>
      if String.eqb k' k then (k, v) :: rest else (k', v') :: object_set k v rest
  end.

Definition fromEntries (params : URLSearchParams) : JsVal :=
  JObj (fold_left (fun o kv => object_set (fst kv) (JStr (snd kv)) o) params []).

Definition form_safe (c : ascii) : bool :=
  let n := nat_of_ascii c in
  ((Nat.leb 65 n && Nat.leb n 90) || (Nat.leb 97 n && Nat.leb n 122)
   || (Nat.leb 48 n && Nat.leb n 57)
   || existsb (Ascii.eqb c) (chars "*-._"))%bool.

(** One name or value in [application/x-www-form-urlencoded] form, on a
    string of bytes. *)
Fixpoint form_encode (s : string) : string :=
  match s with
  | EmptyString => EmptyString
  | String c s' =>
      if Ascii.eqb c " " then String "+" (form_encode s')
      else if form_safe c then String c (form_encode s')
      else
        let n := nat_of_ascii c in
        String "%" (String (hex_digit (n / 16)) (String (hex_digit (n mod 16))
          (form_encode s')))
  end.

(** [params.toString()] *)
Definition params_toString (params : URLSearchParams) : string :=
  String.concat "&"
    (map (fun kv => tpl [form_encode (fst kv); "="; form_encode (snd kv)]) params).

(** [methods.setConfig.execute]; [config] is [Object.entries(config)]. *)
Definition setConfig (writeResource : Writer)
    (vmName : string) (config : list (string * string)) (context : Context.t)
    : M (list Handle) :=
  let g := Context.globalArgs context in
  let apiUrl := GlobalArgs.apiUrl g in
  let node := GlobalArgs.node g in
  let skipTlsVerify := GlobalArgs.skipTlsVerify g in
  let logs := [] in
  auth <- resolveAuth g context authOpts ;;
  let ticket := Auth.ticket auth in
  let csrfToken := Auth.csrfToken auth in
  vm <- resolveVm apiUrl node vmName ticket csrfToken skipTlsVerify ;;
  let logs := push logs (tpl ["Found VM "; dq; vmName; dq; " "; arrow; " vmid ";
                              js_to_string (Vm.vmid vm)]) in
  let configParams := config_params config in
  if (Z.of_nat (List.length configParams) =? 0) then
    throw (Error (tpl ["No config params provided. Pass config options via workflow ";
                       "step inputs, e.g. inputs: { config: { agent: '1' } }"]))
  else
    let logs := push logs (tpl ["Setting config: "; params_toString configParams]) in
    response <-
      fetchWithCurl (config_request apiUrl node (Vm.vmid vm) ticket csrfToken skipTlsVerify
                       configParams) ;;
    if negb (Response.ok response) then
      throw (Error (tpl ["Failed to set config: ";
                         string_of_Z (Response.status response); " ";
                         Response.text response]))
    else
      let logs := push logs (tpl ["Config updated for VM "; js_to_string (Vm.vmid vm)]) in
      ts <- Date_now ;;
      handle <- writeResource "vm" (Vm.name vm)
        [("vmid", Vm.vmid vm); ("vmName", Vm.name vm); ("config", fromEntries configParams);
         ("success", JBool true); ("logs", JStr (join nl logs));
         ("timestamp", timestamp_value ts)] None ;;
      ret [handle].

(* ===================================================================== *)
(** ** proxmox_node.ts: [auth] *)
(* ===================================================================== *)

Definition nodeAuthOpts : AuthOpts.t := AuthOpts.mk false (Some "@user/proxmox/node").

(** [{ ...authOpts(), skipCache: true }] *)
Definition skipping_cache (opts : AuthOpts.t) : AuthOpts.t :=
  AuthOpts.mk true (AuthOpts.modelType opts).

(** [methods.auth.execute] of the node model. *)
Definition node_auth (writeResource : Writer) (context : Context.t) : M (list Handle) :=
  let g := Context.globalArgs context in
  let logs := push [] (tpl ["Authenticating with Proxmox at "; GlobalArgs.apiUrl g]) in
  auth <- resolveAuth g context (skipping_cache nodeAuthOpts) ;;
  let logs := push logs (tpl ["Authentication successful (source: "; Auth.source auth; ")"]) in
  ts <- Date_now ;;
  handle <- writeResource "node" (JStr "node")
    [("ticket", Auth.ticket auth); ("csrfToken", Auth.csrfToken auth);
     ("username", of_opt (Auth.username auth)); ("logs", JStr (join nl logs));
     ("timestamp", timestamp_value ts)]
    (Some [("lifetime", "2h")]) ;;
  ret [handle].

(* ===================================================================== *)
(** ** Notions the further properties are stated with *)
(* ===================================================================== *)


(** A protocol version as the status line has it: digits and dots, at
    least one. *)
Definition is_version (s : string) : Prop :=
  s <> EmptyString /\ forallb is_digit_or_dot (chars s) = true.

(** A character of a single byte, and so of a single code unit. *)
Definition one_byte (c : ascii) : bool := Nat.ltb (nat_of_ascii c) 128.

(** Text of such characters only.  On it, counting bytes as the embedding
    does and counting code units as the code does are the same. *)
Definition ascii_text (s : string) : Prop := forallb one_byte (chars s) = true.

(** An integer that a double holds exactly, as do its neighbours
    ([Number.isSafeInteger]).  On these, [parseInt] and [String] in the
    code are the exact functions of the embedding. *)
Definition safe_integer (n : Z) : Prop := - (2 ^ 53 - 1) <= n <= 2 ^ 53 - 1.

(** [s] does not go on with a digit. *)
Definition no_digit_ahead (s : string) : Prop :=
  match s with
  | EmptyString => True
  | String c _ => is_digit c = false
  end.

(** The hypervisor of [w] reports, whenever it is asked [rq], a task that
    has not stopped. *)
Definition still_running (w : World) (rq : Request.t) : Prop :=
  forall t seen, exists r body data,
    result (curl w t seen rq) = CurlOutput r
    /\ Response.ok r = true
    /\ Response.json r = Some body
    /\ get body "data" = Some data
    /\ is_str (opt_get data "status") "stopped" = false.

(** A status query for some task of the node. *)
Definition task_query (apiUrl node : string) (ticket csrfToken : JsVal)
    (skipTlsVerify : bool) (rq : Request.t) : Prop :=
  exists upid, rq = task_request apiUrl node upid ticket csrfToken skipTlsVerify.

(** [m] only reads: a run that ends, ends in the world it began in. *)
Definition reads {A : Type} (m : M A) : Prop :=
  forall w w', final_world (m w) = Some w' -> w' = w.

(** [m] always ends: it returns or raises. *)
Definition settles {A : Type} (m : M A) : Prop := forall w, m w <> Diverge.

(** [m] writes at the very end or not at all: a run that raises has
    written nothing, and a run that returns has appended one version of a
    [vm] resource and hands back the handle of that version, alone. *)
Definition commits (m : M (list Handle)) : Prop :=
  forall w,
    match m w with
    | Ok hs w' =>
        exists v,
          store w' = store w ++ [v]
          /\ kind v = "vm"
          /\ hs = [{| h_kind := "vm"; h_name := instanceName v;
                      h_version := List.length (store w) |}]
    | Throw _ w' => store w' = store w
    | Diverge => True
    end.

(** The error of step 3 of [resolveAuth] when there is nothing to
    authenticate with. *)
Definition no_auth_error : JsError :=
  Error (tpl [
    "No auth available: no explicit ticket, no valid cached auth, and no username/password. ";
    "Run 'swamp workflow run sync-proxmox-vms --json' to authenticate via vault."]).

(** The listed VM that [resolveVm] picks for [vmName]: the first one of
    that name. *)
Definition first_named (vmName : string) (vms : list JsVal) : option JsVal :=
  find (fun v => is_str (opt_get v "name") vmName) vms.

(** The names the not-found error lists: those of the listed VMs that have
    one, in the order of the list. *)
Definition available_names (vms : list JsVal) : string :=
  js_join ", " (filter truthy (map (fun v => opt_get v "name") vms)).

Definition not_found_error (vmName : string) (vms : list JsVal) : JsError :=
  Error (tpl ["VM "; dq; vmName; dq; " not found. Available: "; available_names vms]).

(** The error of [setConfig] for a configuration without entries. *)
Definition no_config_error : JsError :=
  Error (tpl ["No config params provided. Pass config options via workflow ";
              "step inputs, e.g. inputs: { config: { agent: '1' } }"]).

(** The entries of a configuration as the object recorded for them. *)
Definition config_object (config : list (string * string)) : JsVal :=
  JObj (map (fun kv => (fst kv, JStr (snd kv))) config).

(* ===================================================================== *)
(** ** More scripted hypervisors for examples *)
(* ===================================================================== *)

Module Scenario.

(** A hypervisor that gives every request the same answer. *)
Definition answering (st : Z) (text : string) (body : option JsVal)
    : Z -> list Request.t -> Request.t -> CurlReply :=
  fun _ _ _ =>
    {| elapsed := 100; result := CurlOutput (Response.mk st "HTTP/1.1" text body) |}.

(** A world with an empty disk, at time 1000000. *)
Definition world (hypervisor : Z -> list Request.t -> Request.t -> CurlReply) : World :=
  mkWorld 1000000 [] [] hypervisor (fun _ => None) (fun _ => None)
          (fun _ => None) (fun _ => None).

Definition apiUrl : string := "https://pve:8006".
Definition node : string := "node1".

(** A hypervisor whose tasks never stop. *)
Definition busy : Z -> list Request.t -> Request.t -> CurlReply :=
  answering 200 "body" (Some (Fixture.data (JObj [("status", JStr "running")]))).

(** A hypervisor whose list of VMs has a hole after its first entry. *)
Definition holed : Z -> list Request.t -> Request.t -> CurlReply :=
  answering 200 "body"
    (Some (Fixture.data (JArr [Fixture.vm 100 "alpha" "stopped"; JNull;
                               Fixture.vm 101 "beta" "stopped"]))).

(** A hypervisor that answers everything with 200 and the list of VMs. *)
Definition obliging : Z -> list Request.t -> Request.t -> CurlReply :=
  answering 200 "body" (Some (Fixture.data (JArr Fixture.listing))).

(** The disk of [Fixture.cachedWorld], two hours to the millisecond after
    its latest session was written. *)
Definition staleWorld : World :=
  set_now (1000000 - 3600000 + AUTH_TTL_MS) Fixture.cachedWorld.

(** The session [Fixture.context] carries, and the world after the list of
    VMs has been fetched with it. *)
Definition explicitAuth : Auth.t := Auth.mk (JStr "T0") (JStr "C0") None "explicit" false.

Definition listed (sc : Fixture.Script) : World :=
  Fixture.world_after
    (fetchWithCurl (list_request apiUrl node (JStr "T0") (JStr "C0") None))
    (Fixture.world sc).

(** A writer that hands out a handle and keeps nothing. *)
Definition discarding : Writer :=
  fun k nm _ _ w =>
    Ok {| h_kind := k; h_name := nm; h_version := List.length (store w) |} w.

End Scenario.

(* ===================================================================== *)
(** ** Running the monad *)
(* ===================================================================== *)

Lemma bind_Ok {A B : Type} (m : M A) (k : A -> M B) (w w' : World) (a : A) :
  m w = Ok a w' -> bind m k w = k a w'.
Proof. intros H. unfold bind. now rewrite H. Qed.

Lemma bind_Throw {A B : Type} (m : M A) (k : A -> M B) (w w' : World) (e : JsError) :
  m w = Throw e w' -> bind m k w = Throw e w'.
Proof. intros H. unfold bind. now rewrite H. Qed.

Lemma bind_Diverge {A B : Type} (m : M A) (k : A -> M B) (w : World) :
  m w = Diverge -> bind m k w = Diverge.
Proof. intros H. unfold bind. now rewrite H. Qed.

Lemma try_catch_Ok {A : Type} (m : M A) (h : JsError -> M A) (w w' : World) (a : A) :
  m w = Ok a w' -> try_catch m h w = Ok a w'.
Proof. intros H. unfold try_catch. now rewrite H. Qed.

Lemma try_catch_Throw {A : Type} (m : M A) (h : JsError -> M A) (w w' : World) (e : JsError) :
  m w = Throw e w' -> try_catch m h w = h e w'.
Proof. intros H. unfold try_catch. now rewrite H. Qed.

(** The outcome of a bind that ended comes from one of two places. *)
Lemma bind_final {A B : Type} (m : M A) (k : A -> M B) (w w' : World) :
  final_world (bind m k w) = Some w' ->
  (exists e, m w = Throw e w')
  \/ (exists a w1, m w = Ok a w1 /\ final_world (k a w1) = Some w').
Proof.
  unfold bind. destruct (m w) as [a w1 | e w1 |] eqn:E; simpl; intros H.
  - right. eauto.
  - left. injection H as <-. eauto.
  - discriminate.
Qed.

(* ===================================================================== *)
(** ** What a run may change *)
(* ===================================================================== *)

Section Evolution.

Variable P : Request.t -> Prop.
Variable Q : ResourceVersion -> Prop.

Lemma same_env_refl (w : World) : same_env w w.
Proof. repeat split. Qed.

Lemma same_env_trans (w1 w2 w3 : World) :
  same_env w1 w2 -> same_env w2 w3 -> same_env w1 w3.
Proof.
  unfold same_env. intros (a1 & a2 & a3 & a4 & a5) (b1 & b2 & b3 & b4 & b5).
  repeat split; congruence.
Qed.

Lemma evolves_refl (w : World) : evolves P Q w w.
Proof.
  split; [| split; [| split]]; try lia.
  - exists []. rewrite app_nil_r. auto.
  - exists []. rewrite app_nil_r. auto.
  - apply same_env_refl.
Qed.

Lemma evolves_trans (w1 w2 w3 : World) :
  evolves P Q w1 w2 -> evolves P Q w2 w3 -> evolves P Q w1 w3.
Proof.
  intros ((d1 & T1 & F1) & (v1 & S1 & G1) & N1 & E1)
         ((d2 & T2 & F2) & (v2 & S2 & G2) & N2 & E2).
  split; [| split; [| split]].
  - exists (d1 ++ d2). rewrite T2, T1, app_assoc. split; auto using Forall_app.
    apply Forall_app; auto.
  - exists (v1 ++ v2). rewrite S2, S1, app_assoc. split; auto.
    apply Forall_app; auto.
  - lia.
  - eapply same_env_trans; eauto.
Qed.

Lemma respects_ret {A : Type} (a : A) : respects P Q (ret a).
Proof. intros w w' H. injection H as <-. apply evolves_refl. Qed.

Lemma respects_throw {A : Type} (e : JsError) : respects P Q (@throw A e).
Proof. intros w w' H. injection H as <-. apply evolves_refl. Qed.

Lemma respects_diverge {A : Type} : respects P Q (@diverge A).
Proof. intros w w' H. discriminate. Qed.

Lemma respects_bind {A B : Type} (m : M A) (k : A -> M B) :
  respects P Q m -> (forall a, respects P Q (k a)) -> respects P Q (bind m k).
Proof.
  intros Hm Hk w w' H.
  destruct (bind_final _ _ _ _ H) as [[e E] | (a & w1 & E & F)].
  - apply Hm. now rewrite E.
  - eapply evolves_trans.
    + apply Hm. rewrite E. reflexivity.
    + eapply Hk; eauto.
Qed.

Lemma respects_try_catch {A : Type} (m : M A) (h : JsError -> M A) :
  respects P Q m -> (forall e, respects P Q (h e)) -> respects P Q (try_catch m h).
Proof.
  intros Hm Hh w w' H. unfold try_catch in H.
  destruct (m w) as [a w1 | e w1 |] eqn:E.
  - apply Hm. now rewrite E.
  - eapply evolves_trans.
    + apply Hm. rewrite E. reflexivity.
    + eapply Hh; eauto.
  - discriminate.
Qed.

Lemma respects_orThrow {A : Type} (e : JsError) (o : option A) :
  respects P Q (orThrow e o).
Proof. destruct o; [apply respects_ret | apply respects_throw]. Qed.

Lemma respects_prop (v : JsVal) (k : string) : respects P Q (prop v k).
Proof. apply respects_orThrow. Qed.

Lemma respects_response_json (r : Response.t) : respects P Q (response_json r).
Proof. apply respects_orThrow. Qed.

Lemma respects_pure {A : Type} (f : World -> A) : respects P Q (fun w => Ok (f w) w).
Proof. intros w w' H. injection H as <-. apply evolves_refl. Qed.

Lemma respects_Date_now : respects P Q Date_now.
Proof. apply (respects_pure now). Qed.

Lemma respects_lookup {A : Type} (e : JsError) (f : World -> option A) :
  respects P Q (fun w => orThrow e (f w) w).
Proof.
  intros w w' H. destruct (f w); injection H as <-; apply evolves_refl.
Qed.

Lemma respects_readDir (p : string) : respects P Q (Deno_readDir p).
Proof. apply (respects_lookup _ (fun w => readDir w p)). Qed.

Lemma respects_readTextFile (p : string) : respects P Q (Deno_readTextFile p).
Proof. apply (respects_lookup _ (fun w => readTextFile w p)). Qed.

Lemma respects_parse_json (s : string) : respects P Q (parse_json s).
Proof. apply (respects_lookup _ (fun w => JSON_parse w s)). Qed.

Lemma respects_sleep (ms : Z) : respects P Q (sleep ms).
Proof.
  intros w w' H. injection H as <-.
  split; [| split; [| split]]; simpl; try lia; try apply same_env_refl.
  - exists []. rewrite app_nil_r. auto.
  - exists []. rewrite app_nil_r. auto.
  - repeat split.
Qed.

Lemma respects_fetch (rq : Request.t) : P rq -> respects P Q (fetchWithCurl rq).
Proof.
  intros HP w w' H. unfold fetchWithCurl in H.
  assert (E : w' = set_now (now w + Z.of_nat (elapsed (curl w (now w) (trace w) rq)))
                     (set_trace (trace w ++ [rq]) w)).
  { destruct (result (curl w (now w) (trace w) rq)); now injection H as <-. }
  subst w'. split; [| split; [| split]]; simpl; try lia.
  - exists [rq]. auto.
  - exists []. rewrite app_nil_r. auto.
  - repeat split.
Qed.

Lemma respects_write (k : string) (nm : JsVal) (data : VmData.t) :
  Q {| kind := k; instanceName := nm; attributes := data |} ->
  respects P Q (writeResource k nm data).
Proof.
  intros HQ w w' H. injection H as <-.
  split; [| split; [| split]]; simpl; try lia.
  - exists []. rewrite app_nil_r. auto.
  - eexists. split; [reflexivity | auto].
  - repeat split.
Qed.

End Evolution.

Lemma evolves_mono (P P' : Request.t -> Prop) (Q Q' : ResourceVersion -> Prop)
    (w w' : World) :
  (forall rq, P rq -> P' rq) -> (forall v, Q v -> Q' v) ->
  evolves P Q w w' -> evolves P' Q' w w'.
Proof.
  intros HP HQ ((d & T & F) & (v & S & G) & N & E).
  split; [| split; [| split]]; auto.
  - exists d. split; auto. eapply Forall_impl; eauto.
  - exists v. split; auto. eapply Forall_impl; eauto.
Qed.

Lemma respects_mono {A : Type} (P P' : Request.t -> Prop)
    (Q Q' : ResourceVersion -> Prop) (m : M A) :
  (forall rq, P rq -> P' rq) -> (forall v, Q v -> Q' v) ->
  respects P Q m -> respects P' Q' m.
Proof. intros HP HQ H w w' F. eapply evolves_mono; eauto. Qed.

(** One step of a proof that a method [respects] a pair of predicates:
    follow the shape of the program. *)
Ltac respects_step :=
  lazymatch goal with
  | |- respects _ _ (bind _ _) => apply respects_bind; [| intro]
  | |- respects _ _ (ret _) => apply respects_ret
  | |- respects _ _ (throw _) => apply respects_throw
  | |- respects _ _ diverge => apply respects_diverge
  | |- respects _ _ (try_catch _ _) => apply respects_try_catch; [| intro]
  | |- respects _ _ (orThrow _ _) => apply respects_orThrow
  | |- respects _ _ (prop _ _) => apply respects_prop
  | |- respects _ _ (response_json _) => apply respects_response_json
  | |- respects _ _ (parse_json _) => apply respects_parse_json
  | |- respects _ _ Date_now => apply respects_Date_now
  | |- respects _ _ (sleep _) => apply respects_sleep
  | |- respects _ _ (Deno_readDir _) => apply respects_readDir
  | |- respects _ _ (Deno_readTextFile _) => apply respects_readTextFile
  | |- respects _ _ (if ?b then _ else _) => destruct b
  | |- respects _ _ (match ?x with _ => _ end) => destruct x
  end.

Ltac respects_auto := cbv zeta; repeat respects_step.

Lemma waitForTask_loop_respects (fuel : nat) (rq : Request.t) (n : Z) :
  respects (eq rq) no_version (waitForTask_loop fuel rq n).
Proof.
  revert n. induction fuel as [| fuel IH]; intros n; simpl.
  - apply respects_diverge.
  - respects_auto; auto. now apply respects_fetch.
Qed.

Lemma cachedAuth_respects (context : Context.t) (opts : AuthOpts.t) :
  respects no_request no_version (cachedAuth context opts).
Proof.
  unfold cachedAuth. respects_auto.
  all: try apply (respects_pure _ _ (fun w => Date_parse w _)).
Qed.

Lemma passwordAuth_respects (g : GlobalArgs.t) :
  respects (eq (ticket_request g)) no_version (passwordAuth g).
Proof.
  unfold passwordAuth. respects_auto. now apply respects_fetch.
Qed.

Lemma resolveAuth_respects (g : GlobalArgs.t) (context : Context.t) (opts : AuthOpts.t) :
  respects (eq (ticket_request g)) no_version (resolveAuth g context opts).
Proof.
  unfold resolveAuth. respects_auto.
  all: try apply passwordAuth_respects.
  eapply respects_mono; [| | apply cachedAuth_respects]; intros ? [].
Qed.

Lemma pollAgent_respects (rq : Request.t) :
  respects (eq rq) no_version (pollAgent rq).
Proof. unfold pollAgent. respects_auto. now apply respects_fetch. Qed.

Lemma getVmIpWithRetry_loop_respects (fuel : nat) (rq : Request.t) (deadline pollInterval : Z) :
  respects (eq rq) no_version (getVmIpWithRetry_loop fuel rq deadline pollInterval).
Proof.
  induction fuel as [| fuel IH]; simpl; respects_auto; auto.
  all: apply pollAgent_respects.
Qed.

Lemma resolveVm_respects (apiUrl node vmName : string) (ticket csrfToken : JsVal)
    (skipTlsVerify : option bool) :
  respects (eq (list_request apiUrl node ticket csrfToken skipTlsVerify)) no_version
    (resolveVm apiUrl node vmName ticket csrfToken skipTlsVerify).
Proof. unfold resolveVm. respects_auto. now apply respects_fetch. Qed.

(* ===================================================================== *)
(** ** What a run may return *)
(* ===================================================================== *)

Lemma yields_ret {A : Type} (R : A -> Prop) (a : A) : R a -> yields R (ret a).
Proof. intros H w a' w' E. injection E as <- _. exact H. Qed.

Lemma yields_throw {A : Type} (R : A -> Prop) (e : JsError) : yields R (throw e).
Proof. intros w a w' E. discriminate. Qed.

Lemma yields_bind {A B : Type} (R : B -> Prop) (m : M A) (k : A -> M B) :
  (forall a, yields R (k a)) -> yields R (bind m k).
Proof.
  intros Hk w b w' E. unfold bind in E.
  destruct (m w) as [a w1 | |] eqn:Em; try discriminate.
  eapply Hk; eauto.
Qed.

Lemma yields_try_catch {A : Type} (R : A -> Prop) (m : M A) (h : JsError -> M A) :
  yields R m -> (forall e, yields R (h e)) -> yields R (try_catch m h).
Proof.
  intros Hm Hh w a w' E. unfold try_catch in E.
  destruct (m w) as [a1 w1 | e w1 |] eqn:Em; try discriminate.
  - injection E as <- <-. eapply Hm; eauto.
  - eapply Hh; eauto.
Qed.

Ltac yields_step :=
  lazymatch goal with
  | |- yields _ (bind _ _) => apply yields_bind; intro
  | |- yields _ (ret _) => apply yields_ret
  | |- yields _ (throw _) => apply yields_throw
  | |- yields _ (try_catch _ _) => apply yields_try_catch; [| intro]
  | |- yields _ (if ?b then _ else _) => destruct b
  | |- yields _ (match ?x with _ => _ end) => destruct x
  end.

Ltac yields_auto := cbv zeta; repeat yields_step.

(* ===================================================================== *)
(** ** [resolveAuth] *)
(* ===================================================================== *)

Lemma cachedAuth_yields (context : Context.t) (opts : AuthOpts.t) :
  yields from_cache (cachedAuth context opts).
Proof. unfold cachedAuth. yields_auto; simpl; auto. Qed.

Lemma passwordAuth_yields (g : GlobalArgs.t) : yields from_password (passwordAuth g).
Proof. unfold passwordAuth. yields_auto; split; reflexivity. Qed.

(** Steps 2 and 3 never look at the explicit session fields. *)
Lemma passwordAuth_without_override (g : GlobalArgs.t) :
  passwordAuth (without_override g) = passwordAuth g.
Proof. reflexivity. Qed.

(** C3. With no usable explicit ticket-and-CSRF pair and [skipCache] unset,
    a cached session whose latest version is younger than the two-hour TTL
    is returned as it is, with source [cache]; the world is the one the call
    began in, so nothing was sent to the ticket endpoint or anywhere else. *)
Theorem C3_fresh_cache_is_reused :
  forall (g : GlobalArgs.t) (context : Context.t) (opts : AuthOpts.t) (w : World)
         (listing : list DirEntry) (metaText createdAt rawText : string)
         (created : Z) (cached : JsVal),
    truthy (of_opt (GlobalArgs.ticket g)) && truthy (of_opt (GlobalArgs.csrfToken g)) = false ->
    AuthOpts.skipCache opts = false ->
    readDir w (authDir_of context opts) = Some listing ->
    filter isDirectory listing <> [] ->
    readTextFile w
      (metaPath_of (authDir_of context opts)
         (show_max (Math_max (dir_versions (filter isDirectory listing)))))
      = Some metaText ->
    match_createdAt metaText = Some createdAt ->
    Date_parse w createdAt = Some created ->
    now w - created < AUTH_TTL_MS ->
    readTextFile w
      (rawPath_of (authDir_of context opts)
         (show_max (Math_max (dir_versions (filter isDirectory listing)))))
      = Some rawText ->
    JSON_parse w rawText = Some cached ->
    cached <> JNull -> cached <> JUndef ->
    resolveAuth g context opts w
    = Ok (Auth.mk (opt_get cached "ticket") (opt_get cached "csrfToken") None "cache" false) w.
Proof.
  intros g context opts w listing metaText createdAt rawText created cached
         Hexplicit Hskip Hdir Hdirs Hmeta Hmatch Hdate Hage Hraw Hjson Hnull Hundef.
  unfold resolveAuth. rewrite Hexplicit, Hskip. cbn [negb].
  assert (Hcache : cachedAuth context opts w
                   = Ok (Some (Auth.mk (opt_get cached "ticket") (opt_get cached "csrfToken")
                                 None "cache" false)) w);
    [| now rewrite (bind_Ok _ _ _ _ _ (try_catch_Ok _ _ _ _ _ Hcache))].
  unfold cachedAuth. cbv zeta.
  erewrite bind_Ok by (unfold Deno_readDir; rewrite Hdir; reflexivity).
  replace (0 <? Z.of_nat (List.length (filter isDirectory listing))) with true
    by (destruct (filter isDirectory listing); [congruence | reflexivity]).
  erewrite bind_Ok by (unfold Deno_readTextFile; rewrite Hmeta; reflexivity).
  rewrite Hmatch.
  erewrite bind_Ok by (rewrite Hdate; reflexivity).
  erewrite bind_Ok by reflexivity.
  replace (now w - created <? AUTH_TTL_MS) with true by (symmetry; apply Z.ltb_lt; exact Hage).
  erewrite bind_Ok by (unfold Deno_readTextFile; rewrite Hraw; reflexivity).
  erewrite bind_Ok by (unfold parse_json; rewrite Hjson; reflexivity).
  assert (Hget : forall k, prop cached k w = Ok (opt_get cached k) w).
  { intros k. unfold prop, opt_get. destruct cached; try congruence; reflexivity. }
  erewrite bind_Ok by apply Hget.
  erewrite bind_Ok by apply Hget.
  reflexivity.
Qed.

Lemma C3_fresh_cache_is_reused_witness :
  resolveAuth Fixture.cachedArgs Fixture.cachedContext authOpts Fixture.cachedWorld
  = Ok (Auth.mk (JStr "T12") (JStr "C12") None "cache" false) Fixture.cachedWorld.
Proof.
  apply (C3_fresh_cache_is_reused Fixture.cachedArgs Fixture.cachedContext authOpts
           Fixture.cachedWorld
           [ {| name := "3"; isDirectory := true |};
             {| name := "12"; isDirectory := true |};
             {| name := "notes.txt"; isDirectory := false |} ]
           "version: 12 createdAt: '2026-02-18T10:00:00Z' ttl: 2h"
           "2026-02-18T10:00:00Z" "cached-session-12" (1000000 - 3600000)
           (JObj [("ticket", JStr "T12"); ("csrfToken", JStr "C12")]));
    try reflexivity; try discriminate.
Defined.

(** C9. A ticket without a CSRF token, or a CSRF token without a ticket, is
    ignored: the call behaves exactly as the call with neither of them, so
    the lone credential is used nowhere and no error is raised on its
    account; a session it returns comes from the cache or from the password
    exchange. *)
Theorem C9_partial_override_is_ignored :
  forall (g : GlobalArgs.t) (context : Context.t) (opts : AuthOpts.t) (w : World),
    GlobalArgs.ticket g = None \/ GlobalArgs.csrfToken g = None ->
    resolveAuth g context opts w = resolveAuth (without_override g) context opts w
    /\ forall a w', resolveAuth g context opts w = Ok a w' ->
         Auth.source a = "cache" \/ Auth.source a = "password".
Proof.
  intros g context opts w Hpartial.
  assert (Hskip : truthy (of_opt (GlobalArgs.ticket g))
                  && truthy (of_opt (GlobalArgs.csrfToken g)) = false).
  { destruct Hpartial as [-> | ->]; simpl; auto using andb_false_r. }
  split.
  - unfold resolveAuth. rewrite Hskip. reflexivity.
  - intros a w' E. unfold resolveAuth in E. rewrite Hskip in E.
    unfold bind in E.
    destruct (AuthOpts.skipCache opts); cbn [negb] in E.
    + right. eapply passwordAuth_yields. exact E.
    + unfold try_catch in E.
      destruct (cachedAuth context opts w) as [o w1 | e w1 |] eqn:Ec; try discriminate.
      * pose proof (cachedAuth_yields _ _ _ _ _ Ec) as Ho.
        destruct o as [a1 |].
        -- injection E as <- _. left. apply Ho.
        -- right. eapply passwordAuth_yields. exact E.
      * right. eapply passwordAuth_yields. exact E.
Qed.

Lemma C9_partial_override_is_ignored_witness :
  resolveAuth Fixture.partialArgs Fixture.partialContext authOpts
    (Fixture.world Fixture.healthy)
  = resolveAuth (without_override Fixture.partialArgs) Fixture.partialContext authOpts
      (Fixture.world Fixture.healthy).
Proof.
  apply (C9_partial_override_is_ignored Fixture.partialArgs Fixture.partialContext authOpts
           (Fixture.world Fixture.healthy)).
  right. reflexivity.
Defined.

(* ===================================================================== *)
(** ** Loopback addresses *)
(* ===================================================================== *)

Lemma digit_of_inv (c : ascii) (d : Z) :
  digit_of c = Some d -> 0 <= d <= 9 /\ c = ascii_of_nat (Z.to_nat d + 48).
Proof.
  unfold digit_of.
  destruct (Nat.leb 48 (nat_of_ascii c) && Nat.leb (nat_of_ascii c) 57)%bool eqn:E;
    [| discriminate].
  apply andb_true_iff in E. destruct E as [E1 E2].
  apply Nat.leb_le in E1. apply Nat.leb_le in E2.
  intros H. injection H as <-. split; [lia |].
  rewrite Nat2Z.id.
  replace (nat_of_ascii c - 48 + 48)%nat with (nat_of_ascii c) by lia.
  symmetry. apply ascii_nat_embedding.
Qed.

Lemma chars_inj (s : string) (l : list ascii) :
  chars s = l -> s = string_of_list_ascii l.
Proof. intros <-. unfold chars. symmetry. apply string_of_list_ascii_of_string. Qed.

Lemma octet_127 (s : string) : octet s = Some 127 -> s = "127".
Proof.
  unfold octet. destruct (digits_of (chars s)) as [ds |] eqn:E; [| discriminate].
  destruct ds as [| d1 [| d2 [| d3 [| d4 ds]]]]; try discriminate.
  - intros H. injection H as ->.
    destruct (chars s) as [| c1 l]; simpl in E; [discriminate |].
    destruct (digit_of c1) eqn:D; [| discriminate].
    destruct (digits_of l); [| discriminate]. injection E as E _. subst.
    apply digit_of_inv in D. lia.
  - destruct (d1 =? 0); [discriminate |]. intros H.
    assert (Hv : 10 * d1 + d2 = 127) by congruence. clear H.
    destruct (chars s) as [| c1 [| c2 l]]; simpl in E; try discriminate.
    + destruct (digit_of c1); discriminate.
    + destruct (digit_of c1) eqn:D1; [| discriminate].
      destruct (digit_of c2) eqn:D2; [| discriminate].
      destruct (digits_of l); [| discriminate]. injection E as E1 E2 _. subst.
      apply digit_of_inv in D1. apply digit_of_inv in D2. lia.
  - destruct (d1 =? 0) eqn:Z1; [discriminate |].
    destruct (100 * d1 + 10 * d2 + d3 <=? 255); [| discriminate].
    intros H. assert (Hv : 100 * d1 + 10 * d2 + d3 = 127) by congruence. clear H.
    destruct (chars s) as [| c1 [| c2 [| c3 l]]] eqn:C; simpl in E; try discriminate.
    + destruct (digit_of c1); discriminate.
    + destruct (digit_of c1); [| discriminate]. destruct (digit_of c2); discriminate.
    + destruct (digit_of c1) eqn:D1; [| discriminate].
      destruct (digit_of c2) eqn:D2; [| discriminate].
      destruct (digit_of c3) eqn:D3; [| discriminate].
      destruct l as [| c4 l]; simpl in E.
      * injection E as E1 E2 E3. subst.
        apply digit_of_inv in D1. apply digit_of_inv in D2. apply digit_of_inv in D3.
        destruct D1 as [B1 ->], D2 as [B2 ->], D3 as [B3 ->].
        assert (d1 = 1 /\ d2 = 2 /\ d3 = 7) as (-> & -> & ->) by lia.
        apply chars_inj in C. exact C.
      * destruct (digit_of c4); [| discriminate].
        destruct (digits_of l); discriminate.
Qed.

Lemma split_on_prefix (sep : ascii) (s a b : string) (rest : list string) :
  split_on sep s = a :: b :: rest ->
  String.prefix (a ++ String sep EmptyString)%string s = true.
Proof.
  revert a. induction s as [| c s IH]; intros a; simpl.
  - discriminate.
  - destruct (Ascii.eqb c sep) eqn:E.
    + apply Ascii.eqb_eq in E. subst c. intros H. injection H as <- _.
      simpl. destruct (ascii_dec sep sep); [now destruct s | congruence].
    + destruct (split_on sep s) as [| h t] eqn:S.
      * discriminate.
      * intros H. injection H as <- ->. simpl.
        destruct (ascii_dec c c); [| congruence]. apply IH. reflexivity.
Qed.

(** An address the method's test lets through is outside 127.0.0.0/8. *)
Lemma not_loopback (address : string) :
  startsWith address "127." = false -> in_loopback_range address = false.
Proof.
  intros H. destruct (in_loopback_range address) eqn:L; [| reflexivity].
  exfalso. unfold in_loopback_range, parse_ipv4 in L.
  destruct (split_on "." address) as [| a [| b [| c [| d [| ? ?]]]]] eqn:S;
    try discriminate.
  destruct (octet a) as [x |] eqn:Oa; [| discriminate].
  destruct (octet b); [| discriminate].
  destruct (octet c); [| discriminate].
  destruct (octet d); [| discriminate].
  apply Z.eqb_eq in L. subst x. apply octet_127 in Oa. subst a.
  apply split_on_prefix in S. unfold startsWith in H. simpl in S. congruence.
Qed.

(* ===================================================================== *)
(** ** Scanning one guest-agent report *)
(* ===================================================================== *)

Lemma is_str_true (v : JsVal) (lit : string) : is_str v lit = true -> v = JStr lit.
Proof.
  destruct v; simpl; try discriminate. intros H. apply String.eqb_eq in H. now subst.
Qed.

Lemma is_str_false (v : JsVal) (lit : string) : is_str v lit = false -> v <> JStr lit.
Proof. intros H ->. simpl in H. rewrite String.eqb_refl in H. discriminate. Qed.

Lemma opt_get_get (v : JsVal) (k : string) (x : JsVal) :
  get v k <> None -> opt_get v k = x -> get v k = Some x.
Proof. unfold opt_get. destruct (get v k); congruence. Qed.

(** On one entry: what the loop body of [scanIps] decides. *)
Lemma scanIps_cons (ip : JsVal) (rest : list JsVal) :
  (exists a, offers ip a /\ scanIps (ip :: rest) = Found a)
  \/ (offers_nothing ip /\ scanIps (ip :: rest) = scanIps rest)
  \/ (offers_nothing ip /\ scanIps (ip :: rest) = ScanThrows).
Proof.
  simpl. destruct (get ip "ip-address-type") as [ty |] eqn:T.
  - destruct (is_str ty "ipv4") eqn:I.
    + apply is_str_true in I. subst ty.
      destruct (opt_get ip "ip-address") as [ | | | | |a| | ] eqn:A.
      all: try (right; right; split; [| reflexivity];
                intros a' (_ & G & _); unfold opt_get in A; rewrite G in A; discriminate).
      assert (G : get ip "ip-address" = Some (JStr a)).
      { apply opt_get_get; auto. destruct ip; simpl in *; congruence. }
      destruct (startsWith a "127.") eqn:S; cbn [negb].
      * right; left. split; [| reflexivity].
        intros a' (_ & G' & S'). congruence.
      * left. exists a. repeat split; auto.
    + right; left. split; [| reflexivity].
      intros a' (G & _). apply is_str_false in I. congruence.
  - right; right. split; [| reflexivity]. intros a' (G & _). congruence.
Qed.

Lemma scanIps_Found (ips : list JsVal) (a : string) :
  scanIps ips = Found a ->
  exists ipre ip ipost,
    ips = ipre ++ ip :: ipost /\ Forall offers_nothing ipre /\ offers ip a.
Proof.
  induction ips as [| ip rest IH]; [discriminate |].
  destruct (scanIps_cons ip rest) as [(a' & O & E) | [(N & E) | (N & E)]];
    rewrite E; intros H.
  - injection H as <-. exists [], ip, rest. auto.
  - destruct (IH H) as (ipre & ip' & ipost & -> & F & O).
    exists (ip :: ipre), ip', ipost. auto.
  - discriminate.
Qed.

Lemma scanIps_NotFound (ips : list JsVal) :
  scanIps ips = NotFound -> Forall offers_nothing ips.
Proof.
  induction ips as [| ip rest IH]; [constructor |].
  destruct (scanIps_cons ip rest) as [(a' & O & E) | [(N & E) | (N & E)]];
    rewrite E; intros H; try discriminate.
  constructor; auto.
Qed.

Lemma scanInterfaces_Found (interfaces : list JsVal) (a : string) :
  scanInterfaces interfaces = Found a -> first_offered interfaces a.
Proof.
  induction interfaces as [| iface rest IH]; [discriminate |].
  simpl. destruct (get iface "name") as [nm |] eqn:N; [| discriminate].
  destruct (is_str nm "lo") eqn:L.
  - apply is_str_true in L. subst nm. intros H.
    destruct (IH H) as (pre & i & post & ipre & ip & ipost & -> & F & R).
    exists (iface :: pre), i, post, ipre, ip, ipost.
    split; [reflexivity |]. split; [| exact R].
    constructor; auto. now left.
  - apply is_str_false in L.
    fold (addresses_of iface).
    destruct (addresses_of iface) as [ips |] eqn:A; [| discriminate].
    destruct (scanIps ips) as [a' | |] eqn:S; intros H.
    + injection H as ->.
      destruct (scanIps_Found _ _ S) as (ipre & ip & ipost & -> & F & O).
      exists [], iface, rest, ipre, ip, ipost.
      split; [reflexivity |]. split; [constructor |].
      split; [congruence |]. split; [congruence |]. auto.
    + destruct (IH H) as (pre & i & post & ipre & ip & ipost & -> & F & R).
      exists (iface :: pre), i, post, ipre, ip, ipost.
      split; [reflexivity |]. split; [| exact R].
      constructor; auto. right. exists ips. split; auto.
      now apply scanIps_NotFound.
    + discriminate.
Qed.

(* ===================================================================== *)
(** ** [getVmIpWithRetry] *)
(* ===================================================================== *)

(** One pass through the [try] block, errors swallowed: it always comes
    back, and an address it returns is the first one offered in the reply
    the hypervisor gave to this very request. *)
Lemma poll_round (rq : Request.t) (w : World) :
  exists found w',
    try_catch (pollAgent rq) (fun _ => ret None) w = Ok found w'
    /\ evolves (eq rq) no_version w w'
    /\ forall a, found = Some a ->
         exists resp ifaces,
           result (curl w (now w) (trace w) rq) = CurlOutput resp
           /\ reported_interfaces resp = Some ifaces
           /\ first_offered ifaces a.
Proof.
  assert (R : respects (eq rq) no_version (try_catch (pollAgent rq) (fun _ => ret None))).
  { apply respects_try_catch; [apply pollAgent_respects | intro; apply respects_ret]. }
  enough (H : exists found w',
             try_catch (pollAgent rq) (fun _ => ret None) w = Ok found w'
             /\ forall a, found = Some a ->
                  exists resp ifaces,
                    result (curl w (now w) (trace w) rq) = CurlOutput resp
                    /\ reported_interfaces resp = Some ifaces
                    /\ first_offered ifaces a).
  { destruct H as (found & w' & E & H). exists found, w'.
    split; [exact E |]. split; [| exact H]. apply R. now rewrite E. }
  unfold try_catch, pollAgent, bind, fetchWithCurl.
  destruct (result (curl w (now w) (trace w) rq)) as [code err | resp] eqn:C.
  { do 2 eexists. split; [reflexivity | discriminate]. }
  destruct (Response.ok resp) eqn:Hok.
  2:{ do 2 eexists. split; [reflexivity | discriminate]. }
  unfold response_json, prop.
  destruct (Response.json resp) as [netResult |] eqn:Hjson; cbn [orThrow throw ret].
  2:{ do 2 eexists. split; [reflexivity | discriminate]. }
  destruct (get netResult "data") as [data |] eqn:Hdata; cbn [orThrow throw ret].
  2:{ do 2 eexists. split; [reflexivity | discriminate]. }
  destruct (iterate (js_or (opt_get data "result") (JArr []))) as [ifaces |] eqn:Hit;
    cbn [orThrow throw ret].
  2:{ do 2 eexists. split; [reflexivity | discriminate]. }
  destruct (scanInterfaces ifaces) as [a | |] eqn:S.
  - do 2 eexists. split; [reflexivity |].
    intros a' E. injection E as <-.
    exists resp, ifaces. split; [reflexivity |].
    split; [| now apply scanInterfaces_Found].
    unfold reported_interfaces. now rewrite Hok, Hjson, Hdata.
  - do 2 eexists. split; [reflexivity | discriminate].
  - do 2 eexists. split; [reflexivity | discriminate].
Qed.

Lemma evolves_curl (P : Request.t -> Prop) (Q : ResourceVersion -> Prop) (w w' : World) :
  evolves P Q w w' -> curl w' = curl w.
Proof. intros (_ & _ & _ & E & _). exact E. Qed.

Lemma evolves_now (P : Request.t -> Prop) (Q : ResourceVersion -> Prop) (w w' : World) :
  evolves P Q w w' -> now w <= now w'.
Proof. intros (_ & _ & N & _). exact N. Qed.

Lemma loop_outcome (fuel : nat) (rq : Request.t) (deadline pollInterval : Z) (w : World) :
  match getVmIpWithRetry_loop fuel rq deadline pollInterval w with
  | Ok (Some a) w' => answered w rq a
  | Ok None w' => deadline <= now w'
  | Throw _ _ => False
  | Diverge => True
  end.
Proof.
  revert w. induction fuel as [| fuel IH]; intros w; simpl; unfold bind, Date_now.
  - destruct (now w <? deadline) eqn:T; simpl; auto.
    apply Z.ltb_ge in T. exact T.
  - destruct (now w <? deadline) eqn:T.
    2:{ simpl. apply Z.ltb_ge in T. exact T. }
    destruct (poll_round rq w) as (found & w1 & -> & Ev & Hfound).
    destruct found as [a |].
    + simpl. destruct (Hfound a eq_refl) as (resp & ifaces & C & R & F).
      exists (now w), (trace w), resp, ifaces. auto.
    + simpl.
      specialize (IH (set_now (now w1 + Z.max 0 (pollInterval * 1000)) w1)).
      destruct (getVmIpWithRetry_loop fuel rq deadline pollInterval
                  (set_now (now w1 + Z.max 0 (pollInterval * 1000)) w1))
        as [[a |] w2 | e w2 |]; auto.
      destruct IH as (t & seen & resp & ifaces & C & R & F).
      exists t, seen, resp, ifaces. simpl in C.
      rewrite (evolves_curl _ _ _ _ Ev) in C. auto.
Qed.

(** With a positive poll interval the loop ends within the rounds the
    window has room for. *)
Lemma loop_total (fuel : nat) (rq : Request.t) (deadline pollInterval : Z) (w : World) :
  0 < pollInterval ->
  deadline - now w <= Z.of_nat fuel * (pollInterval * 1000) ->
  exists r w', getVmIpWithRetry_loop fuel rq deadline pollInterval w = Ok r w'.
Proof.
  intros Hpos. revert w. induction fuel as [| fuel IH]; intros w Hfuel;
    simpl; unfold bind, Date_now.
  - replace (now w <? deadline) with false by (symmetry; apply Z.ltb_ge; lia).
    simpl. eauto.
  - destruct (now w <? deadline) eqn:T; [| simpl; eauto].
    destruct (poll_round rq w) as (found & w1 & -> & Ev & _).
    destruct found as [a |]; [simpl; eauto |].
    simpl. apply IH. simpl.
    pose proof (evolves_now _ _ _ _ Ev). lia.
Qed.

Lemma rounds_cover (window interval : Z) :
  0 < interval -> window <= Z.of_nat (rounds window interval) * interval.
Proof.
  intros H. unfold rounds. rewrite Z2Nat.id by lia.
  pose proof (Z.div_mod (window + interval - 1) interval ltac:(lia)) as D.
  pose proof (Z.mod_pos_bound (window + interval - 1) interval H) as B.
  nia.
Qed.

(** A window of zero or fewer seconds: no round is run at all. *)
Lemma getVmIpWithRetry_no_window (fuel : nat) (apiUrl node : string)
    (vmid ticket csrfToken : JsVal) (skipTlsVerify : option bool)
    (waitSeconds pollInterval : Z) (w : World) :
  waitSeconds <= 0 ->
  getVmIpWithRetry fuel apiUrl node vmid ticket csrfToken skipTlsVerify
    waitSeconds pollInterval w = Ok None w.
Proof.
  intros H. unfold getVmIpWithRetry, bind, Date_now.
  destruct fuel; simpl; unfold bind, Date_now;
    replace (now w <? now w + waitSeconds * 1000) with false
      by (symmetry; apply Z.ltb_ge; lia);
    reflexivity.
Qed.

Lemma getVmIpWithRetry_respects (fuel : nat) (apiUrl node : string)
    (vmid ticket csrfToken : JsVal) (skipTlsVerify : option bool)
    (waitSeconds pollInterval : Z) :
  respects (eq (agent_request apiUrl node vmid ticket csrfToken skipTlsVerify)) no_version
    (getVmIpWithRetry fuel apiUrl node vmid ticket csrfToken skipTlsVerify
       waitSeconds pollInterval).
Proof.
  unfold getVmIpWithRetry. respects_auto. apply getVmIpWithRetry_loop_respects.
Qed.

Lemma getVmIpWithRetry_returns (fuel : nat) (apiUrl node : string)
    (vmid ticket csrfToken : JsVal) (skipTlsVerify : option bool)
    (waitSeconds pollInterval : Z) (w : World) :
  0 < pollInterval ->
  (rounds waitSeconds pollInterval <= fuel)%nat ->
  exists r w',
    getVmIpWithRetry fuel apiUrl node vmid ticket csrfToken skipTlsVerify
      waitSeconds pollInterval w = Ok r w'.
Proof.
  intros Hpos Hfuel. unfold getVmIpWithRetry, bind, Date_now.
  apply loop_total; [exact Hpos |].
  pose proof (rounds_cover waitSeconds pollInterval Hpos). nia.
Qed.

(** C7. Whatever the guest agent answers, an address that IP discovery
    returns is outside 127.0.0.0/8 and is the first IPv4 address, in the
    order of the report, that an interface not named [lo] offers in one of
    the hypervisor's answers; [null] is returned only once the wait window
    has elapsed; discovery raises nothing; and with a positive poll interval
    it does return, within the rounds the window has room for. *)
Theorem C7_discovery_skips_loopback :
  forall (fuel : nat) (apiUrl node : string) (vmid ticket csrfToken : JsVal)
         (skipTlsVerify : option bool) (waitSeconds pollInterval : Z) (w : World),
    (forall r w',
        getVmIpWithRetry fuel apiUrl node vmid ticket csrfToken skipTlsVerify
          waitSeconds pollInterval w = Ok r w' ->
        match r with
        | Some address =>
            in_loopback_range address = false
            /\ answered w (agent_request apiUrl node vmid ticket csrfToken skipTlsVerify)
                 address
        | None => now w + waitSeconds * 1000 <= now w'
        end)
    /\ (forall e w',
          getVmIpWithRetry fuel apiUrl node vmid ticket csrfToken skipTlsVerify
            waitSeconds pollInterval w <> Throw e w')
    /\ (0 < pollInterval ->
        (rounds waitSeconds pollInterval <= fuel)%nat ->
        exists r w',
          getVmIpWithRetry fuel apiUrl node vmid ticket csrfToken skipTlsVerify
            waitSeconds pollInterval w = Ok r w').
Proof.
  intros fuel apiUrl node vmid ticket csrfToken skipTlsVerify waitSeconds pollInterval w.
  unfold getVmIpWithRetry, bind, Date_now.
  pose proof (loop_outcome fuel
                (agent_request apiUrl node vmid ticket csrfToken skipTlsVerify)
                (now w + waitSeconds * 1000) pollInterval w) as L.
  split; [| split].
  - intros r w' E. rewrite E in L. destruct r as [a |]; [| exact L].
    split; [| exact L].
    destruct L as (t & seen & resp & ifaces & _ & _ & F).
    destruct F as (pre & iface & post & ipre & ip & ipost & _ & _ & _ & _ & _ & _ & O).
    apply not_loopback. apply O.
  - intros e w' E. now rewrite E in L.
  - intros Hpos Hfuel.
    exact (getVmIpWithRetry_returns fuel apiUrl node vmid ticket csrfToken skipTlsVerify
             waitSeconds pollInterval w Hpos Hfuel).
Qed.

Lemma C7_discovery_skips_loopback_witness :
  exists w',
    getVmIpWithRetry 6 "https://pve:8006" "node1" (JNum 100) (JStr "T0") (JStr "C0") None
      30 5 (Fixture.world Fixture.healthy) = Ok (Some "10.0.0.50") w'
    /\ in_loopback_range "10.0.0.50" = false
    /\ answered (Fixture.world Fixture.healthy)
         (agent_request "https://pve:8006" "node1" (JNum 100) (JStr "T0") (JStr "C0") None)
         "10.0.0.50".
Proof.
  destruct (C7_discovery_skips_loopback 6 "https://pve:8006" "node1" (JNum 100)
              (JStr "T0") (JStr "C0") None 30 5 (Fixture.world Fixture.healthy))
    as (Hsafe & _ & Htotal).
  destruct Htotal as (r & w' & E); [reflexivity | vm_compute; lia |].
  specialize (Hsafe r w' E).
  assert (Hr : r = Some "10.0.0.50").
  { vm_compute in E. injection E as E _. symmetry. exact E. }
  subst r. exists w'. split; [exact E | exact Hsafe].
Defined.

(* ===================================================================== *)
(** ** Counting start mutations *)
(* ===================================================================== *)

Lemma chars_app (a b : string) : chars (a ++ b)%string = chars a ++ chars b.
Proof. unfold chars. induction a as [| c a IH]; simpl; [| rewrite IH]; reflexivity. Qed.

Lemma ticket_request_not_start (g : GlobalArgs.t) :
  is_start_mutation (ticket_request g) = false.
Proof.
  unfold is_start_mutation, ticket_request, ticket_url, tpl, endsWith. simpl.
  rewrite chars_app, rev_app_distr. reflexivity.
Qed.

Lemma string_app_assoc (a b c : string) : ((a ++ b) ++ c = a ++ (b ++ c))%string.
Proof. induction a as [| x a IH]; simpl; [| rewrite IH]; reflexivity. Qed.

Lemma tpl_snoc (pieces : list string) (last : string) :
  tpl (pieces ++ [last]) = (tpl pieces ++ last)%string.
Proof.
  unfold tpl. induction pieces as [| x xs IH]; [reflexivity |].
  destruct xs as [| y ys]; [reflexivity |].
  change (String.concat "" ((x :: y :: ys) ++ [last]))
    with (x ++ String.concat "" ((y :: ys) ++ [last]))%string.
  rewrite IH.
  change (String.concat "" (x :: y :: ys)) with (x ++ String.concat "" (y :: ys))%string.
  now rewrite string_app_assoc.
Qed.

Lemma list_prefix_app (p l : list ascii) : list_prefix p (p ++ l) = true.
Proof. induction p as [| c p IH]; simpl; [| rewrite Ascii.eqb_refl]; auto. Qed.

Lemma endsWith_app (a suf : string) : endsWith (a ++ suf) suf = true.
Proof. unfold endsWith. rewrite chars_app, rev_app_distr. apply list_prefix_app. Qed.

(** The request [start] sends to start a VM counts as a start mutation,
    whatever the VM. *)
Lemma start_request_is_start_mutation (apiUrl node : string) (vmid ticket csrfToken : JsVal)
    (skipTlsVerify : option bool) :
  is_start_mutation (start_request apiUrl node vmid ticket csrfToken skipTlsVerify) = true.
Proof.
  unfold is_start_mutation, start_request, vm_path. cbn [Request.method Request.url].
  change [apiUrl; "/api2/json/nodes/"; node; "/qemu/"; js_to_string vmid; "/status/start"]
    with ([apiUrl; "/api2/json/nodes/"; node; "/qemu/"; js_to_string vmid]
            ++ ["/status/start"]).
  rewrite tpl_snoc, endsWith_app. reflexivity.
Qed.

Lemma count_start_app (d1 d2 : list Request.t) :
  count_start (d1 ++ d2) = (count_start d1 + count_start d2)%nat.
Proof. unfold count_start. now rewrite filter_app, length_app. Qed.

Lemma count_start_none (P : Request.t -> Prop) (delta : list Request.t) :
  (forall rq, P rq -> is_start_mutation rq = false) ->
  Forall P delta -> count_start delta = 0%nat.
Proof.
  intros HP F. unfold count_start. induction F as [| rq l H F IH]; simpl; auto.
  now rewrite (HP rq H).
Qed.

Lemma emits_respects {A : Type} (P : Request.t -> Prop) (Q : ResourceVersion -> Prop)
    (m : M A) :
  (forall rq, P rq -> is_start_mutation rq = false) -> respects P Q m -> emits 0 m.
Proof.
  intros HP R w w' F. destruct (R w w' F) as ((delta & T & Fa) & _).
  exists delta. split; auto. now rewrite (count_start_none P delta HP Fa).
Qed.

Lemma emits_bind {A B : Type} (n1 n2 : nat) (m : M A) (k : A -> M B) :
  emits n1 m -> (forall a, emits n2 (k a)) -> emits (n1 + n2) (bind m k).
Proof.
  intros Hm Hk w w' F.
  destruct (bind_final _ _ _ _ F) as [[e E] | (a & w1 & E & F1)].
  - destruct (Hm w w') as (d & T & C); [now rewrite E |].
    exists d. split; auto. lia.
  - destruct (Hm w w1) as (d1 & T1 & C1); [now rewrite E |].
    destruct (Hk a w1 w' F1) as (d2 & T2 & C2).
    exists (d1 ++ d2). rewrite T2, T1, app_assoc. split; auto.
    rewrite count_start_app. lia.
Qed.

Lemma emits_weaken {A : Type} (n n' : nat) (m : M A) :
  (n <= n')%nat -> emits n m -> emits n' m.
Proof.
  intros L H w w' F. destruct (H w w' F) as (d & T & C). exists d. split; auto. lia.
Qed.

Lemma emits_fetch (rq : Request.t) : emits 1 (fetchWithCurl rq).
Proof.
  intros w w' F.
  destruct (respects_fetch (fun _ => True) no_version rq I w w' F)
    as ((delta & T & _) & _).
  unfold fetchWithCurl in F.
  assert (E : trace w' = trace w ++ [rq]).
  { destruct (result (curl w (now w) (trace w) rq)); injection F as <-; reflexivity. }
  exists [rq]. split; auto. unfold count_start. simpl.
  destruct (is_start_mutation rq); simpl; lia.
Qed.

Lemma task_request_not_start (apiUrl node : string) (upid ticket csrfToken : JsVal)
    (skipTlsVerify : bool) (rq : Request.t) :
  task_request apiUrl node upid ticket csrfToken skipTlsVerify = rq ->
  is_start_mutation rq = false.
Proof. intros <-. reflexivity. Qed.

Lemma agent_request_not_start (apiUrl node : string) (vmid ticket csrfToken : JsVal)
    (skipTlsVerify : option bool) (rq : Request.t) :
  agent_request apiUrl node vmid ticket csrfToken skipTlsVerify = rq ->
  is_start_mutation rq = false.
Proof. intros <-. reflexivity. Qed.

Lemma list_request_not_start (apiUrl node : string) (ticket csrfToken : JsVal)
    (skipTlsVerify : option bool) (rq : Request.t) :
  list_request apiUrl node ticket csrfToken skipTlsVerify = rq ->
  is_start_mutation rq = false.
Proof. intros <-. reflexivity. Qed.

Lemma waitForTask_quiet (fuel : nat) (apiUrl node : string) (upid ticket csrfToken : JsVal)
    (skipTlsVerify : bool) :
  respects quiet no_version (waitForTask fuel apiUrl node upid ticket csrfToken skipTlsVerify).
Proof.
  eapply respects_mono; [| | apply waitForTask_loop_respects]; auto.
  apply task_request_not_start.
Qed.

Lemma getVmIpWithRetry_quiet (fuel : nat) (apiUrl node : string)
    (vmid ticket csrfToken : JsVal) (skipTlsVerify : option bool)
    (waitSeconds pollInterval : Z) :
  respects quiet no_version
    (getVmIpWithRetry fuel apiUrl node vmid ticket csrfToken skipTlsVerify
       waitSeconds pollInterval).
Proof.
  eapply respects_mono; [| | apply getVmIpWithRetry_respects]; auto.
  apply agent_request_not_start.
Qed.

Lemma resolveAuth_quiet (g : GlobalArgs.t) (context : Context.t) (opts : AuthOpts.t) :
  respects quiet no_version (resolveAuth g context opts).
Proof.
  eapply respects_mono; [| | apply resolveAuth_respects]; auto.
  intros rq <-. apply ticket_request_not_start.
Qed.

Lemma resolveVm_quiet (apiUrl node vmName : string) (ticket csrfToken : JsVal)
    (skipTlsVerify : option bool) :
  respects quiet no_version (resolveVm apiUrl node vmName ticket csrfToken skipTlsVerify).
Proof.
  eapply respects_mono; [| | apply resolveVm_respects]; auto.
  apply list_request_not_start.
Qed.

Lemma writeVm_respects (P : Request.t -> Prop) (Q : ResourceVersion -> Prop)
    (nm : JsVal) (logs : list string) (fields : string -> Z -> VmData.t) :
  (forall lg ts, Q {| kind := "vm"; instanceName := nm; attributes := fields lg ts |}) ->
  respects P Q (writeVm nm logs fields).
Proof.
  intros HQ. unfold writeVm. respects_auto. now apply respects_write.
Qed.

Lemma emits_quiet {A : Type} (Q : ResourceVersion -> Prop) (m : M A) :
  respects quiet Q m -> emits 0 m.
Proof. apply emits_respects. auto. Qed.

(** The start block issues the start mutation at most once, and not at all
    unless the VM was found stopped. *)
Lemma start_if_stopped_emits (fuel : nat) (apiUrl node : string) (vm : Vm.t)
    (ticket csrfToken : JsVal) (skipTlsVerify : option bool) (logs : list string) :
  emits (if is_str (Vm.status vm) "stopped" then 1 else 0)
    (start_if_stopped fuel apiUrl node vm ticket csrfToken skipTlsVerify logs).
Proof.
  unfold start_if_stopped. destruct (is_str (Vm.status vm) "stopped").
  - cbv zeta. apply (emits_bind 1 0); [apply emits_fetch | intro response].
    apply (emits_quiet no_version). respects_auto.
    apply waitForTask_quiet.
  - apply (emits_quiet no_version). apply respects_ret.
Qed.

(** What follows the lookup of the VM issues at most one start mutation,
    and none unless the VM was found stopped. *)
Lemma start_resolved_emits (fuel : nat) (args : StartArgs.t) (context : Context.t)
    (auth : Auth.t) (vm : Vm.t) (logs : list string) :
  emits (if is_str (Vm.status vm) "stopped" then 1 else 0)
    (start_resolved fuel args context auth vm logs).
Proof.
  unfold start_resolved. cbv zeta.
  eapply emits_weaken; [| apply emits_bind; [apply start_if_stopped_emits | intro branch]].
  2:{ apply (emits_quiet any_version). respects_auto.
      - eapply respects_mono; [| | apply getVmIpWithRetry_quiet]; auto. intros ? [].
      - apply writeVm_respects. intros; exact I. }
  lia.
Qed.

Lemma start_emits (fuel : nat) (args : StartArgs.t) (context : Context.t) :
  emits 1 (start fuel args context).
Proof.
  unfold start. cbv zeta.
  apply (emits_bind 0 1); [apply (emits_quiet no_version), resolveAuth_quiet | intro auth].
  apply (emits_bind 0 1); [apply (emits_quiet no_version), resolveVm_quiet | intro vm].
  eapply emits_weaken; [| apply start_resolved_emits].
  destruct (is_str (Vm.status vm) "stopped"); lia.
Qed.

Lemma evolves_store (P : Request.t -> Prop) (w w' : World) :
  evolves P no_version w w' -> store w' = store w.
Proof.
  intros (_ & (vs & S & F) & _). destruct vs as [| v vs].
  - now rewrite app_nil_r in S.
  - inversion F as [| ? ? []].
Qed.

Lemma evolves_trace (Q : ResourceVersion -> Prop) (w w' : World) :
  evolves no_request Q w w' -> trace w' = trace w.
Proof.
  intros ((d & T & F) & _). destruct d as [| rq d].
  - now rewrite app_nil_r in T.
  - inversion F as [| ? ? []].
Qed.

Lemma start_if_stopped_writes_nothing (fuel : nat) (apiUrl node : string) (vm : Vm.t)
    (ticket csrfToken : JsVal) (skipTlsVerify : option bool) (logs : list string) :
  respects any_request no_version
    (start_if_stopped fuel apiUrl node vm ticket csrfToken skipTlsVerify logs).
Proof.
  unfold start_if_stopped. respects_auto.
  - now apply respects_fetch.
  - eapply respects_mono; [| | apply waitForTask_quiet]; auto. intros; exact I.
Qed.

(** [start] once the VM has been looked up and the start block is done:
    the IP wait decides. *)
Lemma start_after_block (fuel : nat) (args : StartArgs.t) (context : Context.t)
    (w w1 w2 w3 w4 : World) (auth : Auth.t) (vm : Vm.t) (branch : bool * list string)
    (ip : option string) :
  let g := Context.globalArgs context in
  let waitSeconds := nullish (StartArgs.waitSeconds args) 120 in
  resolveAuth g context authOpts w = Ok auth w1 ->
  resolveVm (GlobalArgs.apiUrl g) (GlobalArgs.node g) (StartArgs.vmName args)
    (Auth.ticket auth) (Auth.csrfToken auth) (GlobalArgs.skipTlsVerify g) w1 = Ok vm w2 ->
  start_if_stopped fuel (GlobalArgs.apiUrl g) (GlobalArgs.node g) vm
    (Auth.ticket auth) (Auth.csrfToken auth) (GlobalArgs.skipTlsVerify g)
    (push (push [] (tpl ["Ensuring VM "; dq; StartArgs.vmName args; dq;
                         " is running on node "; GlobalArgs.node g]))
          (found_line (StartArgs.vmName args) vm)) w2 = Ok branch w3 ->
  getVmIpWithRetry fuel (GlobalArgs.apiUrl g) (GlobalArgs.node g) (Vm.vmid vm)
    (Auth.ticket auth) (Auth.csrfToken auth) (GlobalArgs.skipTlsVerify g)
    waitSeconds (nullish (StartArgs.pollInterval args) 5) w3 = Ok ip w4 ->
  (truthy (ip_value ip) = false ->
   start fuel args context w
   = Throw (Error (missing_ip_message (StartArgs.vmName args) (Vm.vmid vm) waitSeconds)) w4)
  /\ (truthy (ip_value ip) = true ->
      exists h lg,
        start fuel args context w
        = Ok [h]
            (set_store
               (store w4
                ++ [{| kind := "vm"; instanceName := Vm.name vm;
                       attributes :=
                         VmData.mk (Vm.vmid vm) (Vm.name vm) (JStr "running") (ip_value ip)
                           JUndef JUndef JUndef (JBool (fst branch)) lg (now w4) |}]) w4)).
Proof.
  intros g waitSeconds Ha Hv Hb Hi.
  unfold start. cbv zeta. fold g.
  rewrite (bind_Ok _ _ _ _ _ Ha), (bind_Ok _ _ _ _ _ Hv).
  unfold start_resolved. cbv zeta. fold g.
  rewrite (bind_Ok _ _ _ _ _ Hb).
  fold waitSeconds. rewrite (bind_Ok _ _ _ _ _ Hi).
  split; intros T; rewrite T; [reflexivity |].
  do 2 eexists. reflexivity.
Qed.

(** C10. With a wait window of zero or fewer seconds IP discovery returns
    [null] at once, in the world it was called in: not one guest-agent
    query is issued.  A [start] with such a window therefore never returns
    normally, and once authentication, the lookup of the VM and the start
    block are behind it, what it raises is the missing-IP error. *)
Theorem C10_empty_window_polls_nothing :
  forall (fuel : nat) (waitSeconds : Z),
    waitSeconds <= 0 ->
    (forall (apiUrl node : string) (vmid ticket csrfToken : JsVal)
            (skipTlsVerify : option bool) (pollInterval : Z) (w : World),
        getVmIpWithRetry fuel apiUrl node vmid ticket csrfToken skipTlsVerify
          waitSeconds pollInterval w = Ok None w)
    /\ (forall (vmName : string) (pollInterval : option Z) (context : Context.t)
               (w : World),
          let args := StartArgs.mk vmName (Some waitSeconds) pollInterval in
          let g := Context.globalArgs context in
          (forall hs w', start fuel args context w <> Ok hs w')
          /\ (forall auth w1 vm w2 branch w3,
                resolveAuth g context authOpts w = Ok auth w1 ->
                resolveVm (GlobalArgs.apiUrl g) (GlobalArgs.node g) vmName
                  (Auth.ticket auth) (Auth.csrfToken auth) (GlobalArgs.skipTlsVerify g) w1
                = Ok vm w2 ->
                start_if_stopped fuel (GlobalArgs.apiUrl g) (GlobalArgs.node g) vm
                  (Auth.ticket auth) (Auth.csrfToken auth) (GlobalArgs.skipTlsVerify g)
                  (push (push [] (tpl ["Ensuring VM "; dq; vmName; dq;
                                       " is running on node "; GlobalArgs.node g]))
                        (found_line vmName vm)) w2
                = Ok branch w3 ->
                start fuel args context w
                = Throw (Error (missing_ip_message vmName (Vm.vmid vm) waitSeconds)) w3)).
Proof.
  intros fuel waitSeconds Hw. split.
  - intros. now apply getVmIpWithRetry_no_window.
  - intros vmName pollInterval context w args g. split.
    + intros hs w'. unfold start, start_resolved, bind. cbv zeta.
      destruct (resolveAuth _ _ _ w) as [auth w1 | |]; try discriminate.
      destruct (resolveVm _ _ _ _ _ _ w1) as [vm w2 | |]; try discriminate.
      destruct (start_if_stopped _ _ _ _ _ _ _ _ w2) as [branch w3 | |]; try discriminate.
      cbn [StartArgs.waitSeconds args nullish].
      rewrite getVmIpWithRetry_no_window by exact Hw.
      simpl. discriminate.
    + intros auth w1 vm w2 branch w3 Ha Hv Hb.
      refine (proj1 (start_after_block fuel args context w w1 w2 w3 w3 auth vm branch None
                       Ha Hv Hb _) eq_refl).
      now apply getVmIpWithRetry_no_window.
Qed.

Lemma C10_empty_window_polls_nothing_witness :
  getVmIpWithRetry 3 "https://pve:8006" "node1" (JNum 100) (JStr "T0") (JStr "C0") None
    0 5 (Fixture.world Fixture.healthy)
  = Ok None (Fixture.world Fixture.healthy)
  /\ start 3 (Fixture.startArgs 0) Fixture.context (Fixture.world Fixture.healthy)
     = Throw (Error (missing_ip_message "alpha" (JNum 100) 0))
         (Fixture.world_after (start 3 (Fixture.startArgs 0) Fixture.context)
            (Fixture.world Fixture.healthy)).
Proof.
  destruct (C10_empty_window_polls_nothing 3 0) as (Hpoll & Hstart); [lia |].
  split; [apply Hpoll |].
  destruct (Hstart "alpha" (Some 5) Fixture.context (Fixture.world Fixture.healthy))
    as (_ & Hraise).
  eapply (Hraise (Auth.mk (JStr "T0") (JStr "C0") None "explicit" false)
            (Fixture.world Fixture.healthy)
            (Vm.mk (JNum 100) (JStr "alpha") (JStr "stopped"))
            (Fixture.world_after
               (resolveVm "https://pve:8006" "node1" "alpha" (JStr "T0") (JStr "C0") None)
               (Fixture.world Fixture.healthy))).
  - reflexivity.
  - vm_compute. reflexivity.
  - vm_compute. reflexivity.
Defined.

Example start_with_empty_window :
  exists w',
    start 10 (Fixture.startArgs 0) Fixture.context (Fixture.world Fixture.healthy)
    = Throw (Error (missing_ip_message "alpha" (JNum 100) 0)) w'
    /\ store w' = [].
Proof. eexists. split; vm_compute; reflexivity. Qed.

(** C4. A [start] issues the start mutation at most once, and only when the
    lookup reported the VM as [stopped]; a VM reported otherwise goes straight
    to the wait for the guest-agent IP.  Hence two calls in a row, the first
    returning normally and the second finding the VM no longer stopped,
    issue at most one start mutation between them.  And when the IP wait
    ends without an address, [start] raises the missing-IP error and writes
    no resource version, whether or not the VM was started. *)
Theorem C4_start_once :
  forall (fuel : nat) (args : StartArgs.t) (context : Context.t) (w : World),
    let g := Context.globalArgs context in
    let apiUrl := GlobalArgs.apiUrl g in
    let node := GlobalArgs.node g in
    let skipTlsVerify := GlobalArgs.skipTlsVerify g in
    let vmName := StartArgs.vmName args in
    let waitSeconds := nullish (StartArgs.waitSeconds args) 120 in
    let pollInterval := nullish (StartArgs.pollInterval args) 5 in
    let logs :=
      push [] (tpl ["Ensuring VM "; dq; vmName; dq; " is running on node "; node]) in
    (* one call *)
    (forall w', final_world (start fuel args context w) = Some w' ->
       exists delta,
         trace w' = trace w ++ delta
         /\ (count_start delta <= 1)%nat
         /\ (count_start delta = 1%nat ->
             exists auth w1 vm w2,
               resolveAuth g context authOpts w = Ok auth w1
               /\ resolveVm apiUrl node vmName (Auth.ticket auth) (Auth.csrfToken auth)
                    skipTlsVerify w1 = Ok vm w2
               /\ Vm.status vm = JStr "stopped"))
    (* a VM that is not stopped: no start call, the IP wait comes next *)
    /\ (forall auth w1 vm w2,
          resolveAuth g context authOpts w = Ok auth w1 ->
          resolveVm apiUrl node vmName (Auth.ticket auth) (Auth.csrfToken auth)
            skipTlsVerify w1 = Ok vm w2 ->
          Vm.status vm <> JStr "stopped" ->
          start fuel args context w
          = bind (getVmIpWithRetry fuel apiUrl node (Vm.vmid vm) (Auth.ticket auth)
                    (Auth.csrfToken auth) skipTlsVerify waitSeconds pollInterval)
              (fun ip =>
                 if truthy (ip_value ip) then
                   bind (writeVm (Vm.name vm)
                           (push (push (push (push logs (found_line vmName vm))
                                          "VM is already running")
                                    (tpl ["Waiting for guest agent IP (up to ";
                                          string_of_Z waitSeconds; "s)"]))
                              (tpl ["Got IP: "; js_to_string (ip_value ip)]))
                           (fun lg ts =>
                              VmData.mk (Vm.vmid vm) (Vm.name vm) (JStr "running")
                                (ip_value ip) JUndef JUndef JUndef (JBool false) lg ts))
                     (fun handle => ret [handle])
                 else throw (Error (missing_ip_message vmName (Vm.vmid vm) waitSeconds)))
              w2)
    (* two calls in a row *)
    /\ (forall fuel2 hs w1 w2,
          start fuel args context w = Ok hs w1 ->
          final_world (start fuel2 args context w1) = Some w2 ->
          (forall auth wa vm wb,
              resolveAuth g context authOpts w1 = Ok auth wa ->
              resolveVm apiUrl node vmName (Auth.ticket auth) (Auth.csrfToken auth)
                skipTlsVerify wa = Ok vm wb ->
              Vm.status vm <> JStr "stopped") ->
          exists delta, trace w2 = trace w ++ delta /\ (count_start delta <= 1)%nat)
    (* the IP wait ends without an address *)
    /\ (forall auth w1 vm w2 branch w3 w4,
          resolveAuth g context authOpts w = Ok auth w1 ->
          resolveVm apiUrl node vmName (Auth.ticket auth) (Auth.csrfToken auth)
            skipTlsVerify w1 = Ok vm w2 ->
          start_if_stopped fuel apiUrl node vm (Auth.ticket auth) (Auth.csrfToken auth)
            skipTlsVerify (push logs (found_line vmName vm)) w2 = Ok branch w3 ->
          getVmIpWithRetry fuel apiUrl node (Vm.vmid vm) (Auth.ticket auth)
            (Auth.csrfToken auth) skipTlsVerify waitSeconds pollInterval w3 = Ok None w4 ->
          start fuel args context w
          = Throw (Error (missing_ip_message vmName (Vm.vmid vm) waitSeconds)) w4
          /\ store w4 = store w).
Proof.
  intros fuel args context w g apiUrl node skipTlsVerify vmName waitSeconds pollInterval logs.
  assert (One : forall fuel0 w0 w',
             final_world (start fuel0 args context w0) = Some w' ->
             exists delta,
               trace w' = trace w0 ++ delta
               /\ (count_start delta <= 1)%nat
               /\ (count_start delta = 1%nat ->
                   exists auth w1 vm w2,
                     resolveAuth g context authOpts w0 = Ok auth w1
                     /\ resolveVm apiUrl node vmName (Auth.ticket auth) (Auth.csrfToken auth)
                          skipTlsVerify w1 = Ok vm w2
                     /\ Vm.status vm = JStr "stopped")).
  { intros fuel0 w0 w' F. unfold start in F. cbv zeta in F.
    fold g apiUrl node skipTlsVerify vmName in F.
    destruct (bind_final _ _ _ _ F) as [[e E] | (auth & w1 & Ea & F1)].
    { destruct (emits_quiet no_version _ (resolveAuth_quiet g context authOpts) w0 w')
        as (d & T & C); [now rewrite E |].
      exists d. split; [exact T |]. split; lia. }
    destruct (emits_quiet no_version _ (resolveAuth_quiet g context authOpts) w0 w1)
      as (d1 & T1 & C1); [now rewrite Ea |].
    destruct (bind_final _ _ _ _ F1) as [[e E] | (vm & w2 & Ev & F2)].
    { destruct (emits_quiet no_version _
                  (resolveVm_quiet apiUrl node vmName (Auth.ticket auth)
                     (Auth.csrfToken auth) skipTlsVerify) w1 w')
        as (d & T & C); [now rewrite E |].
      exists (d1 ++ d). rewrite T, T1, app_assoc, count_start_app.
      split; [reflexivity |]. split; lia. }
    destruct (emits_quiet no_version _
                (resolveVm_quiet apiUrl node vmName (Auth.ticket auth)
                   (Auth.csrfToken auth) skipTlsVerify) w1 w2)
      as (d2 & T2 & C2); [now rewrite Ev |].
    destruct (start_resolved_emits fuel0 args context auth vm _ w2 w' F2) as (d3 & T3 & C3).
    exists (d1 ++ d2 ++ d3). rewrite T3, T2, T1, !count_start_app, <- !app_assoc.
    split; [reflexivity |].
    destruct (is_str (Vm.status vm) "stopped") eqn:S.
    - split; [lia |]. intros _. exists auth, w1, vm, w2.
      repeat split; auto. now apply is_str_true.
    - split; lia. }
  split; [apply One |]. split; [| split].
  - intros auth w1 vm w2 Ha Hv Hs.
    unfold start. cbv zeta. fold g apiUrl node skipTlsVerify vmName.
    rewrite (bind_Ok _ _ _ _ _ Ha), (bind_Ok _ _ _ _ _ Hv).
    unfold start_resolved, start_if_stopped. cbv zeta.
    replace (is_str (Vm.status vm) "stopped") with false.
    2:{ destruct (is_str (Vm.status vm) "stopped") eqn:S; [| reflexivity].
        apply is_str_true in S. contradiction. }
    reflexivity.
  - intros fuel2 hs w1 w2 E1 F2 Hrun.
    destruct (One fuel w w1) as (d1 & T1 & C1 & _); [now rewrite E1 |].
    destruct (One fuel2 w1 w2 F2) as (d2 & T2 & C2 & Only).
    exists (d1 ++ d2). rewrite T2, T1, app_assoc, count_start_app.
    split; [reflexivity |].
    destruct (Nat.eq_dec (count_start d2) 1) as [Eq | Ne]; [| lia].
    destruct (Only Eq) as (auth & wa & vm & wb & Ha & Hv & Hs).
    exfalso. exact (Hrun auth wa vm wb Ha Hv Hs).
  - intros auth w1 vm w2 branch w3 w4 Ha Hv Hb Hi. split.
    + exact (proj1 (start_after_block fuel args context w w1 w2 w3 w4 auth vm branch None
                      Ha Hv Hb Hi) eq_refl).
    + pose proof (resolveAuth_respects g context authOpts w w1) as R1.
      pose proof (resolveVm_respects apiUrl node vmName (Auth.ticket auth)
                    (Auth.csrfToken auth) skipTlsVerify w1 w2) as R2.
      pose proof (start_if_stopped_writes_nothing fuel apiUrl node vm (Auth.ticket auth)
                    (Auth.csrfToken auth) skipTlsVerify (push logs (found_line vmName vm))
                    w2 w3) as R3.
      pose proof (getVmIpWithRetry_respects fuel apiUrl node (Vm.vmid vm) (Auth.ticket auth)
                    (Auth.csrfToken auth) skipTlsVerify waitSeconds pollInterval w3 w4) as R4.
      rewrite Ha in R1. rewrite Hv in R2. rewrite Hb in R3. rewrite Hi in R4.
      rewrite (evolves_store _ _ _ (R4 eq_refl)), (evolves_store _ _ _ (R3 eq_refl)),
        (evolves_store _ _ _ (R2 eq_refl)), (evolves_store _ _ _ (R1 eq_refl)).
      reflexivity.
Qed.

Lemma C4_start_once_witness :
  exists delta,
    trace Fixture.after_second_start = trace (Fixture.world Fixture.healthy) ++ delta
    /\ (count_start delta <= 1)%nat.
Proof.
  eapply (proj1 (proj2 (proj2 (C4_start_once 10 (Fixture.startArgs 30) Fixture.context
                                 (Fixture.world Fixture.healthy))))
            10%nat _ Fixture.after_first_start Fixture.after_second_start).
  - vm_compute. reflexivity.
  - vm_compute. reflexivity.
  - intros auth wa vm wb Ha Hv.
    vm_compute in Ha. injection Ha as <- <-.
    vm_compute in Hv. injection Hv as <- _.
    discriminate.
Defined.

Example two_starts_on_the_fixture :
  count_start (trace Fixture.after_second_start) = 1%nat
  /\ List.length (store Fixture.after_second_start) = 2%nat.
Proof. split; vm_compute; reflexivity. Qed.

(* ===================================================================== *)
(** ** [stop], [delete], [create]: what a task's exit status decides *)
(* ===================================================================== *)

(** Authentication and the lookup of the VM write nothing, and ask for
    nothing but a ticket and the list of VMs. *)
Lemma lookup_evolves (g : GlobalArgs.t) (context : Context.t) (vmName : string)
    (w w1 w2 : World) (auth : Auth.t) (vm : Vm.t) :
  resolveAuth g context authOpts w = Ok auth w1 ->
  resolveVm (GlobalArgs.apiUrl g) (GlobalArgs.node g) vmName (Auth.ticket auth)
    (Auth.csrfToken auth) (GlobalArgs.skipTlsVerify g) w1 = Ok vm w2 ->
  evolves (fun rq => rq = ticket_request g
                     \/ rq = list_request (GlobalArgs.apiUrl g) (GlobalArgs.node g)
                               (Auth.ticket auth) (Auth.csrfToken auth)
                               (GlobalArgs.skipTlsVerify g))
          no_version w w2.
Proof.
  intros Ha Hv.
  pose proof (resolveAuth_respects g context authOpts w w1) as R1.
  pose proof (resolveVm_respects (GlobalArgs.apiUrl g) (GlobalArgs.node g) vmName
                (Auth.ticket auth) (Auth.csrfToken auth) (GlobalArgs.skipTlsVerify g)
                w1 w2) as R2.
  rewrite Ha in R1. rewrite Hv in R2.
  eapply evolves_trans.
  - eapply evolves_mono; [| | apply (R1 eq_refl)]; auto.
  - eapply evolves_mono; [| | apply (R2 eq_refl)]; auto.
Qed.

(** C5. [stop] on a VM that the lookup reports as [stopped]: besides the
    ticket exchange of authentication (if any) and the list of VMs nothing
    is asked of the hypervisor, so no stop call and no task poll; and one
    resource version is written, with success [true], status [stopped] and
    ip [null]. *)
Theorem C5_stop_when_already_stopped :
  forall (fuel : nat) (vmName : string) (context : Context.t) (w w1 w2 : World)
         (auth : Auth.t) (vm : Vm.t),
    let g := Context.globalArgs context in
    resolveAuth g context authOpts w = Ok auth w1 ->
    resolveVm (GlobalArgs.apiUrl g) (GlobalArgs.node g) vmName (Auth.ticket auth)
      (Auth.csrfToken auth) (GlobalArgs.skipTlsVerify g) w1 = Ok vm w2 ->
    Vm.status vm = JStr "stopped" ->
    exists h lg w',
      stop fuel vmName context w = Ok [h] w'
      /\ trace w' = trace w2
      /\ (exists delta,
            trace w' = trace w ++ delta
            /\ Forall (fun rq =>
                         rq = ticket_request g
                         \/ rq = list_request (GlobalArgs.apiUrl g) (GlobalArgs.node g)
                                   (Auth.ticket auth) (Auth.csrfToken auth)
                                   (GlobalArgs.skipTlsVerify g)) delta)
      /\ store w'
         = store w
           ++ [{| kind := "vm"; instanceName := Vm.name vm;
                  attributes :=
                    VmData.mk (Vm.vmid vm) (Vm.name vm) (JStr "stopped") JNull
                      JUndef JUndef (JBool true) JUndef lg (now w2) |}].
Proof.
  intros fuel vmName context w w1 w2 auth vm g Ha Hv Hs.
  destruct (lookup_evolves g context vmName w w1 w2 auth vm Ha Hv)
    as (Tr & (vs & St & Fv) & _).
  assert (vs = []) as -> by (destruct vs as [| v vs]; [reflexivity | inversion Fv as [| ? ? []]]).
  rewrite app_nil_r in St.
  do 3 eexists.
  split.
  - unfold stop. cbv zeta. fold g.
    rewrite (bind_Ok _ _ _ _ _ Ha), (bind_Ok _ _ _ _ _ Hv).
    rewrite Hs. cbn [is_str]. rewrite String.eqb_refl.
    reflexivity.
  - simpl. split; [reflexivity |]. split; [exact Tr |].
    rewrite St. reflexivity.
Qed.

Lemma C5_stop_when_already_stopped_witness :
  exists h lg w',
    stop 0 "alpha" Fixture.context (Fixture.world Fixture.healthy) = Ok [h] w'
    /\ store w'
       = [{| kind := "vm"; instanceName := JStr "alpha";
             attributes :=
               VmData.mk (JNum 100) (JStr "alpha") (JStr "stopped") JNull
                 JUndef JUndef (JBool true) JUndef lg 1000100 |}].
Proof.
  destruct (C5_stop_when_already_stopped 0 "alpha" Fixture.context
              (Fixture.world Fixture.healthy)
              (Fixture.world Fixture.healthy)
              (Fixture.world_after
                 (resolveVm "https://pve:8006" "node1" "alpha" (JStr "T0") (JStr "C0") None)
                 (Fixture.world Fixture.healthy))
              (Auth.mk (JStr "T0") (JStr "C0") None "explicit" false)
              (Vm.mk (JNum 100) (JStr "alpha") (JStr "stopped")))
    as (h & lg & w' & E & _ & _ & S).
  - reflexivity.
  - vm_compute. reflexivity.
  - reflexivity.
  - exists h, lg, w'. split; [exact E | exact S].
Defined.

Lemma respects_store {A : Type} (P : Request.t -> Prop) (m : M A) (w w' : World) :
  respects P no_version m -> final_world (m w) = Some w' -> store w' = store w.
Proof. intros R F. eapply evolves_store. apply R. exact F. Qed.

Lemma fetch_store (rq : Request.t) (w w' : World) :
  final_world (fetchWithCurl rq w) = Some w' -> store w' = store w.
Proof. apply (respects_store any_request). now apply respects_fetch. Qed.

Lemma accepted_store (rq : Request.t) (w w' : World) (data : JsVal) :
  accepted rq w data w' -> store w' = store w.
Proof. intros (r & j & F & _). apply (fetch_store rq). now rewrite F. Qed.

Lemma waitForTask_store (fuel : nat) (apiUrl node : string) (upid ticket csrfToken : JsVal)
    (skipTlsVerify : bool) (w w' : World) :
  final_world (waitForTask fuel apiUrl node upid ticket csrfToken skipTlsVerify w) = Some w' ->
  store w' = store w.
Proof. eapply respects_store. apply waitForTask_loop_respects. Qed.

Lemma resolveAuth_store (g : GlobalArgs.t) (context : Context.t) (opts : AuthOpts.t)
    (w w' : World) :
  final_world (resolveAuth g context opts w) = Some w' -> store w' = store w.
Proof. eapply respects_store. apply resolveAuth_respects. Qed.

Lemma resolveVm_store (apiUrl node vmName : string) (ticket csrfToken : JsVal)
    (skipTlsVerify : option bool) (w w' : World) :
  final_world (resolveVm apiUrl node vmName ticket csrfToken skipTlsVerify w) = Some w' ->
  store w' = store w.
Proof. eapply respects_store. apply resolveVm_respects. Qed.

Lemma fetch_Ok (rq : Request.t) (w w' : World) (r : Response.t) :
  fetchWithCurl rq w = Ok r w' -> trace w' = trace w ++ [rq] /\ store w' = store w.
Proof.
  unfold fetchWithCurl. destruct (result (curl w (now w) (trace w) rq)); [discriminate |].
  intros H. injection H as _ <-. simpl. auto.
Qed.

Lemma waitForTask_trace (fuel : nat) (apiUrl node : string) (upid ticket csrfToken : JsVal)
    (skipTlsVerify : bool) (w w' : World) :
  final_world (waitForTask fuel apiUrl node upid ticket csrfToken skipTlsVerify w) = Some w' ->
  exists delta, trace w' = trace w ++ delta.
Proof.
  intros F. destruct (waitForTask_loop_respects _ _ _ w w' F) as ((d & T & _) & _). eauto.
Qed.

(** Running the statements that send a request and read the task id out
    of an accepted answer. *)
Lemma run_accepted {B : Type} (rq : Request.t) (w w' : World) (data : JsVal)
    (refused : Response.t -> M B) (k : JsVal -> M B) :
  accepted rq w data w' ->
  bind (fetchWithCurl rq)
    (fun response =>
       if negb (Response.ok response) then refused response
       else bind (response_json response) (fun body => bind (prop body "data") k)) w
  = k data w'.
Proof.
  intros (r & j & F & Hok & Hj & Hd).
  rewrite (bind_Ok _ _ _ _ _ F). rewrite Hok. cbn [negb].
  unfold response_json, prop. rewrite Hj. cbn [orThrow].
  unfold bind at 1. cbn [ret]. rewrite Hd. reflexivity.
Qed.

Lemma delete_stop_first_respects (fuel : nat) (apiUrl node : string) (vm : Vm.t)
    (ticket csrfToken : JsVal) (skipTlsVerify : option bool) (logs : list string) :
  respects any_request no_version
    (delete_stop_first fuel apiUrl node vm ticket csrfToken skipTlsVerify logs).
Proof.
  unfold delete_stop_first, delete_stop_phase. respects_auto.
  - now apply respects_fetch.
  - eapply respects_mono; [| | apply waitForTask_loop_respects]; auto. intros; exact I.
Qed.

(** [create]: a failed creation task raises, and nothing is written. *)
Lemma create_task_failure (fuel : nat) (args : CreateArgs.t) (context : Context.t)
    (w w1 w2 w3 w4 : World) (auth : Auth.t) (idText upid : JsVal) (tr : TaskResult.t) :
  let g := Context.globalArgs context in
  let apiUrl := GlobalArgs.apiUrl g in
  let node := GlobalArgs.node g in
  let skipTlsVerify := GlobalArgs.skipTlsVerify g in
  resolveAuth g context authOpts w = Ok auth w1 ->
  accepted (nextid_request apiUrl (Auth.ticket auth) (Auth.csrfToken auth) skipTlsVerify)
    w1 idText w2 ->
  btoa (CreateArgs.vmName args) <> None ->
  accepted (create_request apiUrl node (Auth.ticket auth) (Auth.csrfToken auth) skipTlsVerify
              (create_params args (vmid_of idText))) w2 upid w3 ->
  waitForTask fuel apiUrl node upid (Auth.ticket auth) (Auth.csrfToken auth)
    (nullish skipTlsVerify true) w3 = Ok tr w4 ->
  TaskResult.success tr = false ->
  create fuel args context w
  = Throw (Error (tpl ["VM creation failed: "; js_to_string (TaskResult.exitstatus tr)])) w4
  /\ store w4 = store w.
Proof.
  intros g apiUrl node skipTlsVerify Ha Hn Hb Hc Hw Hf. split.
  - unfold create. cbv zeta. fold g apiUrl node skipTlsVerify.
    rewrite (bind_Ok _ _ _ _ _ Ha).
    rewrite (run_accepted _ _ _ _ _ _ Hn).
    destruct (btoa (CreateArgs.vmName args)) as [serial |] eqn:B; [| congruence].
    cbn [orThrow]. unfold bind at 1, ret at 1.
    rewrite (run_accepted _ _ _ _ _ _ Hc).
    rewrite (bind_Ok _ _ _ _ _ Hw). rewrite Hf. reflexivity.
  - rewrite (waitForTask_store _ _ _ _ _ _ _ w3 w4) by (now rewrite Hw).
    rewrite (accepted_store _ _ _ _ Hc), (accepted_store _ _ _ _ Hn).
    apply (resolveAuth_store g context authOpts). now rewrite Ha.
Qed.

(** [start]: a failed start task raises, and nothing is written. *)
Lemma start_task_failure (fuel : nat) (args : StartArgs.t) (context : Context.t)
    (w w1 w2 w3 w4 : World) (auth : Auth.t) (vm : Vm.t) (upid : JsVal) (tr : TaskResult.t) :
  let g := Context.globalArgs context in
  let apiUrl := GlobalArgs.apiUrl g in
  let node := GlobalArgs.node g in
  let skipTlsVerify := GlobalArgs.skipTlsVerify g in
  resolveAuth g context authOpts w = Ok auth w1 ->
  resolveVm apiUrl node (StartArgs.vmName args) (Auth.ticket auth) (Auth.csrfToken auth)
    skipTlsVerify w1 = Ok vm w2 ->
  Vm.status vm = JStr "stopped" ->
  accepted (start_request apiUrl node (Vm.vmid vm) (Auth.ticket auth) (Auth.csrfToken auth)
              skipTlsVerify) w2 upid w3 ->
  waitForTask fuel apiUrl node upid (Auth.ticket auth) (Auth.csrfToken auth)
    (nullish skipTlsVerify true) w3 = Ok tr w4 ->
  TaskResult.success tr = false ->
  start fuel args context w
  = Throw (Error (tpl ["VM start failed: "; js_to_string (TaskResult.exitstatus tr)])) w4
  /\ store w4 = store w.
Proof.
  intros g apiUrl node skipTlsVerify Ha Hv Hs Hc Hw Hf. split.
  - unfold start. cbv zeta. fold g apiUrl node skipTlsVerify.
    rewrite (bind_Ok _ _ _ _ _ Ha), (bind_Ok _ _ _ _ _ Hv).
    unfold start_resolved. cbv zeta. fold g apiUrl node skipTlsVerify.
    apply bind_Throw.
    unfold start_if_stopped. rewrite Hs. cbn [is_str]. rewrite String.eqb_refl. cbv zeta.
    rewrite (run_accepted _ _ _ _ _ _ Hc).
    rewrite (bind_Ok _ _ _ _ _ Hw). rewrite Hf. reflexivity.
  - rewrite (waitForTask_store _ _ _ _ _ _ _ w3 w4) by (now rewrite Hw).
    rewrite (accepted_store _ _ _ _ Hc).
    rewrite (resolveVm_store _ _ _ _ _ _ w1 w2) by (now rewrite Hv).
    apply (resolveAuth_store g context authOpts). now rewrite Ha.
Qed.

(** [stop]: whatever the stop task's exit status, a resource version is
    written, and its [success] field is that of the task. *)
Lemma stop_task_outcome (fuel : nat) (vmName : string) (context : Context.t)
    (w w1 w2 w3 w4 : World) (auth : Auth.t) (vm : Vm.t) (upid : JsVal) (tr : TaskResult.t) :
  let g := Context.globalArgs context in
  let apiUrl := GlobalArgs.apiUrl g in
  let node := GlobalArgs.node g in
  let skipTlsVerify := GlobalArgs.skipTlsVerify g in
  resolveAuth g context authOpts w = Ok auth w1 ->
  resolveVm apiUrl node vmName (Auth.ticket auth) (Auth.csrfToken auth)
    skipTlsVerify w1 = Ok vm w2 ->
  is_str (Vm.status vm) "stopped" = false ->
  accepted (stop_request apiUrl node (Vm.vmid vm) (Auth.ticket auth) (Auth.csrfToken auth)
              skipTlsVerify) w2 upid w3 ->
  waitForTask fuel apiUrl node upid (Auth.ticket auth) (Auth.csrfToken auth)
    (nullish skipTlsVerify true) w3 = Ok tr w4 ->
  exists h,
    stop fuel vmName context w
    = Ok [h]
        (set_store
           (store w
            ++ [{| kind := "vm"; instanceName := Vm.name vm;
                   attributes :=
                     VmData.mk (Vm.vmid vm) (Vm.name vm) (JStr "stopped") JNull
                       JUndef JUndef (JBool (TaskResult.success tr)) JUndef
                       (join nl
                          [tpl ["Stopping VM "; dq; vmName; dq; " on node "; node];
                           found_line vmName vm;
                           tpl ["Sending stop command for VM "; js_to_string (Vm.vmid vm)];
                           "Stop task initiated, waiting for completion";
                           if TaskResult.success tr
                           then tpl ["VM "; js_to_string (Vm.vmid vm);
                                     " stopped successfully (";
                                     string_of_Z (TaskResult.pollCount tr); " polls)"]
                           else tpl ["VM "; js_to_string (Vm.vmid vm); " stop failed: ";
                                     js_to_string (TaskResult.exitstatus tr)]])
                       (now w4) |}])
           w4).
Proof.
  intros g apiUrl node skipTlsVerify Ha Hv Hs Hc Hw.
  assert (St : store w4 = store w).
  { rewrite (waitForTask_store _ _ _ _ _ _ _ w3 w4) by (now rewrite Hw).
    rewrite (accepted_store _ _ _ _ Hc).
    rewrite (resolveVm_store _ _ _ _ _ _ w1 w2) by (now rewrite Hv).
    apply (resolveAuth_store g context authOpts). now rewrite Ha. }
  eexists.
  unfold stop. cbv zeta. fold g apiUrl node skipTlsVerify.
  rewrite (bind_Ok _ _ _ _ _ Ha), (bind_Ok _ _ _ _ _ Hv).
  rewrite Hs.
  rewrite (run_accepted _ _ _ _ _ _ Hc).
  rewrite (bind_Ok _ _ _ _ _ Hw).
  unfold writeVm, bind, Date_now, writeResource, ret, push. rewrite St.
  destruct (TaskResult.success tr); reflexivity.
Qed.

(** [delete]: once the stop-first block is over, the delete call is sent;
    whatever the delete task's exit status, a resource version is written,
    and its [success] field is that of the task. *)
Lemma delete_task_outcome (fuel : nat) (vmName : string) (context : Context.t)
    (w w1 w2 w3 w4 w5 : World) (auth : Auth.t) (vm : Vm.t) (logs : list string)
    (upid : JsVal) (tr : TaskResult.t) :
  let g := Context.globalArgs context in
  let apiUrl := GlobalArgs.apiUrl g in
  let node := GlobalArgs.node g in
  let skipTlsVerify := GlobalArgs.skipTlsVerify g in
  resolveAuth g context authOpts w = Ok auth w1 ->
  resolveVm apiUrl node vmName (Auth.ticket auth) (Auth.csrfToken auth)
    skipTlsVerify w1 = Ok vm w2 ->
  delete_stop_first fuel apiUrl node vm (Auth.ticket auth) (Auth.csrfToken auth)
    skipTlsVerify
    (push (push [] (tpl ["Deleting VM "; dq; vmName; dq; " on node "; node]))
          (found_line vmName vm)) w2 = Ok logs w3 ->
  accepted (delete_request apiUrl node (Vm.vmid vm) (Auth.ticket auth) (Auth.csrfToken auth)
              skipTlsVerify) w3 upid w4 ->
  waitForTask fuel apiUrl node upid (Auth.ticket auth) (Auth.csrfToken auth)
    (nullish skipTlsVerify true) w4 = Ok tr w5 ->
  exists h,
    delete fuel vmName context w
    = Ok [h]
        (set_store
           (store w
            ++ [{| kind := "vm"; instanceName := Vm.name vm;
                   attributes :=
                     VmData.mk (Vm.vmid vm) (Vm.name vm) (JStr "deleted") JNull
                       JUndef JUndef (JBool (TaskResult.success tr)) JUndef
                       (join nl
                          (logs
                           ++ [tpl ["Sending delete command for VM ";
                                    js_to_string (Vm.vmid vm)];
                               "Delete task initiated, waiting for completion";
                               if TaskResult.success tr
                               then tpl ["VM "; js_to_string (Vm.vmid vm);
                                         " deleted successfully (";
                                         string_of_Z (TaskResult.pollCount tr); " polls)"]
                               else tpl ["VM "; js_to_string (Vm.vmid vm);
                                         " deletion failed: ";
                                         js_to_string (TaskResult.exitstatus tr)]]))
                       (now w5) |}])
           w5).
Proof.
  intros g apiUrl node skipTlsVerify Ha Hv Hp Hc Hw.
  assert (St : store w5 = store w).
  { rewrite (waitForTask_store _ _ _ _ _ _ _ w4 w5) by (now rewrite Hw).
    rewrite (accepted_store _ _ _ _ Hc).
    rewrite (respects_store any_request _ w2 w3
               (delete_stop_first_respects fuel apiUrl node vm (Auth.ticket auth)
                  (Auth.csrfToken auth) skipTlsVerify _)) by (now rewrite Hp).
    rewrite (resolveVm_store _ _ _ _ _ _ w1 w2) by (now rewrite Hv).
    apply (resolveAuth_store g context authOpts). now rewrite Ha. }
  exists {| h_kind := "vm"; h_name := Vm.name vm; h_version := List.length (store w) |}.
  unfold delete. cbv zeta. fold g apiUrl node skipTlsVerify.
  rewrite (bind_Ok _ _ _ _ _ Ha), (bind_Ok _ _ _ _ _ Hv).
  rewrite (bind_Ok _ _ _ _ _ Hp).
  rewrite (run_accepted _ _ _ _ _ _ Hc).
  rewrite (bind_Ok _ _ _ _ _ Hw).
  unfold writeVm, bind, Date_now, writeResource, ret, push. rewrite St.
  destruct (TaskResult.success tr); rewrite <- !app_assoc; reflexivity.
Qed.

(** C1, as the code has it.  When the awaited task ends with an exit status
    other than [OK]: [create] and [start] raise an error that carries the
    exit status and write no resource version; [stop] and [delete] do not
    raise, they write a resource version whose [success] field is [false]
    and whose log ends with the line that reports the failure and carries
    the exit status.  For [create] to await a task the name must have passed
    [btoa], which comes before the create call. *)
Theorem C1_task_failure_by_method :
  forall (fuel : nat) (context : Context.t) (w w1 : World) (auth : Auth.t),
    let g := Context.globalArgs context in
    let apiUrl := GlobalArgs.apiUrl g in
    let node := GlobalArgs.node g in
    let skipTlsVerify := GlobalArgs.skipTlsVerify g in
    let ticket := Auth.ticket auth in
    let csrfToken := Auth.csrfToken auth in
    resolveAuth g context authOpts w = Ok auth w1 ->
    (* create *)
    (forall args idText upid tr w2 w3 w4,
        accepted (nextid_request apiUrl ticket csrfToken skipTlsVerify) w1 idText w2 ->
        btoa (CreateArgs.vmName args) <> None ->
        accepted (create_request apiUrl node ticket csrfToken skipTlsVerify
                    (create_params args (vmid_of idText))) w2 upid w3 ->
        waitForTask fuel apiUrl node upid ticket csrfToken (nullish skipTlsVerify true) w3
        = Ok tr w4 ->
        TaskResult.success tr = false ->
        create fuel args context w
        = Throw (Error (tpl ["VM creation failed: ";
                             js_to_string (TaskResult.exitstatus tr)])) w4
        /\ store w4 = store w)
    (* start *)
    /\ (forall args vm upid tr w2 w3 w4,
          resolveVm apiUrl node (StartArgs.vmName args) ticket csrfToken skipTlsVerify w1
          = Ok vm w2 ->
          Vm.status vm = JStr "stopped" ->
          accepted (start_request apiUrl node (Vm.vmid vm) ticket csrfToken skipTlsVerify)
            w2 upid w3 ->
          waitForTask fuel apiUrl node upid ticket csrfToken (nullish skipTlsVerify true) w3
          = Ok tr w4 ->
          TaskResult.success tr = false ->
          start fuel args context w
          = Throw (Error (tpl ["VM start failed: ";
                               js_to_string (TaskResult.exitstatus tr)])) w4
          /\ store w4 = store w)
    (* stop *)
    /\ (forall vmName vm upid tr w2 w3 w4,
          resolveVm apiUrl node vmName ticket csrfToken skipTlsVerify w1 = Ok vm w2 ->
          is_str (Vm.status vm) "stopped" = false ->
          accepted (stop_request apiUrl node (Vm.vmid vm) ticket csrfToken skipTlsVerify)
            w2 upid w3 ->
          waitForTask fuel apiUrl node upid ticket csrfToken (nullish skipTlsVerify true) w3
          = Ok tr w4 ->
          TaskResult.success tr = false ->
          exists h,
            stop fuel vmName context w
            = Ok [h]
                (set_store
                   (store w
                    ++ [{| kind := "vm"; instanceName := Vm.name vm;
                           attributes :=
                             VmData.mk (Vm.vmid vm) (Vm.name vm) (JStr "stopped") JNull
                               JUndef JUndef (JBool false) JUndef
                               (join nl
                                  [tpl ["Stopping VM "; dq; vmName; dq; " on node "; node];
                                   found_line vmName vm;
                                   tpl ["Sending stop command for VM ";
                                        js_to_string (Vm.vmid vm)];
                                   "Stop task initiated, waiting for completion";
                                   tpl ["VM "; js_to_string (Vm.vmid vm); " stop failed: ";
                                        js_to_string (TaskResult.exitstatus tr)]])
                               (now w4) |}])
                   w4))
    (* delete *)
    /\ (forall vmName vm logs upid tr w2 w3 w4 w5,
          resolveVm apiUrl node vmName ticket csrfToken skipTlsVerify w1 = Ok vm w2 ->
          delete_stop_first fuel apiUrl node vm ticket csrfToken skipTlsVerify
            (push (push [] (tpl ["Deleting VM "; dq; vmName; dq; " on node "; node]))
                  (found_line vmName vm)) w2 = Ok logs w3 ->
          accepted (delete_request apiUrl node (Vm.vmid vm) ticket csrfToken skipTlsVerify)
            w3 upid w4 ->
          waitForTask fuel apiUrl node upid ticket csrfToken (nullish skipTlsVerify true) w4
          = Ok tr w5 ->
          TaskResult.success tr = false ->
          exists h,
            delete fuel vmName context w
            = Ok [h]
                (set_store
                   (store w
                    ++ [{| kind := "vm"; instanceName := Vm.name vm;
                           attributes :=
                             VmData.mk (Vm.vmid vm) (Vm.name vm) (JStr "deleted") JNull
                               JUndef JUndef (JBool false) JUndef
                               (join nl
                                  (logs
                                   ++ [tpl ["Sending delete command for VM ";
                                            js_to_string (Vm.vmid vm)];
                                       "Delete task initiated, waiting for completion";
                                       tpl ["VM "; js_to_string (Vm.vmid vm);
                                            " deletion failed: ";
                                            js_to_string (TaskResult.exitstatus tr)]]))
                               (now w5) |}])
                   w5)).
Proof.
  intros fuel context w w1 auth g apiUrl node skipTlsVerify ticket csrfToken Ha.
  split; [| split; [| split]].
  - intros args idText upid tr w2 w3 w4 Hn Hb Hc Hw Hf.
    exact (create_task_failure fuel args context w w1 w2 w3 w4 auth idText upid tr
             Ha Hn Hb Hc Hw Hf).
  - intros args vm upid tr w2 w3 w4 Hv Hs Hc Hw Hf.
    exact (start_task_failure fuel args context w w1 w2 w3 w4 auth vm upid tr
             Ha Hv Hs Hc Hw Hf).
  - intros vmName vm upid tr w2 w3 w4 Hv Hs Hc Hw Hf.
    destruct (stop_task_outcome fuel vmName context w w1 w2 w3 w4 auth vm upid tr
                Ha Hv Hs Hc Hw) as (h & E).
    rewrite Hf in E. eauto.
  - intros vmName vm logs upid tr w2 w3 w4 w5 Hv Hp Hc Hw Hf.
    destruct (delete_task_outcome fuel vmName context w w1 w2 w3 w4 w5 auth vm logs upid tr
                Ha Hv Hp Hc Hw) as (h & E).
    rewrite Hf in E. eauto.
Qed.

Lemma C1_task_failure_by_method_witness :
  exists h w',
    stop 10 "beta" Fixture.context (Fixture.world Fixture.failing_tasks) = Ok [h] w'
    /\ store w'
       = [{| kind := "vm"; instanceName := JStr "beta";
             attributes :=
               VmData.mk (JNum 101) (JStr "beta") (JStr "stopped") JNull
                 JUndef JUndef (JBool false) JUndef
                 (join nl
                    [tpl ["Stopping VM "; dq; "beta"; dq; " on node node1"];
                     tpl ["Found VM "; dq; "beta"; dq; " "; arrow; " vmid 101 [running]"];
                     "Sending stop command for VM 101";
                     "Stop task initiated, waiting for completion";
                     "VM 101 stop failed: command failed"])
                 1000300 |}].
Proof.
  destruct (C1_task_failure_by_method 10 Fixture.context
              (Fixture.world Fixture.failing_tasks) (Fixture.world Fixture.failing_tasks)
              (Auth.mk (JStr "T0") (JStr "C0") None "explicit" false) eq_refl)
    as (_ & _ & Hstop & _).
  destruct (Hstop "beta" (Vm.mk (JNum 101) (JStr "beta") (JStr "running"))
              (JStr "UPID:stop")
              (TaskResult.mk false (JStr "command failed") 1)
              (Fixture.world_after
                 (resolveVm "https://pve:8006" "node1" "beta" (JStr "T0") (JStr "C0") None)
                 (Fixture.world Fixture.failing_tasks))
              (Fixture.before_task Fixture.failing_tasks
                 (stop_request "https://pve:8006" "node1" (JNum 101) (JStr "T0") (JStr "C0")
                    None))
              (Fixture.world_after
                 (waitForTask 10 "https://pve:8006" "node1" (JStr "UPID:stop")
                    (JStr "T0") (JStr "C0") true)
                 (Fixture.before_task Fixture.failing_tasks
                    (stop_request "https://pve:8006" "node1" (JNum 101) (JStr "T0")
                       (JStr "C0") None))))
    as (h & E).
  - vm_compute. reflexivity.
  - reflexivity.
  - do 2 eexists. repeat split; vm_compute; reflexivity.
  - vm_compute. reflexivity.
  - reflexivity.
  - exists h. eexists. split; [exact E | reflexivity].
Defined.

(** C1 as the specification words it fails on [stop]: the stop task of [beta] ends
    with exit status [command failed], yet [stop] returns normally and a
    resource version is written. *)
Lemma C1_counterexample :
  exists tr w4 h w',
    waitForTask 10 "https://pve:8006" "node1" (JStr "UPID:stop") (JStr "T0") (JStr "C0") true
      (Fixture.before_task Fixture.failing_tasks
         (stop_request "https://pve:8006" "node1" (JNum 101) (JStr "T0") (JStr "C0") None))
    = Ok tr w4
    /\ TaskResult.exitstatus tr = JStr "command failed"
    /\ TaskResult.success tr = false
    /\ stop 10 "beta" Fixture.context (Fixture.world Fixture.failing_tasks) = Ok [h] w'
    /\ trace w' = trace w4
    /\ List.length (store w') = 1%nat
    /\ store (Fixture.world Fixture.failing_tasks) = [].
Proof.
  do 4 eexists.
  split; [vm_compute; reflexivity |].
  split; [reflexivity |]. split; [reflexivity |].
  split; [vm_compute; reflexivity |].
  split; [reflexivity |]. split; reflexivity.
Qed.

(* ===================================================================== *)
(** ** [delete]: the stop that may fail *)
(* ===================================================================== *)

Lemma accepted_trace (rq : Request.t) (w w' : World) (data : JsVal) :
  accepted rq w data w' -> trace w' = trace w ++ [rq].
Proof.
  intros (r & j & F & _). unfold fetchWithCurl in F.
  destruct (result (curl w (now w) (trace w) rq)); [discriminate |].
  injection F as _ <-. reflexivity.
Qed.

(** C6. [delete] on a VM that is not [stopped]: when the stop that goes
    first fails, be it a non-2xx answer to the stop call or an error raised
    anywhere in the stop block, the failure ends up as a line of the log and
    nowhere else; the delete call is issued all the same; and when the
    delete task ends with [OK], a resource version with status [deleted] and
    success [true] is written. *)
Theorem C6_delete_survives_failed_stop :
  forall (fuel : nat) (vmName : string) (context : Context.t)
         (w w1 w2 w3 w4 w5 : World) (auth : Auth.t) (vm : Vm.t)
         (upid : JsVal) (tr : TaskResult.t),
    let g := Context.globalArgs context in
    let apiUrl := GlobalArgs.apiUrl g in
    let node := GlobalArgs.node g in
    let skipTlsVerify := GlobalArgs.skipTlsVerify g in
    let ticket := Auth.ticket auth in
    let csrfToken := Auth.csrfToken auth in
    let logs :=
      push (push (push [] (tpl ["Deleting VM "; dq; vmName; dq; " on node "; node]))
                 (found_line vmName vm))
           (tpl ["VM is "; js_to_string (Vm.status vm); ", stopping first"]) in
    resolveAuth g context authOpts w = Ok auth w1 ->
    resolveVm apiUrl node vmName ticket csrfToken skipTlsVerify w1 = Ok vm w2 ->
    Vm.status vm <> JStr "stopped" ->
    ((exists e,
         delete_stop_phase fuel apiUrl node vm ticket csrfToken skipTlsVerify logs w2
         = Throw e w3)
     \/ (exists response,
           fetchWithCurl (stop_request apiUrl node (Vm.vmid vm) ticket csrfToken skipTlsVerify)
             w2 = Ok response w3
           /\ Response.ok response = false)) ->
    (* the delete call is sent, whatever becomes of it *)
    (forall w',
        final_world (delete fuel vmName context w) = Some w' ->
        exists later,
          trace w'
          = trace w3
            ++ delete_request apiUrl node (Vm.vmid vm) ticket csrfToken skipTlsVerify
               :: later)
    (* and when the delete task ends with OK *)
    /\ (accepted (delete_request apiUrl node (Vm.vmid vm) ticket csrfToken skipTlsVerify)
          w3 upid w4 ->
        waitForTask fuel apiUrl node upid ticket csrfToken (nullish skipTlsVerify true) w4
        = Ok tr w5 ->
        TaskResult.success tr = true ->
        exists h lines,
          delete fuel vmName context w
          = Ok [h]
              (set_store
                 (store w
                  ++ [{| kind := "vm"; instanceName := Vm.name vm;
                         attributes :=
                           VmData.mk (Vm.vmid vm) (Vm.name vm) (JStr "deleted") JNull
                             JUndef JUndef (JBool true) JUndef (join nl lines) (now w5) |}])
                 w5)
          /\ (In "Stop failed (VM may already be stopped), continuing" lines
              \/ In "VM may already be stopped, continuing to delete" lines)).
Proof.
  intros fuel vmName context w w1 w2 w3 w4 w5 auth vm upid tr
         g apiUrl node skipTlsVerify ticket csrfToken logs Ha Hv Hs Hfail.
  assert (Hns : is_str (Vm.status vm) "stopped" = false).
  { destruct (is_str (Vm.status vm) "stopped") eqn:S; [| reflexivity].
    apply is_str_true in S. contradiction. }
  assert (Hp : exists line,
             delete_stop_first fuel apiUrl node vm ticket csrfToken skipTlsVerify
               (push (push [] (tpl ["Deleting VM "; dq; vmName; dq; " on node "; node]))
                     (found_line vmName vm)) w2
             = Ok (push logs line) w3
             /\ (line = "Stop failed (VM may already be stopped), continuing"
                 \/ line = "VM may already be stopped, continuing to delete")).
  { unfold delete_stop_first. rewrite Hns. cbn [negb]. cbv zeta. fold logs.
    destruct Hfail as [[e E] | (response & F & Hbad)].
    - eexists. split; [| left; reflexivity].
      rewrite (try_catch_Throw _ _ _ _ _ E). reflexivity.
    - eexists. split; [| right; reflexivity].
      apply try_catch_Ok. unfold delete_stop_phase.
      rewrite (bind_Ok _ _ _ _ _ F). rewrite Hbad. reflexivity. }
  destruct Hp as (line & Hp & Hline).
  split.
  - intros w' F. unfold delete in F. cbv zeta in F.
    fold g apiUrl node skipTlsVerify in F.
    rewrite (bind_Ok _ _ _ _ _ Ha), (bind_Ok _ _ _ _ _ Hv) in F.
    fold ticket csrfToken in F. rewrite (bind_Ok _ _ _ _ _ Hp) in F.
    destruct (bind_final _ _ _ _ F) as [[e E] | (response & w6 & E & F1)].
    + exists []. unfold fetchWithCurl in E.
      destruct (result (curl w3 (now w3) (trace w3) _)); [| discriminate].
      injection E as _ <-. reflexivity.
    + destruct (fetch_Ok _ _ _ _ E) as [T6 _].
      cbv beta in F1.
      assert (R : exists d, trace w' = trace w6 ++ d).
      { lazymatch type of F1 with
        | final_world (?m w6) = Some w' =>
            assert (R : respects any_request any_version m)
        end.
        { respects_auto.
          - eapply respects_mono; [| | apply waitForTask_loop_respects]; [| intros ? []].
            intros; exact I.
          - apply writeVm_respects. intros; exact I. }
        destruct (R w6 w' F1) as ((d & T & _) & _). eauto. }
      destruct R as (d & T).
      exists d. rewrite T, T6, <- app_assoc. reflexivity.
  - intros Hc Hw Hok.
    destruct (delete_task_outcome fuel vmName context w w1 w2 w3 w4 w5 auth vm
                (push logs line) upid tr Ha Hv Hp Hc Hw) as (h & E).
    rewrite Hok in E.
    eexists h, (push logs line ++ _). split; [exact E |].
    unfold push. destruct Hline as [-> | ->]; [left | right];
      apply in_or_app; left; apply in_or_app; right; left; reflexivity.
Qed.

Lemma C6_delete_survives_failed_stop_witness :
  exists h lines w',
    delete 10 "beta" Fixture.context (Fixture.world Fixture.refusing_stop) = Ok [h] w'
    /\ store w'
       = [{| kind := "vm"; instanceName := JStr "beta";
             attributes :=
               VmData.mk (JNum 101) (JStr "beta") (JStr "deleted") JNull
                 JUndef JUndef (JBool true) JUndef (join nl lines) 1000400 |}]
    /\ (In "Stop failed (VM may already be stopped), continuing" lines
        \/ In "VM may already be stopped, continuing to delete" lines).
Proof.
  pose (stopRq := stop_request "https://pve:8006" "node1" (JNum 101) (JStr "T0") (JStr "C0")
                    None).
  pose (deleteRq := delete_request "https://pve:8006" "node1" (JNum 101) (JStr "T0")
                      (JStr "C0") None).
  pose (w3 := Fixture.before_task Fixture.refusing_stop stopRq).
  pose (w4 := Fixture.world_after (fetchWithCurl deleteRq) w3).
  destruct (C6_delete_survives_failed_stop 10 "beta" Fixture.context
              (Fixture.world Fixture.refusing_stop) (Fixture.world Fixture.refusing_stop)
              (Fixture.world_after
                 (resolveVm "https://pve:8006" "node1" "beta" (JStr "T0") (JStr "C0") None)
                 (Fixture.world Fixture.refusing_stop))
              w3 w4
              (Fixture.world_after
                 (waitForTask 10 "https://pve:8006" "node1" (JStr "UPID:delete")
                    (JStr "T0") (JStr "C0") true) w4)
              (Auth.mk (JStr "T0") (JStr "C0") None "explicit" false)
              (Vm.mk (JNum 101) (JStr "beta") (JStr "running"))
              (JStr "UPID:delete") (TaskResult.mk true (JStr "OK") 1))
    as (_ & Hdone).
  - reflexivity.
  - vm_compute. reflexivity.
  - discriminate.
  - right. eexists. split; vm_compute; reflexivity.
  - destruct Hdone as (h & lines & E & Hin).
    + do 2 eexists. repeat split; vm_compute; reflexivity.
    + vm_compute. reflexivity.
    + reflexivity.
    + exists h, lines. eexists. split; [exact E |]. split; [reflexivity | exact Hin].
Defined.

Example delete_after_refused_stop :
  exists h w',
    delete 10 "beta" Fixture.context (Fixture.world Fixture.refusing_stop) = Ok [h] w'
    /\ map Request.method (trace w') = ["GET"; "POST"; "DELETE"; "GET"]
    /\ option_map (fun v => VmData.success (attributes v)) (hd_error (store w'))
       = Some (JBool true).
Proof. do 2 eexists. split; [vm_compute; reflexivity | split; reflexivity]. Qed.

(* ===================================================================== *)
(** ** [create] *)
(* ===================================================================== *)

Lemma create_params_boot (args : CreateArgs.t) (vmid : JsVal) :
  params_get "boot" (create_params args vmid) = Some (requested_boot args).
Proof.
  unfold create_params, requested_boot. cbv zeta.
  destruct (hasDisk_of (CreateArgs.diskSize args)); reflexivity.
Qed.

Lemma create_respects (fuel : nat) (args : CreateArgs.t) (context : Context.t) :
  respects (boots_with (requested_boot args)) any_version (create fuel args context).
Proof.
  unfold create. respects_auto.
  - eapply respects_mono; [| | apply resolveAuth_respects]; [| intros ? []].
    intros rq <- params b Hb Hg. injection Hb as <-. discriminate.
  - apply respects_fetch. intros params b Hb. discriminate.
  - apply respects_fetch. intros params b Hb Hg. injection Hb as <-.
    rewrite create_params_boot in Hg. congruence.
  - eapply respects_mono; [| | apply waitForTask_loop_respects]; [| intros ? []].
    intros rq <- params b Hb. discriminate.
  - apply writeVm_respects. intros; exact I.
Qed.

(** C2, as the code has it.  The boot order [create] asks for is
    [order=net0] when the requested disk size is 0 and [order=net0;scsi0]
    otherwise: the network comes first in both, the disk second when there is
    one.  No request of a [create] run carries another boot order, and a
    [create] that returns has sent the create call with this boot order and
    has written one resource version, with status [stopped], ip [null] and
    success [true]. *)
Theorem C2_create_boots_network_first :
  forall (fuel : nat) (args : CreateArgs.t) (context : Context.t) (w : World),
    let g := Context.globalArgs context in
    (requested_boot args
     = if match CreateArgs.diskSize args with Some 0 => true | _ => false end
       then "order=net0" else "order=net0;scsi0")
    /\ first_boot_device (requested_boot args) = Some "net0"
    /\ (forall w', final_world (create fuel args context w) = Some w' ->
          exists delta,
            trace w' = trace w ++ delta
            /\ Forall (boots_with (requested_boot args)) delta)
    /\ (forall hs w', create fuel args context w = Ok hs w' ->
          exists auth vmid h lg ts,
            hs = [h]
            /\ In (create_request (GlobalArgs.apiUrl g) (GlobalArgs.node g)
                     (Auth.ticket auth) (Auth.csrfToken auth) (GlobalArgs.skipTlsVerify g)
                     (create_params args vmid)) (trace w')
            /\ params_get "boot" (create_params args vmid) = Some (requested_boot args)
            /\ store w'
               = store w
                 ++ [{| kind := "vm"; instanceName := JStr (CreateArgs.vmName args);
                        attributes :=
                          VmData.mk vmid (JStr (CreateArgs.vmName args)) (JStr "stopped")
                            JNull JUndef JUndef (JBool true) JUndef lg ts |}]).
Proof.
  intros fuel args context w g.
  split; [| split; [| split]].
  - unfold requested_boot, hasDisk_of.
    destruct (CreateArgs.diskSize args) as [[| p | p] |]; reflexivity.
  - unfold requested_boot. destruct (hasDisk_of (CreateArgs.diskSize args)); reflexivity.
  - intros w' F. destruct (create_respects fuel args context w w' F) as (T & _). exact T.
  - intros hs w' E. unfold create, bind in E. cbv zeta in E. fold g in E.
    destruct (resolveAuth g context authOpts w) as [auth w1 | |] eqn:Ea; try discriminate.
    destruct (fetchWithCurl _ w1) as [r1 w2 | |] eqn:En; try discriminate.
    destruct (negb (Response.ok r1)); [discriminate |].
    unfold response_json, prop, orThrow in E.
    destruct (Response.json r1) as [nextId |]; [| discriminate]. cbn [ret] in E.
    destruct (get nextId "data") as [idText |]; [| discriminate]. cbn [ret] in E.
    destruct (btoa (CreateArgs.vmName args)) as [serial |]; [| discriminate].
    cbn [ret] in E.
    destruct (fetchWithCurl _ w2) as [r2 w3 | |] eqn:Ec; try discriminate.
    destruct (negb (Response.ok r2)); [discriminate |].
    destruct (Response.json r2) as [created |]; [| discriminate]. cbn [ret] in E.
    destruct (get created "data") as [upid |]; [| discriminate]. cbn [ret] in E.
    destruct (waitForTask fuel _ _ upid _ _ _ w3) as [tr w4 | |] eqn:Ew; try discriminate.
    destruct (negb (TaskResult.success tr)); [discriminate |].
    unfold writeVm, bind, Date_now, writeResource, ret in E.
    injection E as <- <-.
    assert (F4 : final_world (waitForTask fuel (GlobalArgs.apiUrl g) (GlobalArgs.node g) upid
                                (Auth.ticket auth) (Auth.csrfToken auth)
                                (nullish (GlobalArgs.skipTlsVerify g) true) w3) = Some w4)
      by (now rewrite Ew).
    exists auth, (vmid_of idText). do 3 eexists.
    split; [reflexivity |]. split; [| split; [apply create_params_boot |]].
    + simpl.
      destruct (waitForTask_trace _ _ _ _ _ _ _ _ _ F4) as (d & T).
      rewrite T. destruct (fetch_Ok _ _ _ _ Ec) as [-> _].
      apply in_or_app; left; apply in_or_app; right; left; reflexivity.
    + simpl.
      rewrite (waitForTask_store _ _ _ _ _ _ _ _ _ F4).
      destruct (fetch_Ok _ _ _ _ Ec) as [_ ->].
      destruct (fetch_Ok _ _ _ _ En) as [_ ->].
      rewrite (resolveAuth_store g context authOpts w w1) by (now rewrite Ea).
      reflexivity.
Qed.

(** C2 as the specification words it fails: with a disk of 32 GB the create call asks
    for [order=net0;scsi0], whose first device is the network card, not the
    disk. *)
Lemma C2_counterexample :
  exists hs w' rq params boot,
    CreateArgs.diskSize (Fixture.createArgs (Some 32)) <> Some 0
    /\ create 10 (Fixture.createArgs (Some 32)) Fixture.context
         (Fixture.world Fixture.healthy) = Ok hs w'
    /\ In rq (trace w')
    /\ Request.method rq = "POST"
    /\ Request.body rq = Some params
    /\ params_get "boot" params = Some boot
    /\ boot_devices boot = ["net0"; "scsi0"]
    /\ first_boot_device boot <> Some "scsi0".
Proof.
  do 5 eexists.
  split; [discriminate |].
  split; [vm_compute; reflexivity |].
  split; [right; left; reflexivity |].
  split; [reflexivity |]. split; [reflexivity |]. split; [reflexivity |].
  split; [reflexivity | discriminate].
Qed.

Lemma C2_create_boots_network_first_witness :
  exists auth vmid h lg ts,
    [{| h_kind := "vm"; h_name := JStr "gamma"; h_version := 0 |}] = [h]
    /\ In (create_request "https://pve:8006" "node1" (Auth.ticket auth) (Auth.csrfToken auth)
             None (create_params (Fixture.createArgs (Some 0)) vmid))
          (trace (Fixture.after_create (Some 0)))
    /\ params_get "boot" (create_params (Fixture.createArgs (Some 0)) vmid)
       = Some "order=net0"
    /\ store (Fixture.after_create (Some 0))
       = [{| kind := "vm"; instanceName := JStr "gamma";
             attributes :=
               VmData.mk vmid (JStr "gamma") (JStr "stopped") JNull
                 JUndef JUndef (JBool true) JUndef lg ts |}].
Proof.
  apply (proj2 (proj2 (proj2 (C2_create_boots_network_first 10 (Fixture.createArgs (Some 0))
                                Fixture.context (Fixture.world Fixture.healthy))))).
  vm_compute. reflexivity.
Defined.

(* ===================================================================== *)
(** ** [sync] *)
(* ===================================================================== *)

Lemma get_listed (rv : JsVal) (k : string) :
  listed_vm rv -> get rv k = Some (opt_get rv k).
Proof.
  intros [N U]. unfold opt_get. destruct (get rv k) eqn:G; [reflexivity |].
  destruct rv; simpl in G; congruence.
Qed.

Lemma is_str_neq (v : JsVal) (lit : string) : v <> JStr lit -> is_str v lit = false.
Proof.
  intros H. destruct (is_str v lit) eqn:E; [| reflexivity].
  apply is_str_true in E. contradiction.
Qed.

(** The name as the code computes it, [rv.name || `vm-${rv.vmid}`]. *)
Lemma synced_name_js_or (rv : JsVal) :
  js_or (opt_get rv "name") (JStr (tpl ["vm-"; js_to_string (opt_get rv "vmid")]))
  = synced_name rv.
Proof. reflexivity. Qed.

Lemma sync_loop_spec (fuel : nat) (apiUrl node : string) (ticket csrfToken : JsVal)
    (skipTlsVerify : option bool) :
  (rounds 5 2 <= fuel)%nat ->
  forall (vms : list JsVal) (handles : list Handle) (logs : list string) (w : World),
    Forall listed_vm vms ->
    exists hs logs' w',
      sync_loop fuel apiUrl node ticket csrfToken skipTlsVerify vms handles logs w
      = Ok (handles ++ hs, logs') w'
      /\ List.length hs = List.length vms
      /\ (exists versions,
            store w' = store w ++ versions /\ Forall2 synced_from vms versions)
      /\ (exists delta,
            trace w' = trace w ++ delta
            /\ Forall (agent_query_for apiUrl node ticket csrfToken skipTlsVerify vms) delta).
Proof.
  intros Hfuel vms. induction vms as [| rv rest IH]; intros handles logs w Hvms.
  - exists [], logs, w. simpl. rewrite !app_nil_r.
    split; [reflexivity |]. split; [reflexivity |].
    split; [exists []; rewrite app_nil_r; auto | exists []; rewrite app_nil_r; auto].
  - inversion Hvms as [| ? ? Hrv Hrest]; subst.
    simpl. unfold prop. rewrite (get_listed rv "status" Hrv). cbn [orThrow].
    unfold bind at 1. cbn [ret].
    assert (Hip : exists ip w1,
               (if is_str (opt_get rv "status") "running"
                then getVmIpWithRetry fuel apiUrl node (opt_get rv "vmid") ticket csrfToken
                       skipTlsVerify 5 2
                else ret None) w = Ok ip w1
               /\ store w1 = store w
               /\ (exists d, trace w1 = trace w ++ d
                             /\ Forall (agent_query_for apiUrl node ticket csrfToken
                                          skipTlsVerify (rv :: rest)) d)
               /\ (is_str (opt_get rv "status") "running" = false -> ip = None)).
    { destruct (is_str (opt_get rv "status") "running") eqn:Run.
      - destruct (getVmIpWithRetry_returns fuel apiUrl node (opt_get rv "vmid") ticket
                    csrfToken skipTlsVerify 5 2 w ltac:(lia) Hfuel) as (ip & w1 & E).
        pose proof (getVmIpWithRetry_respects fuel apiUrl node (opt_get rv "vmid") ticket
                      csrfToken skipTlsVerify 5 2 w w1) as R.
        rewrite E in R. specialize (R eq_refl).
        exists ip, w1. split; [exact E |]. split; [eapply evolves_store; exact R |].
        split; [| discriminate].
        destruct R as ((d & T & F) & _). exists d. split; [exact T |].
        eapply Forall_impl; [| exact F]. intros rq <-.
        exists rv. split; [now left | auto].
      - exists None, w. split; [reflexivity |]. split; [reflexivity |].
        split; [| reflexivity]. exists []. rewrite app_nil_r. auto. }
    destruct Hip as (ip & w1 & Eip & St1 & (d1 & T1 & F1) & Hnull).
    rewrite (bind_Ok _ _ _ _ _ Eip). cbv zeta.
    unfold writeVm at 1. unfold bind at 1. unfold Date_now at 1.
    unfold bind at 1. unfold writeResource at 1.
    match goal with
    | |- context [sync_loop fuel apiUrl node ticket csrfToken skipTlsVerify rest ?hs ?lg ?w2] =>
        destruct (IH hs lg w2 Hrest)
          as (hs' & logs' & w' & E & L & (vs & St & F2) & (d2 & T2 & Fd))
    end.
    rewrite E. simpl in St, T2.
    eexists (_ :: hs'), logs', w'.
    split; [rewrite <- app_assoc; reflexivity |].
    split; [simpl; now rewrite L |].
    split.
    + eexists (_ :: vs). split.
      * rewrite St, St1, <- app_assoc. reflexivity.
      * constructor; [| exact F2].
        unfold synced_from.
        cbn [kind instanceName attributes sync_data VmData.vmid VmData.vmName VmData.status
             VmData.ip VmData.maxmem VmData.maxcpu VmData.success VmData.wasStarted].
        rewrite synced_name_js_or.
        repeat (split; [reflexivity |]). split.
        { destruct ip as [a |]; [right; now exists a | now left]. }
        intros Hs. rewrite (Hnull (is_str_neq _ _ Hs)). reflexivity.
    + exists (d1 ++ d2). split; [rewrite T2, T1, app_assoc; reflexivity |].
      apply Forall_app. split; [exact F1 |].
      eapply Forall_impl; [| exact Fd].
      intros rq (rv' & In' & R' & ->). exists rv'. split; [now right | auto].
Qed.


(* ===================================================================== *)
(** ** Further properties.  Taking a finished run apart *)
(* ===================================================================== *)

Lemma bind_Ok_inv {A B : Type} (m : M A) (k : A -> M B) (w w' : World) (b : B) :
  bind m k w = Ok b w' -> exists a w1, m w = Ok a w1 /\ k a w1 = Ok b w'.
Proof.
  unfold bind. destruct (m w) as [a w1 | e w1 |]; [eauto | discriminate ..].
Qed.

Lemma orThrow_Ok {A : Type} (e : JsError) (o : option A) (w w' : World) (a : A) :
  orThrow e o w = Ok a w' -> o = Some a /\ w' = w.
Proof.
  destruct o; cbn [orThrow]; unfold ret, throw; intros H; [| discriminate].
  injection H as -> ->. auto.
Qed.

Lemma fetch_now (rq : Request.t) (w w' : World) :
  final_world (fetchWithCurl rq w) = Some w' ->
  now w <= now w' /\ curl w' = curl w /\ trace w' = trace w ++ [rq] /\ store w' = store w.
Proof.
  unfold fetchWithCurl. destruct (result (curl w (now w) (trace w) rq));
    cbn [final_world]; intros H; injection H as <-; cbn; repeat split; lia.
Qed.

Lemma bind_assoc {A B C : Type} (m : M A) (f : A -> M B) (g : B -> M C) (w : World) :
  bind (bind m f) g w = bind m (fun a => bind (f a) g) w.
Proof. unfold bind. now destruct (m w). Qed.

Lemma bind_ext {A B : Type} (m : M A) (f g : A -> M B) (w : World) :
  (forall a w1, f a w1 = g a w1) -> bind m f w = bind m g w.
Proof. intros H. unfold bind. destruct (m w); auto. Qed.

(* ===================================================================== *)
(** ** More on strings *)
(* ===================================================================== *)

Lemma prefix_app (sub rest : string) : String.prefix sub (sub ++ rest) = true.
Proof.
  induction sub as [| c sub IH]; simpl.
  - now destruct rest.
  - destruct (ascii_dec c c); [exact IH | congruence].
Qed.


Lemma string_length_app (a b : string) :
  String.length (a ++ b) = (String.length a + String.length b)%nat.
Proof. induction a as [| c a IH]; simpl; [| rewrite IH]; reflexivity. Qed.





Lemma find_sub_app (a sub b : string) : find_sub sub (a ++ sub ++ b) <> None.
Proof.
  induction a as [| c a IH]; cbn [append].
  - pose proof (prefix_app sub b) as P.
    destruct (sub ++ b)%string; cbn [find_sub]; rewrite P; discriminate.
  - cbn [find_sub].
    destruct (String.prefix sub (String c (a ++ sub ++ b))); [discriminate |].
    destruct (find_sub sub (a ++ sub ++ b)); cbn [option_map]; [discriminate | contradiction].
Qed.

Lemma includes_app (a sub b : string) : includes (a ++ sub ++ b) sub = true.
Proof.
  unfold includes. pose proof (find_sub_app a sub b).
  destruct (find_sub sub (a ++ sub ++ b)); congruence.
Qed.



Lemma drop_app (a b : string) : drop (String.length a) (a ++ b) = b.
Proof. induction a as [| c a IH]; simpl; [reflexivity | exact IH]. Qed.









(* ===================================================================== *)
(** ** Decimal numbers: [String(n)] and [parseInt] *)
(* ===================================================================== *)

Lemma uint_value_acc (d : Decimal.uint) (acc : positive) :
  uint_value d (Z.pos acc) = Z.pos (Pos.of_uint_acc d acc).
Proof.
  revert acc. induction d; intros acc; cbn [uint_value Pos.of_uint_acc];
    [reflexivity | ..];
    match goal with
    | |- uint_value _ ?z = Z.pos (Pos.of_uint_acc _ ?p) =>
        replace z with (Z.pos p) by lia; apply IHd
    end.
Qed.

Lemma uint_value_0 (d : Decimal.uint) : uint_value d 0 = Z.of_N (Pos.of_uint d).
Proof.
  induction d; cbn [uint_value Pos.of_uint]; [reflexivity | exact IHd | ..];
    cbn [Z.mul Z.add Z.of_N]; apply uint_value_acc.
Qed.

Lemma uint_value_to_uint (p : positive) : uint_value (Pos.to_uint p) 0 = Z.pos p.
Proof. rewrite uint_value_0, DecimalPos.Unsigned.of_to. reflexivity. Qed.

Ltac eval_digit :=
  match goal with
  | |- context [digit_of ?c] =>
      let v := eval vm_compute in (digit_of c) in change (digit_of c) with v
  end.

(** Reading back the digits printed for [d], whatever follows them, as
    long as no digit does. *)
Lemma read_digits_printed (d : Decimal.uint) (rest : string) (acc : Z) :
  no_digit_ahead rest ->
  read_digits (NilEmpty.string_of_uint d ++ rest) acc true = Some (uint_value d acc).
Proof.
  intros Hrest. revert acc.
  induction d; intros acc; cbn [NilEmpty.string_of_uint append uint_value];
    [| cbn [read_digits]; eval_digit; cbv iota;
       rewrite ?Z.add_0_r; apply IHd ..].
  destruct rest as [| c rest]; [reflexivity |].
  cbn [read_digits]. unfold no_digit_ahead, is_digit in Hrest.
  destruct (digit_of c); [discriminate | reflexivity].
Qed.

Lemma parseInt_printed (d : Decimal.uint) (rest : string) :
  d <> Decimal.Nil -> no_digit_ahead rest ->
  parseInt (NilEmpty.string_of_uint d ++ rest) = Some (uint_value d 0).
Proof.
  intros Hd Hrest.
  destruct d; [congruence | ..];
    cbn [NilEmpty.string_of_uint append uint_value]; unfold parseInt;
    simpl skip_spaces; cbv iota; cbn [read_digits]; eval_digit; cbv iota;
    apply read_digits_printed; exact Hrest.
Qed.

Lemma string_of_Z_pos (p : positive) :
  string_of_Z (Z.pos p) = NilEmpty.string_of_uint (Pos.to_uint p).
Proof.
  unfold string_of_Z. cbn [Z.to_int NilZero.string_of_int].
  pose proof (DecimalPos.Unsigned.to_uint_nonnil p) as H.
  unfold NilZero.string_of_uint. destruct (Pos.to_uint p); [congruence | reflexivity ..].
Qed.

Lemma string_app_nil (s : string) : (s ++ "")%string = s.
Proof. induction s as [| c s IH]; simpl; [| rewrite IH]; reflexivity. Qed.

(** [parseInt(String(n) + rest)] is [n] again when [rest] does not go on
    with a digit. *)
Lemma parseInt_string_of_Z_app (n : Z) (rest : string) :
  no_digit_ahead rest -> parseInt (string_of_Z n ++ rest) = Some n.
Proof.
  intros Hrest. destruct n as [| p | p].
  - unfold string_of_Z. cbn [Z.to_int NilZero.string_of_int NilZero.string_of_uint].
    change "0"%string with (NilEmpty.string_of_uint (Decimal.D0 Decimal.Nil)).
    rewrite parseInt_printed; [reflexivity | discriminate | exact Hrest].
  - rewrite string_of_Z_pos, parseInt_printed;
      [now rewrite uint_value_to_uint | apply DecimalPos.Unsigned.to_uint_nonnil | exact Hrest].
  - unfold string_of_Z. cbn [Z.to_int NilZero.string_of_int].
    pose proof (DecimalPos.Unsigned.to_uint_nonnil p) as Hp.
    pose proof (uint_value_to_uint p) as V.
    unfold NilZero.string_of_uint.
    destruct (Pos.to_uint p) eqn:E; [congruence | ..];
      cbn [append]; unfold parseInt; simpl skip_spaces; cbv iota;
      cbn [NilEmpty.string_of_uint append read_digits]; eval_digit; cbv iota;
      rewrite read_digits_printed by exact Hrest;
      cbn [option_map]; cbn [uint_value Z.mul Z.add] in V; cbn [Z.mul Z.add];
      rewrite V; reflexivity.
Qed.

Lemma parseInt_string_of_Z (n : Z) : parseInt (string_of_Z n) = Some n.
Proof.
  rewrite <- (string_app_nil (string_of_Z n)). now apply parseInt_string_of_Z_app.
Qed.
(* ===================================================================== *)
(** ** [fetchWithCurl]: what it makes of the output of [curl] *)
(* ===================================================================== *)

Lemma take_while_app (p : ascii -> bool) (a rest : string) :
  forallb p (chars a) = true ->
  match rest with EmptyString => True | String c _ => p c = false end ->
  take_while p (a ++ rest) = a.
Proof.
  intros Ha Hrest. induction a as [| c a IH]; cbn [append take_while].
  - destruct rest as [| c rest]; [reflexivity |]. cbn [take_while]. now rewrite Hrest.
  - cbn [chars list_ascii_of_string forallb] in Ha.
    apply andb_true_iff in Ha as [Hc Ha]. rewrite Hc, (IH Ha). reflexivity.
Qed.

Lemma printed_digits (d : Decimal.uint) :
  forallb is_digit (chars (NilEmpty.string_of_uint d)) = true.
Proof. induction d; cbn [NilEmpty.string_of_uint chars list_ascii_of_string forallb];
  [reflexivity | exact IHd ..]. Qed.

Lemma string_of_Z_digits (n : Z) :
  0 <= n -> string_of_Z n <> EmptyString /\ forallb is_digit (chars (string_of_Z n)) = true.
Proof.
  intros Hn. destruct n as [| p | p]; [split; [discriminate | reflexivity] | | lia].
  rewrite string_of_Z_pos. split; [| apply printed_digits].
  pose proof (DecimalPos.Unsigned.to_uint_nonnil p).
  destruct (Pos.to_uint p); [congruence | discriminate ..].
Qed.

Lemma eqb_empty (s : string) : s <> EmptyString -> String.eqb s EmptyString = false.
Proof. intros H. destruct s; [congruence | reflexivity]. Qed.

(** The status pattern on a status line that begins with it. *)
Lemma match_status_line (version code reason : string) :
  is_version version ->
  code <> EmptyString -> forallb is_digit (chars code) = true ->
  no_digit_ahead reason ->
  match_status ("HTTP/" ++ version ++ " " ++ code ++ reason) = Some code.
Proof.
  intros [Hv Hvd] Hc Hcd Hreason.
  cbn [append match_status]. unfold status_here.
  cbn [String.prefix]. repeat (destruct (ascii_dec _ _); [| congruence]).
  assert (P : String.prefix EmptyString (version ++ String " " (code ++ reason)) = true)
    by (now destruct (version ++ String " " (code ++ reason))%string).
  rewrite P. cbn [drop].
  rewrite take_while_app by (exact Hvd || reflexivity).
  rewrite (eqb_empty _ Hv), drop_app.
  rewrite take_while_app by (exact Hcd || exact Hreason).
  now rewrite (eqb_empty _ Hc).
Qed.





(** X3. The status [fetchWithCurl] reports is the number on the status
    line.  Whenever the status text of the response reads [HTTP/], a
    version of digits and dots, one space, the decimal numeral of an [n]
    from 0 to 2^53 - 1 and a rest that does not go on with a digit, the
    response's status is [n], and the response is [ok] exactly when
    [200 <= n < 300]. *)
Theorem fetch_status_of_status_line
    (parse : string -> option JsVal) (output version reason : string) (n : Z) :
  Response.statusText (parse_output parse output)
    = ("HTTP/" ++ version ++ " " ++ string_of_Z n ++ reason)%string ->
  is_version version -> 0 <= n -> safe_integer n -> no_digit_ahead reason ->
  Response.status (parse_output parse output) = n
  /\ (Response.ok (parse_output parse output) = true <-> 200 <= n < 300).
Proof.
  intros E Hv Hn _ Hreason.
  assert (S : Response.status (parse_output parse output) = n).
  { unfold parse_output in *. cbn [Response.status Response.statusText] in *.
    rewrite E. destruct (string_of_Z_digits n Hn) as [Hc Hcd].
    rewrite (match_status_line version (string_of_Z n) reason Hv Hc Hcd Hreason).
    now rewrite parseInt_string_of_Z. }
  split; [exact S |]. unfold Response.ok. rewrite S. lia.
Qed.

Lemma fetch_status_of_status_line_witness :
  let output := ("HTTP/1.1 404 Not Found" ++ crlf ++ "Server: pve" ++ blank_line ++ "{}")%string in
  Response.status (parse_output (fun _ => None) output) = 404.
Proof.
  intros output.
  refine (proj1 (fetch_status_of_status_line (fun _ => None) output "1.1" " Not Found" 404
                   eq_refl _ _ _ _)).
  - split; [discriminate | reflexivity].
  - lia.
  - unfold safe_integer. lia.
  - reflexivity.
Defined.
(* ===================================================================== *)
(** ** [is401] and the errors the library raises *)
(* ===================================================================== *)

Lemma includes_skip (c : ascii) (s sub : string) :
  String.prefix sub (String c s) = false -> includes (String c s) sub = includes s sub.
Proof.
  intros P. unfold includes. cbn [find_sub]. rewrite P.
  now destruct (find_sub sub s).
Qed.

Lemma is401_status (before after : string) :
  is401 (before ++ "401" ++ after) = true.
Proof. unfold is401. now rewrite includes_app. Qed.

(** X4. [is401] recognises what the library raises for an HTTP 401: the
    error of [resolveVm] for a refused list call, the error of the password
    exchange for a refused ticket call and the error of [waitForTask] for a
    refused status call all carry the status in their message. *)
Theorem is401_recognises_refusals (rq : Request.t) (w w' : World) (r : Response.t) :
  fetchWithCurl rq w = Ok r w' ->
  Response.status r = 401 ->
  (forall apiUrl node vmName ticket csrfToken skipTlsVerify,
      rq = list_request apiUrl node ticket csrfToken skipTlsVerify ->
      exists msg,
        resolveVm apiUrl node vmName ticket csrfToken skipTlsVerify w = Throw (Error msg) w'
        /\ is401 msg = true)
  /\ (forall g,
        rq = ticket_request g ->
        truthy (of_opt (GlobalArgs.username g)) = true ->
        truthy (of_opt (GlobalArgs.password g)) = true ->
        exists msg, passwordAuth g w = Throw (Error msg) w' /\ is401 msg = true)
  /\ (forall fuel apiUrl node upid ticket csrfToken skipTlsVerify,
        rq = task_request apiUrl node upid ticket csrfToken skipTlsVerify ->
        exists msg,
          waitForTask (S fuel) apiUrl node upid ticket csrfToken skipTlsVerify w
          = Throw (Error msg) w'
          /\ is401 msg = true).
Proof.
  intros F S.
  assert (Hok : Response.ok r = false) by (unfold Response.ok; rewrite S; reflexivity).
  split; [| split].
  - intros apiUrl node vmName ticket csrfToken skipTlsVerify ->.
    eexists. split.
    + unfold resolveVm. rewrite (bind_Ok _ _ _ _ _ F), Hok. cbn [negb]. reflexivity.
    + rewrite S. apply (is401_status "Failed to list VMs: ").
  - intros g -> Hu Hp.
    eexists. split.
    + unfold passwordAuth. rewrite Hu, Hp. cbn [negb orb].
      rewrite (bind_Ok _ _ _ _ _ F), Hok. cbn [negb]. reflexivity.
    + rewrite S. apply (is401_status "Authentication failed: ").
  - intros fuel apiUrl node upid ticket csrfToken skipTlsVerify ->.
    eexists. split.
    + unfold waitForTask. cbn [waitForTask_loop].
      rewrite (bind_Ok _ _ _ _ _ F), Hok. cbn [negb]. reflexivity.
    + rewrite S. apply (is401_status "Task status check failed: ").
Qed.

Lemma is401_recognises_refusals_witness :
  let w := Scenario.world (Scenario.answering 401 "permission denied" None) in
  let rq := list_request Scenario.apiUrl Scenario.node (JStr "T0") (JStr "C0") None in
  exists msg,
    resolveVm Scenario.apiUrl Scenario.node "alpha" (JStr "T0") (JStr "C0") None w
    = Throw (Error msg) (Fixture.world_after (fetchWithCurl rq) w)
    /\ is401 msg = true.
Proof.
  intros w rq.
  refine (proj1 (is401_recognises_refusals rq w (Fixture.world_after (fetchWithCurl rq) w)
                   (Response.mk 401 "HTTP/1.1" "permission denied" None) _ _)
            Scenario.apiUrl Scenario.node "alpha" (JStr "T0") (JStr "C0") None eq_refl).
  - vm_compute. reflexivity.
  - reflexivity.
Defined.

Lemma is401_next_id_prefix (text : string) :
  is401 (tpl ["Failed to get next VM ID: "; text]) = is401 text.
Proof.
  unfold is401, tpl. cbn [String.concat append].
  do 26 (rewrite (includes_skip _ _ "401") by reflexivity).
  do 26 (rewrite (includes_skip _ _ "authentication") by reflexivity).
  reflexivity.
Qed.

(** X5. The error [create] raises when the hypervisor refuses the request
    for the next free id carries the response text and not the status, so
    [is401] recognises it only if that text itself mentions [401] or
    [authentication]; the request for the next id is the last one made and
    nothing is written. *)
Theorem create_next_id_refusal_hides_status
    (fuel : nat) (args : CreateArgs.t) (context : Context.t)
    (w w1 w2 : World) (auth : Auth.t) (r : Response.t) :
  let g := Context.globalArgs context in
  resolveAuth g context authOpts w = Ok auth w1 ->
  fetchWithCurl (nextid_request (GlobalArgs.apiUrl g) (Auth.ticket auth) (Auth.csrfToken auth)
                   (GlobalArgs.skipTlsVerify g)) w1 = Ok r w2 ->
  Response.ok r = false ->
  exists msg,
    create fuel args context w = Throw (Error msg) w2
    /\ is401 msg = is401 (Response.text r)
    /\ store w2 = store w.
Proof.
  intros g A F Hok. eexists. split; [| split].
  - unfold create. cbv zeta. fold g.
    rewrite (bind_Ok _ _ _ _ _ A), (bind_Ok _ _ _ _ _ F), Hok. cbn [negb]. reflexivity.
  - apply is401_next_id_prefix.
  - destruct (fetch_Ok _ _ _ _ F) as [_ ->].
    apply (resolveAuth_store g context authOpts). now rewrite A.
Qed.

Lemma create_next_id_refusal_hides_status_witness :
  exists msg w',
    create 10 (Fixture.createArgs None) Fixture.context
      (Scenario.world (Scenario.answering 401 "permission denied" None))
    = Throw (Error msg) w'
    /\ is401 msg = false.
Proof.
  destruct (create_next_id_refusal_hides_status 10 (Fixture.createArgs None) Fixture.context
              (Scenario.world (Scenario.answering 401 "permission denied" None))
              _ _ _ _ eq_refl eq_refl eq_refl) as (msg & E & I & _).
  exists msg. eexists. split; [exact E |]. rewrite I. reflexivity.
Defined.
(* ===================================================================== *)
(** ** [waitForTask] *)
(* ===================================================================== *)

Lemma waitForTask_loop_counts (fuel : nat) (rq : Request.t) (n : Z) (w w' : World)
    (tr : TaskResult.t) :
  waitForTask_loop fuel rq n w = Ok tr w' ->
  exists k : nat,
    (1 <= k <= fuel)%nat
    /\ TaskResult.pollCount tr = n + Z.of_nat k
    /\ trace w' = trace w ++ repeat rq k
    /\ now w + 1000 * (Z.of_nat k - 1) <= now w'
    /\ store w' = store w
    /\ TaskResult.success tr = is_str (TaskResult.exitstatus tr) "OK".
Proof.
  revert n w. induction fuel as [| fuel IH]; intros n w; cbn [waitForTask_loop].
  - discriminate.
  - intros H. apply bind_Ok_inv in H as (r & w1 & F & H).
    assert (F' : final_world (fetchWithCurl rq w) = Some w1) by (now rewrite F).
    destruct (fetch_now _ _ _ F') as (N1 & _ & T1 & S1).
    destruct (negb (Response.ok r)); [discriminate |].
    apply bind_Ok_inv in H as (body & w2 & J & H). apply orThrow_Ok in J as [_ ->].
    apply bind_Ok_inv in H as (data & w2 & D & H). apply orThrow_Ok in D as [_ ->].
    destruct (is_str (opt_get data "status") "stopped").
    + injection H as <- <-. exists 1%nat. cbn [TaskResult.pollCount TaskResult.success
        TaskResult.exitstatus repeat]. repeat split; try lia; auto.
    + apply bind_Ok_inv in H as ([] & w3 & Sl & H).
      unfold sleep in Sl. injection Sl as <-.
      apply IH in H as (k & Hk & P & T & N & St & Su).
      exists (S k). cbn [now trace store set_now] in *.
      repeat split; try lia; auto.
      * rewrite T, T1, <- app_assoc. reflexivity.
      * congruence.
Qed.

(** X6. Every normal return of [waitForTask] has made [pollCount >= 1]
    polls, each of them the same status request and nothing else; all but
    the last were followed by a pause of one second, so at least
    [pollCount - 1] seconds have passed; nothing was written; and [success]
    says whether the exit status is the text [OK]. *)
Theorem waitForTask_counts_its_polls
    (fuel : nat) (apiUrl node : string) (upid ticket csrfToken : JsVal)
    (skipTlsVerify : bool) (w w' : World) (tr : TaskResult.t) :
  waitForTask fuel apiUrl node upid ticket csrfToken skipTlsVerify w = Ok tr w' ->
  exists k : nat,
    (1 <= k <= fuel)%nat
    /\ TaskResult.pollCount tr = Z.of_nat k
    /\ trace w'
       = trace w ++ repeat (task_request apiUrl node upid ticket csrfToken skipTlsVerify) k
    /\ now w + 1000 * (TaskResult.pollCount tr - 1) <= now w'
    /\ store w' = store w
    /\ TaskResult.success tr = is_str (TaskResult.exitstatus tr) "OK".
Proof.
  intros H. apply waitForTask_loop_counts in H as (k & Hk & P & T & N & St & Su).
  exists k. rewrite P. repeat split; try lia; auto.
Qed.

Lemma waitForTask_counts_its_polls_witness :
  exists tr w',
    waitForTask 10 Scenario.apiUrl Scenario.node (JStr "UPID:stop") (JStr "T0") (JStr "C0")
      true (Fixture.world Fixture.failing_tasks) = Ok tr w'
    /\ TaskResult.pollCount tr = 1
    /\ TaskResult.success tr = false.
Proof.
  eexists. eexists. split; [vm_compute; reflexivity |].
  destruct (waitForTask_counts_its_polls 10 Scenario.apiUrl Scenario.node (JStr "UPID:stop")
              (JStr "T0") (JStr "C0") true (Fixture.world Fixture.failing_tasks) _ _ eq_refl)
    as (k & _ & _ & _ & _ & _ & Su).
  split; [reflexivity | exact Su].
Defined.


Lemma still_running_step (w w1 : World) (rq : Request.t) :
  curl w1 = curl w -> still_running w rq -> still_running w1 rq.
Proof. intros E H t seen. rewrite E. apply H. Qed.

Lemma waitForTask_loop_diverges (fuel : nat) (rq : Request.t) (n : Z) (w : World) :
  still_running w rq -> waitForTask_loop fuel rq n w = Diverge.
Proof.
  revert n w. induction fuel as [| fuel IH]; intros n w H; cbn [waitForTask_loop].
  - reflexivity.
  - destruct (H (now w) (trace w)) as (r & body & data & C & Hok & J & D & St).
    assert (F : fetchWithCurl rq w
                = Ok r (set_now (now w + Z.of_nat (elapsed (curl w (now w) (trace w) rq)))
                          (set_trace (trace w ++ [rq]) w)))
      by (unfold fetchWithCurl; now rewrite C).
    rewrite (bind_Ok _ _ _ _ _ F), Hok. cbn [negb].
    unfold response_json, prop. rewrite J. cbn [orThrow].
    unfold bind at 1. cbn [ret]. rewrite D. cbn [orThrow]. unfold bind at 1. cbn [ret].
    rewrite St. unfold bind at 1, sleep at 1. apply IH.
    eapply still_running_step; [| exact H]. reflexivity.
Qed.

(** X7. [waitForTask] has no timeout.  Against a hypervisor that keeps
    answering the status request with a task that has not stopped, no
    number of rounds makes it return or raise: the wait goes on for as long
    as the task does. *)
Theorem waitForTask_has_no_timeout
    (fuel : nat) (apiUrl node : string) (upid ticket csrfToken : JsVal)
    (skipTlsVerify : bool) (w : World) :
  still_running w (task_request apiUrl node upid ticket csrfToken skipTlsVerify) ->
  waitForTask fuel apiUrl node upid ticket csrfToken skipTlsVerify w = Diverge.
Proof. apply waitForTask_loop_diverges. Qed.

Lemma waitForTask_has_no_timeout_witness :
  waitForTask 1000 Scenario.apiUrl Scenario.node (JStr "UPID:start") (JStr "T0") (JStr "C0")
    true (Scenario.world Scenario.busy) = Diverge.
Proof.
  apply waitForTask_has_no_timeout. intros t seen.
  exists (Response.mk 200 "HTTP/1.1" "body"
            (Some (Fixture.data (JObj [("status", JStr "running")])))).
  exists (Fixture.data (JObj [("status", JStr "running")])).
  exists (JObj [("status", JStr "running")]).
  repeat split.
Defined.
(* ===================================================================== *)
(** ** [resolveAuth]: the cache and the password exchange *)
(* ===================================================================== *)

Lemma reads_ret {A : Type} (a : A) : reads (ret a).
Proof. intros w w' H. now injection H. Qed.

Lemma reads_throw {A : Type} (e : JsError) : reads (@throw A e).
Proof. intros w w' H. now injection H. Qed.

Lemma reads_bind {A B : Type} (m : M A) (k : A -> M B) :
  reads m -> (forall a, reads (k a)) -> reads (bind m k).
Proof.
  intros Hm Hk w w' H. unfold bind in H.
  destruct (m w) as [a w1 | e w1 |] eqn:E.
  - assert (w1 = w) by (apply Hm; now rewrite E). subst. now apply (Hk a).
  - apply Hm. now rewrite E.
  - discriminate.
Qed.

Lemma reads_orThrow {A : Type} (e : JsError) (o : option A) : reads (orThrow e o).
Proof. destruct o; [apply reads_ret | apply reads_throw]. Qed.

Lemma reads_lookup {A : Type} (e : JsError) (f : World -> option A) :
  reads (fun w => orThrow e (f w) w).
Proof. intros w w' H. destruct (f w); now injection H. Qed.

Lemma reads_pure {A : Type} (f : World -> A) : reads (fun w => Ok (f w) w).
Proof. intros w w' H. now injection H. Qed.

Lemma settles_ret {A : Type} (a : A) : settles (ret a).
Proof. intros w. discriminate. Qed.

Lemma settles_throw {A : Type} (e : JsError) : settles (@throw A e).
Proof. intros w. discriminate. Qed.

Lemma settles_bind {A B : Type} (m : M A) (k : A -> M B) :
  settles m -> (forall a, settles (k a)) -> settles (bind m k).
Proof.
  intros Hm Hk w. unfold bind. specialize (Hm w).
  destruct (m w) as [a w1 | e w1 |]; [apply Hk | discriminate | congruence].
Qed.

Lemma settles_orThrow {A : Type} (e : JsError) (o : option A) : settles (orThrow e o).
Proof. destruct o; [apply settles_ret | apply settles_throw]. Qed.

Lemma settles_lookup {A : Type} (e : JsError) (f : World -> option A) :
  settles (fun w => orThrow e (f w) w).
Proof. intros w. destruct (f w); discriminate. Qed.

Lemma settles_pure {A : Type} (f : World -> A) : settles (fun w => Ok (f w) w).
Proof. intros w. discriminate. Qed.

Ltac quiet_step :=
  lazymatch goal with
  | |- reads (bind _ _) => apply reads_bind; [| intro]
  | |- reads (ret _) => apply reads_ret
  | |- reads (throw _) => apply reads_throw
  | |- reads (orThrow _ _) => apply reads_orThrow
  | |- reads (prop _ _) => apply reads_orThrow
  | |- reads (Deno_readDir _) => apply reads_lookup
  | |- reads (Deno_readTextFile _) => apply reads_lookup
  | |- reads (parse_json _) => apply reads_lookup
  | |- reads Date_now => apply reads_pure
  | |- reads (fun w => Ok _ w) => apply reads_pure
  | |- reads (if ?b then _ else _) => destruct b
  | |- reads (match ?x with _ => _ end) => destruct x
  | |- settles (bind _ _) => apply settles_bind; [| intro]
  | |- settles (ret _) => apply settles_ret
  | |- settles (throw _) => apply settles_throw
  | |- settles (orThrow _ _) => apply settles_orThrow
  | |- settles (prop _ _) => apply settles_orThrow
  | |- settles (Deno_readDir _) => apply settles_lookup
  | |- settles (Deno_readTextFile _) => apply settles_lookup
  | |- settles (parse_json _) => apply settles_lookup
  | |- settles Date_now => apply settles_pure
  | |- settles (fun w => Ok _ w) => apply settles_pure
  | |- settles (if ?b then _ else _) => destruct b
  | |- settles (match ?x with _ => _ end) => destruct x
  end.

Lemma cachedAuth_reads (context : Context.t) (opts : AuthOpts.t) :
  reads (cachedAuth context opts).
Proof.
  unfold cachedAuth. cbv zeta. repeat quiet_step.
  all: apply (reads_pure (fun w => Date_parse w _)).
Qed.

Lemma cachedAuth_settles (context : Context.t) (opts : AuthOpts.t) :
  settles (cachedAuth context opts).
Proof.
  unfold cachedAuth. cbv zeta. repeat quiet_step.
  all: apply (settles_pure (fun w => Date_parse w _)).
Qed.

(** Step 2 of [resolveAuth] as a whole: it returns, in the world it began
    in, a session or nothing. *)
Lemma cache_step (context : Context.t) (opts : AuthOpts.t) (w : World) :
  exists cached,
    (if negb (AuthOpts.skipCache opts)
     then try_catch (cachedAuth context opts) (fun _ => ret None)
     else ret None) w = Ok cached w.
Proof.
  destruct (negb (AuthOpts.skipCache opts)); [| now exists None].
  unfold try_catch. pose proof (cachedAuth_reads context opts w) as R.
  pose proof (cachedAuth_settles context opts w) as S.
  destruct (cachedAuth context opts w) as [c w1 | e w1 |].
  - exists c. now rewrite (R w1 eq_refl).
  - exists None. now rewrite (R w1 eq_refl).
  - congruence.
Qed.

(** X8. Whatever goes wrong while the cached session is looked for and
    read, it never reaches the caller: an error raised by [resolveAuth] is
    the error the password exchange raises when it is run in the world the
    call began in. *)
Theorem resolveAuth_raises_only_from_password
    (g : GlobalArgs.t) (context : Context.t) (opts : AuthOpts.t)
    (w w' : World) (e : JsError) :
  resolveAuth g context opts w = Throw e w' -> passwordAuth g w = Throw e w'.
Proof.
  unfold resolveAuth. cbv zeta.
  destruct (truthy (of_opt (GlobalArgs.ticket g)) && truthy (of_opt (GlobalArgs.csrfToken g)));
    [discriminate |].
  destruct (cache_step context opts w) as [cached C].
  rewrite (bind_Ok _ _ _ _ _ C). destruct cached; [discriminate | auto].
Qed.

Lemma resolveAuth_raises_only_from_password_witness :
  passwordAuth Fixture.cachedArgs Scenario.staleWorld = Throw no_auth_error Scenario.staleWorld.
Proof.
  apply (resolveAuth_raises_only_from_password Fixture.cachedArgs Fixture.cachedContext
           authOpts).
  vm_compute. reflexivity.
Defined.

(** X9. A cached session is stale from the very millisecond its age
    reaches the two-hour TTL: its content is not even read, and
    [resolveAuth] is the password exchange, run in the world the call began
    in. *)
Theorem stale_cache_is_not_used
    (g : GlobalArgs.t) (context : Context.t) (opts : AuthOpts.t) (w : World)
    (listing : list DirEntry) (metaText createdAt : string) (created : Z) :
  truthy (of_opt (GlobalArgs.ticket g)) && truthy (of_opt (GlobalArgs.csrfToken g)) = false ->
  AuthOpts.skipCache opts = false ->
  readDir w (authDir_of context opts) = Some listing ->
  filter isDirectory listing <> [] ->
  readTextFile w
    (metaPath_of (authDir_of context opts)
       (show_max (Math_max (dir_versions (filter isDirectory listing)))))
    = Some metaText ->
  match_createdAt metaText = Some createdAt ->
  Date_parse w createdAt = Some created ->
  AUTH_TTL_MS <= now w - created ->
  cachedAuth context opts w = Ok None w
  /\ resolveAuth g context opts w = passwordAuth g w.
Proof.
  intros Hexplicit Hskip Hdir Hdirs Hmeta Hmatch Hdate Hage.
  assert (Hcache : cachedAuth context opts w = Ok None w).
  { unfold cachedAuth. cbv zeta.
    erewrite bind_Ok by (unfold Deno_readDir; rewrite Hdir; reflexivity).
    replace (0 <? Z.of_nat (List.length (filter isDirectory listing))) with true
      by (destruct (filter isDirectory listing); [congruence | reflexivity]).
    erewrite bind_Ok by (unfold Deno_readTextFile; rewrite Hmeta; reflexivity).
    rewrite Hmatch.
    erewrite bind_Ok by (rewrite Hdate; reflexivity).
    erewrite bind_Ok by reflexivity.
    replace (now w - created <? AUTH_TTL_MS) with false
      by (symmetry; apply Z.ltb_ge; exact Hage).
    reflexivity. }
  split; [exact Hcache |].
  unfold resolveAuth. rewrite Hexplicit, Hskip. cbn [negb].
  now rewrite (bind_Ok _ _ _ _ _ (try_catch_Ok _ _ _ _ _ Hcache)).
Qed.

Lemma stale_cache_is_not_used_witness :
  resolveAuth Fixture.cachedArgs Fixture.cachedContext authOpts Scenario.staleWorld
  = passwordAuth Fixture.cachedArgs Scenario.staleWorld.
Proof.
  apply (stale_cache_is_not_used Fixture.cachedArgs Fixture.cachedContext authOpts
           Scenario.staleWorld
           [ {| name := "3"; isDirectory := true |};
             {| name := "12"; isDirectory := true |};
             {| name := "notes.txt"; isDirectory := false |} ]
           "version: 12 createdAt: '2026-02-18T10:00:00Z' ttl: 2h"
           "2026-02-18T10:00:00Z" (1000000 - 3600000));
    try reflexivity; try discriminate.
Defined.

(** X10. Without a user name or without a password, and without the
    explicit pair, [resolveAuth] sends nothing at all: it ends in the world
    it began in, either with a session from the cache or with the error
    that says no authentication is available. *)
Theorem no_credentials_no_request
    (g : GlobalArgs.t) (context : Context.t) (opts : AuthOpts.t) (w : World) :
  truthy (of_opt (GlobalArgs.ticket g)) && truthy (of_opt (GlobalArgs.csrfToken g)) = false ->
  truthy (of_opt (GlobalArgs.username g)) = false
  \/ truthy (of_opt (GlobalArgs.password g)) = false ->
  (exists a, resolveAuth g context opts w = Ok a w /\ Auth.source a = "cache")
  \/ resolveAuth g context opts w = Throw no_auth_error w.
Proof.
  intros Hexplicit Hcred. unfold resolveAuth. cbv zeta. rewrite Hexplicit.
  destruct (cache_step context opts w) as [cached C].
  rewrite (bind_Ok _ _ _ _ _ C). destruct cached as [a |].
  - left. exists a. split; [reflexivity |].
    destruct (negb (AuthOpts.skipCache opts)); [| discriminate].
    unfold try_catch in C.
    destruct (cachedAuth context opts w) as [c w1 | e w1 |] eqn:E; [| discriminate ..].
    injection C as -> ->.
    exact (proj1 (cachedAuth_yields context opts w (Some a) w E)).
  - right. unfold passwordAuth.
    replace (negb (truthy (of_opt (GlobalArgs.username g)))
             || negb (truthy (of_opt (GlobalArgs.password g)))) with true; [reflexivity |].
    destruct Hcred as [-> | ->]; [reflexivity | apply eq_sym, orb_true_r].
Qed.

Lemma no_credentials_no_request_witness :
  resolveAuth Fixture.cachedArgs Fixture.cachedContext authOpts Scenario.staleWorld
  = Throw no_auth_error Scenario.staleWorld.
Proof.
  destruct (no_credentials_no_request Fixture.cachedArgs Fixture.cachedContext authOpts
              Scenario.staleWorld eq_refl (or_introl eq_refl)) as [(a & E & _) | E].
  - exfalso. revert E. vm_compute. discriminate.
  - exact E.
Defined.
(* ===================================================================== *)
(** ** [getVmIpWithRetry]: how often it asks *)
(* ===================================================================== *)

(** One pass through the [try] block sends the query once and does nothing
    else to the world. *)
Lemma poll_world (rq : Request.t) (w w1 : World) (found : option string) :
  try_catch (pollAgent rq) (fun _ => ret None) w = Ok found w1 ->
  w1 = set_now (now w + Z.of_nat (elapsed (curl w (now w) (trace w) rq)))
         (set_trace (trace w ++ [rq]) w).
Proof.
  unfold try_catch, pollAgent, bind, fetchWithCurl, response_json, prop.
  destruct (result (curl w (now w) (trace w) rq)) as [code err | resp];
    [intros H; now injection H |].
  destruct (Response.ok resp); [| intros H; now injection H].
  destruct (Response.json resp) as [netResult |]; cbn [orThrow throw ret];
    [| intros H; now injection H].
  destruct (get netResult "data") as [data |]; cbn [orThrow throw ret];
    [| intros H; now injection H].
  destruct (iterate (js_or (opt_get data "result") (JArr []))); cbn [orThrow throw ret];
    [| intros H; now injection H].
  destruct (scanInterfaces l); unfold ret, throw; intros H; now injection H.
Qed.

Lemma getVmIpWithRetry_loop_rounds (fuel : nat) (rq : Request.t)
    (deadline pollInterval : Z) (w w' : World) (r : option string) :
  0 < pollInterval ->
  getVmIpWithRetry_loop fuel rq deadline pollInterval w = Ok r w' ->
  exists k : nat,
    (k <= fuel)%nat
    /\ trace w' = trace w ++ repeat rq k
    /\ store w' = store w
    /\ (k = 0%nat \/ now w + (Z.of_nat k - 1) * (pollInterval * 1000) < deadline)
    /\ (r = None -> now w + Z.of_nat k * (pollInterval * 1000) <= now w').
Proof.
  intros Hpos. revert w.
  induction fuel as [| fuel IH]; intros w; cbn [getVmIpWithRetry_loop];
    unfold bind at 1, Date_now at 1.
  - destruct (now w <? deadline); [discriminate |].
    intros H. injection H as <- <-. exists 0%nat.
    rewrite app_nil_r. repeat split; auto; lia.
  - destruct (now w <? deadline) eqn:T.
    2:{ intros H. injection H as <- <-. exists 0%nat.
        rewrite app_nil_r. repeat split; auto; lia. }
    apply Z.ltb_lt in T.
    intros H. apply bind_Ok_inv in H as (found & w1 & P & H).
    apply poll_world in P. destruct found as [a |].
    + injection H as <- <-. exists 1%nat. subst w1. cbn.
      repeat split; auto; try lia. discriminate.
    + apply bind_Ok_inv in H as ([] & w2 & Sl & H).
      unfold sleep in Sl. injection Sl as <-.
      apply IH in H as (k & Hk & Tr & St & Early & Late).
      exists (S k). subst w1. cbn [now trace store set_now set_trace] in *.
      rewrite Tr, <- app_assoc. repeat split; auto; try lia.
      intros E. specialize (Late E). lia.
Qed.

Lemma rounds_bound (k : nat) (window interval : Z) :
  0 < interval ->
  k = 0%nat \/ (Z.of_nat k - 1) * (interval * 1000) < window * 1000 ->
  (k <= rounds window interval)%nat.
Proof.
  intros Hpos [-> | H]; [lia |].
  unfold rounds.
  assert (D : Z.of_nat k - 1 <= (window - 1) / interval).
  { apply Z.div_le_lower_bound; [exact Hpos | nia]. }
  replace (window + interval - 1) with (window - 1 + 1 * interval) by lia.
  rewrite Z.div_add by lia. lia.
Qed.

Lemma getVmIpWithRetry_rounds
    (fuel : nat) (apiUrl node : string) (vmid ticket csrfToken : JsVal)
    (skipTlsVerify : option bool) (waitSeconds pollInterval : Z)
    (w w' : World) (r : option string) :
  0 < pollInterval ->
  getVmIpWithRetry fuel apiUrl node vmid ticket csrfToken skipTlsVerify
    waitSeconds pollInterval w = Ok r w' ->
  exists k : nat,
    (k <= rounds waitSeconds pollInterval)%nat
    /\ trace w'
       = trace w ++ repeat (agent_request apiUrl node vmid ticket csrfToken skipTlsVerify) k
    /\ store w' = store w
    /\ (r = None -> now w + Z.of_nat k * (pollInterval * 1000) <= now w').
Proof.
  intros Hpos H. unfold getVmIpWithRetry in H. unfold bind at 1, Date_now at 1 in H.
  apply (getVmIpWithRetry_loop_rounds _ _ _ _ _ _ _ Hpos) in H
    as (k & _ & Tr & St & Early & Late).
  exists k. repeat split; auto.
  apply rounds_bound; [exact Hpos |]. destruct Early as [-> | E]; [now left | right; lia].
Qed.


(* ===================================================================== *)
(** ** [resolveVm] *)
(* ===================================================================== *)

Lemma find_vm_listed (vmName : string) (vms : list JsVal) :
  Forall listed_vm vms ->
  find_vm vmName vms
  = Some (match first_named vmName vms with Some v => v | None => JUndef end).
Proof.
  unfold first_named. induction 1 as [| v vms Hv _ IH]; [reflexivity |].
  cbn [find_vm find]. rewrite (get_listed v "name" Hv).
  destruct (is_str (opt_get v "name") vmName); [reflexivity | exact IH].
Qed.

Lemma vm_names_listed (vms : list JsVal) :
  Forall listed_vm vms -> vm_names vms = Some (map (fun v => opt_get v "name") vms).
Proof.
  induction 1 as [| v vms Hv _ IH]; [reflexivity |].
  cbn [vm_names map]. now rewrite (get_listed v "name" Hv), IH.
Qed.

Lemma named_is_object (v : JsVal) (vmName : string) :
  is_str (opt_get v "name") vmName = true -> truthy v = true.
Proof.
  destruct v; try discriminate; reflexivity.
Qed.

(** X12. Given the list of VMs the hypervisor reports, [resolveVm] picks
    the first VM of the wanted name and copies its id, name and status;
    when no VM has that name it raises the not-found error, which lists the
    names there are.  Either way the list was asked for once and nothing
    else was. *)
Theorem resolveVm_takes_the_first_of_that_name
    (apiUrl node vmName : string) (ticket csrfToken : JsVal)
    (skipTlsVerify : option bool) (w w' : World) (vms : list JsVal) :
  accepted (list_request apiUrl node ticket csrfToken skipTlsVerify) w (JArr vms) w' ->
  Forall listed_vm vms ->
  resolveVm apiUrl node vmName ticket csrfToken skipTlsVerify w
  = match first_named vmName vms with
    | Some v => Ok (Vm.mk (opt_get v "vmid") (opt_get v "name") (opt_get v "status")) w'
    | None => Throw (not_found_error vmName vms) w'
    end
  /\ trace w' = trace w ++ [list_request apiUrl node ticket csrfToken skipTlsVerify].
Proof.
  intros A L. split; [| exact (accepted_trace _ _ _ _ A)].
  unfold resolveVm. rewrite (run_accepted _ _ _ _ _ _ A).
  cbn [as_array orThrow]. unfold bind at 1, ret at 1.
  rewrite (find_vm_listed vmName vms L). cbn [orThrow]. unfold bind at 1, ret at 1.
  destruct (first_named vmName vms) as [v |] eqn:F.
  - apply find_some in F as [_ Hn]. rewrite (named_is_object v vmName Hn). reflexivity.
  - cbn [truthy negb]. rewrite (vm_names_listed vms L). reflexivity.
Qed.

Lemma resolveVm_takes_the_first_of_that_name_witness :
  let w := Fixture.world Fixture.healthy in
  let rq := list_request Scenario.apiUrl Scenario.node (JStr "T0") (JStr "C0") None in
  resolveVm Scenario.apiUrl Scenario.node "gamma" (JStr "T0") (JStr "C0") None w
  = Throw (Error (tpl ["VM "; dq; "gamma"; dq; " not found. Available: alpha, beta"]))
      (Fixture.world_after (fetchWithCurl rq) w).
Proof.
  intros w rq.
  refine (proj1 (resolveVm_takes_the_first_of_that_name Scenario.apiUrl Scenario.node "gamma"
                   (JStr "T0") (JStr "C0") None w (Fixture.world_after (fetchWithCurl rq) w)
                   Fixture.listing _ _)).
  - eexists. eexists. repeat split; vm_compute; reflexivity.
  - repeat constructor; discriminate.
Defined.
(* ===================================================================== *)
(** ** The methods write last *)
(* ===================================================================== *)

Lemma silent {A : Type} (P : Request.t -> Prop) (m : M A) :
  respects P no_version m -> respects any_request no_version m.
Proof. intros H. eapply respects_mono; [| | exact H]; [intros; exact I | auto]. Qed.

Lemma commits_bind {A : Type} (m : M A) (k : A -> M (list Handle)) :
  respects any_request no_version m -> (forall a, commits (k a)) -> commits (bind m k).
Proof.
  intros Hm Hk w. unfold bind.
  destruct (m w) as [a w1 | e w1 |] eqn:E; [| | exact I].
  - assert (S1 : store w1 = store w)
      by (apply (respects_store any_request m); [exact Hm | now rewrite E]).
    specialize (Hk a w1). rewrite S1 in Hk. exact Hk.
  - apply (respects_store any_request m); [exact Hm | now rewrite E].
Qed.

Lemma commits_throw (e : JsError) : commits (throw e).
Proof. intros w. reflexivity. Qed.

Lemma commits_write (nm : JsVal) (logs : list string) (fields : string -> Z -> VmData.t) :
  commits (bind (writeVm nm logs fields) (fun handle => ret [handle])).
Proof.
  intros w. cbn. eexists. split; [reflexivity |]. split; reflexivity.
Qed.

Ltac commits_step :=
  lazymatch goal with
  | |- commits (bind (writeVm _ _ _) _) => apply commits_write
  | |- commits (bind _ _) => apply commits_bind; [| intro]
  | |- commits (throw _) => apply commits_throw
  | |- commits (if ?b then _ else _) => destruct b
  | |- commits (match ?x with _ => _ end) => destruct x
  end.

Ltac silent_step :=
  lazymatch goal with
  | |- respects _ _ (resolveAuth _ _ _) => apply (silent _ _ (resolveAuth_respects _ _ _))
  | |- respects _ _ (resolveVm _ _ _ _ _ _) =>
      apply (silent _ _ (resolveVm_respects _ _ _ _ _ _))
  | |- respects _ _ (fetchWithCurl _) => apply respects_fetch; exact I
  | |- respects _ _ (waitForTask _ _ _ _ _ _ _) =>
      apply (silent _ _ (waitForTask_loop_respects _ _ _))
  | |- respects _ _ (getVmIpWithRetry _ _ _ _ _ _ _ _ _) =>
      apply (silent _ _ (getVmIpWithRetry_respects _ _ _ _ _ _ _ _ _))
  | |- respects _ _ (start_if_stopped _ _ _ _ _ _ _ _) =>
      apply start_if_stopped_writes_nothing
  | |- respects _ _ (delete_stop_first _ _ _ _ _ _ _ _) =>
      apply delete_stop_first_respects
  | |- _ => respects_step
  end.

Ltac commits_auto := cbv zeta; repeat commits_step; repeat silent_step.

Lemma start_commits (fuel : nat) (args : StartArgs.t) (context : Context.t) :
  commits (start fuel args context).
Proof. unfold start, start_resolved. commits_auto. Qed.

Lemma stop_commits (fuel : nat) (vmName : string) (context : Context.t) :
  commits (stop fuel vmName context).
Proof. unfold stop. commits_auto. Qed.

Lemma create_commits (fuel : nat) (args : CreateArgs.t) (context : Context.t) :
  commits (create fuel args context).
Proof. unfold create. commits_auto. Qed.

Lemma delete_commits (fuel : nat) (vmName : string) (context : Context.t) :
  commits (delete fuel vmName context).
Proof. unfold delete. commits_auto. Qed.

Lemma lookup_commits (fuel : nat) (vmName : string) (context : Context.t) :
  commits (lookup fuel vmName context).
Proof. unfold lookup. commits_auto. Qed.

(** X13. [lookup], [start], [stop], [create] and [delete] write last or
    not at all.  A call that raises, whatever the error and wherever it
    comes from, leaves the resource store as it found it; a call that
    returns has appended exactly one version, of a [vm] resource, and the
    handle it returns is the handle of that version and the only one. *)
Theorem methods_write_last (fuel : nat) (context : Context.t) :
  (forall vmName, commits (lookup fuel vmName context))
  /\ (forall args, commits (start fuel args context))
  /\ (forall vmName, commits (stop fuel vmName context))
  /\ (forall args, commits (create fuel args context))
  /\ (forall vmName, commits (delete fuel vmName context)).
Proof.
  repeat split; intros.
  - apply lookup_commits.
  - apply start_commits.
  - apply stop_commits.
  - apply create_commits.
  - apply delete_commits.
Qed.
(* ===================================================================== *)
(** ** [lookup] *)
(* ===================================================================== *)

(** X14. Unlike [start], [lookup] does not fail for lack of an address.
    Once the VM has been found it returns, having written one version with
    the id, name and status of the listing and with the address that IP
    discovery returned, [null] when it returned [null].  Discovery is run,
    with a window of 15 seconds and an interval of 3, only for a VM listed
    as [running], and then asks at most five times; for any other VM the
    address is [null] and no request follows the list. *)
Theorem lookup_tolerates_a_missing_address
    (fuel : nat) (vmName : string) (context : Context.t)
    (w w1 w2 : World) (auth : Auth.t) (vm : Vm.t) :
  let g := Context.globalArgs context in
  let query :=
    agent_request (GlobalArgs.apiUrl g) (GlobalArgs.node g) (Vm.vmid vm)
      (Auth.ticket auth) (Auth.csrfToken auth) (GlobalArgs.skipTlsVerify g) in
  (rounds 15 3 <= fuel)%nat ->
  resolveAuth g context authOpts w = Ok auth w1 ->
  resolveVm (GlobalArgs.apiUrl g) (GlobalArgs.node g) vmName (Auth.ticket auth)
    (Auth.csrfToken auth) (GlobalArgs.skipTlsVerify g) w1 = Ok vm w2 ->
  exists ip w3 h lg (k : nat),
    (Vm.status vm = JStr "running" ->
     getVmIpWithRetry fuel (GlobalArgs.apiUrl g) (GlobalArgs.node g) (Vm.vmid vm)
       (Auth.ticket auth) (Auth.csrfToken auth) (GlobalArgs.skipTlsVerify g) 15 3 w2
     = Ok ip w3)
    /\ (Vm.status vm <> JStr "running" -> ip = None /\ w3 = w2 /\ k = 0%nat)
    /\ lookup fuel vmName context w
       = Ok [h]
           (set_store
              (store w
               ++ [{| kind := "vm"; instanceName := Vm.name vm;
                      attributes :=
                        VmData.mk (Vm.vmid vm) (Vm.name vm) (Vm.status vm) (ip_value ip)
                          JUndef JUndef JUndef JUndef lg (now w3) |}])
              w3)
    /\ trace w3 = trace w2 ++ repeat query k
    /\ (k <= 5)%nat.
Proof.
  intros g query Hfuel Ha Hv.
  assert (S2 : store w2 = store w).
  { rewrite (resolveVm_store _ _ _ _ _ _ w1 w2) by (now rewrite Hv).
    apply (resolveAuth_store g context authOpts). now rewrite Ha. }
  unfold lookup. cbv zeta. fold g.
  rewrite (bind_Ok _ _ _ _ _ Ha), (bind_Ok _ _ _ _ _ Hv).
  destruct (is_str (Vm.status vm) "running") eqn:R.
  - assert (Hpos : 0 < 3) by lia.
    destruct (getVmIpWithRetry_returns fuel (GlobalArgs.apiUrl g) (GlobalArgs.node g)
                (Vm.vmid vm) (Auth.ticket auth) (Auth.csrfToken auth)
                (GlobalArgs.skipTlsVerify g) 15 3 w2 Hpos Hfuel) as (ip & w3 & D).
    destruct (getVmIpWithRetry_rounds _ _ _ _ _ _ _ _ _ _ _ _ Hpos D)
      as (k & Hk & Tr & St & _).
    assert (E : forall lines : list string,
               bind (bind (getVmIpWithRetry fuel (GlobalArgs.apiUrl g) (GlobalArgs.node g)
                             (Vm.vmid vm) (Auth.ticket auth) (Auth.csrfToken auth)
                             (GlobalArgs.skipTlsVerify g) 15 3)
                       (fun ip0 =>
                          if truthy (ip_value ip0)
                          then ret (ip0, push lines
                                           (tpl ["Got IP: "; js_to_string (ip_value ip0)]))
                          else ret (ip0, push lines "Could not get IP from guest agent")))
                 (fun found =>
                    bind (writeVm (Vm.name vm) (snd found)
                            (fun lg ts =>
                               VmData.mk (Vm.vmid vm) (Vm.name vm) (Vm.status vm)
                                 (ip_value (fst found)) JUndef JUndef JUndef JUndef lg ts))
                      (fun handle => ret [handle])) w2
               = bind (writeVm (Vm.name vm)
                         (push lines (if truthy (ip_value ip)
                                      then tpl ["Got IP: "; js_to_string (ip_value ip)]
                                      else "Could not get IP from guest agent"))
                         (fun lg ts =>
                            VmData.mk (Vm.vmid vm) (Vm.name vm) (Vm.status vm)
                              (ip_value ip) JUndef JUndef JUndef JUndef lg ts))
                   (fun handle => ret [handle]) w3).
    { intros lines. unfold bind at 1 2. rewrite D.
      destruct (truthy (ip_value ip)); reflexivity. }
    rewrite E. cbn.
    exists ip, w3. do 2 eexists. exists k.
    split; [intros _; exact D |].
    split; [intros N; apply is_str_neq in N; congruence |].
    rewrite St, S2. split; [reflexivity |]. split; [exact Tr | exact Hk].
  - cbn. exists None, w2. do 2 eexists. exists 0%nat.
    split; [intros N; rewrite N in R; discriminate |].
    split; [intros _; repeat split |].
    rewrite S2, app_nil_r. split; [reflexivity |]. split; [reflexivity | lia].
Qed.

Lemma lookup_tolerates_a_missing_address_witness :
  exists h lg w',
    lookup 10 "beta" Fixture.context (Fixture.world Fixture.healthy) = Ok [h] w'
    /\ store w'
       = [{| kind := "vm"; instanceName := JStr "beta";
             attributes :=
               VmData.mk (JNum 101) (JStr "beta") (JStr "running") (JStr "10.0.0.50")
                 JUndef JUndef JUndef JUndef lg (now w') |}].
Proof.
  assert (Hfuel : (rounds 15 3 <= 10)%nat) by (vm_compute; lia).
  destruct (lookup_tolerates_a_missing_address 10 "beta" Fixture.context
              (Fixture.world Fixture.healthy) (Fixture.world Fixture.healthy)
              (Scenario.listed Fixture.healthy) Scenario.explicitAuth
              (Vm.mk (JNum 101) (JStr "beta") (JStr "running")) Hfuel eq_refl
              ltac:(vm_compute; reflexivity))
    as (ip & w3 & h & lg & k & D & _ & E & _).
  specialize (D eq_refl).
  assert (Hip : ip = Some "10.0.0.50"%string).
  { revert D. vm_compute. intros D. now injection D. }
  subst ip. exists h, lg. eexists. split; [exact E | reflexivity].
Defined.
(* ===================================================================== *)
(** ** [delete] of a VM that is already stopped *)
(* ===================================================================== *)

(** X15. [delete] of a VM that the lookup reports as [stopped] sends no
    stop call: the request that follows the list of VMs is the DELETE
    itself, and all that may follow it are status queries for the delete
    task. *)
Theorem delete_of_a_stopped_vm_sends_no_stop
    (fuel : nat) (vmName : string) (context : Context.t)
    (w w1 w2 w' : World) (auth : Auth.t) (vm : Vm.t) :
  let g := Context.globalArgs context in
  let apiUrl := GlobalArgs.apiUrl g in
  let node := GlobalArgs.node g in
  let skipTlsVerify := GlobalArgs.skipTlsVerify g in
  let ticket := Auth.ticket auth in
  let csrfToken := Auth.csrfToken auth in
  resolveAuth g context authOpts w = Ok auth w1 ->
  resolveVm apiUrl node vmName ticket csrfToken skipTlsVerify w1 = Ok vm w2 ->
  Vm.status vm = JStr "stopped" ->
  final_world (delete fuel vmName context w) = Some w' ->
  exists later,
    trace w'
    = trace w2 ++ delete_request apiUrl node (Vm.vmid vm) ticket csrfToken skipTlsVerify
                  :: later
    /\ Forall (task_query apiUrl node ticket csrfToken (nullish skipTlsVerify true)) later.
Proof.
  intros g apiUrl node skipTlsVerify ticket csrfToken Ha Hv Hs F.
  unfold delete in F. cbv zeta in F. fold g apiUrl node skipTlsVerify in F.
  rewrite (bind_Ok _ _ _ _ _ Ha), (bind_Ok _ _ _ _ _ Hv) in F.
  fold ticket csrfToken in F.
  unfold delete_stop_first in F. rewrite Hs in F. cbn [is_str String.eqb negb] in F.
  replace (String.eqb "stopped" "stopped") with true in F by reflexivity.
  cbn [negb] in F. unfold bind at 1, ret at 1 in F.
  destruct (bind_final _ _ _ _ F) as [[e E] | (response & w3 & E & F1)].
  - exists []. split; [| constructor].
    assert (E' : final_world (fetchWithCurl
                   (delete_request apiUrl node (Vm.vmid vm) ticket csrfToken skipTlsVerify) w2)
                 = Some w') by (now rewrite E).
    now destruct (fetch_now _ _ _ E') as (_ & _ & T & _).
  - destruct (fetch_Ok _ _ _ _ E) as [T3 _]. cbv beta in F1.
    destruct (negb (Response.ok response)).
    { injection F1 as <-. exists []. split; [exact T3 | constructor]. }
    destruct (bind_final _ _ _ _ F1) as [[e J] | (deleted & w4 & J & F2)].
    { exists []. split; [| constructor]. unfold response_json in J.
      destruct (Response.json response); [discriminate |]. injection J as _ <-. exact T3. }
    apply orThrow_Ok in J as [_ ->].
    destruct (bind_final _ _ _ _ F2) as [[e D] | (upid & w4 & D & F3)].
    { exists []. split; [| constructor]. unfold prop in D.
      destruct (get deleted "data"); [discriminate |]. injection D as _ <-. exact T3. }
    apply orThrow_Ok in D as [_ ->]. cbv beta zeta in F3.
    assert (W : forall w5, final_world
                  (waitForTask fuel apiUrl node upid ticket csrfToken
                     (nullish skipTlsVerify true) w3) = Some w5 ->
                exists d, trace w5 = trace w3 ++ d
                  /\ Forall (task_query apiUrl node ticket csrfToken
                               (nullish skipTlsVerify true)) d).
    { intros w5 F5.
      destruct (waitForTask_loop_respects _ _ _ w3 w5 F5) as ((d & T & Q) & _).
      exists d. split; [exact T |].
      eapply Forall_impl; [| exact Q]. intros rq <-. now exists upid. }
    destruct (bind_final _ _ _ _ F3) as [[e K] | (tr & w5 & K & F4)].
    + destruct (W w') as (d & T & Q); [now rewrite K |].
      exists d. split; [| exact Q]. rewrite T, T3, <- app_assoc. reflexivity.
    + destruct (W w5) as (d & T & Q); [now rewrite K |].
      exists d. split; [| exact Q].
      cbn in F4. injection F4 as <-. cbn [trace set_store].
      rewrite T, T3, <- app_assoc. reflexivity.
Qed.

Lemma delete_of_a_stopped_vm_sends_no_stop_witness :
  let w' := Fixture.world_after (delete 10 "alpha" Fixture.context)
              (Fixture.world Fixture.healthy) in
  exists later,
    trace w'
    = trace (Scenario.listed Fixture.healthy)
      ++ delete_request Scenario.apiUrl Scenario.node (JNum 100) (JStr "T0") (JStr "C0") None
         :: later
    /\ Forall (task_query Scenario.apiUrl Scenario.node (JStr "T0") (JStr "C0") true) later.
Proof.
  intros w'.
  refine (delete_of_a_stopped_vm_sends_no_stop 10 "alpha" Fixture.context
            (Fixture.world Fixture.healthy) (Fixture.world Fixture.healthy)
            (Scenario.listed Fixture.healthy) w' Scenario.explicitAuth
            (Vm.mk (JNum 100) (JStr "alpha") (JStr "stopped")) eq_refl _ eq_refl _).
  - vm_compute. reflexivity.
  - vm_compute. reflexivity.
Defined.
(* ===================================================================== *)
(** ** [sync] part-way *)
(* ===================================================================== *)

(** The loop over a list in two pieces is the loop over the first piece
    followed by the loop over the second. *)
Lemma sync_loop_app (fuel : nat) (apiUrl node : string) (ticket csrfToken : JsVal)
    (skipTlsVerify : option bool) (pre post : list JsVal) :
  forall (handles : list Handle) (logs : list string) (w : World),
    sync_loop fuel apiUrl node ticket csrfToken skipTlsVerify (pre ++ post) handles logs w
    = bind (sync_loop fuel apiUrl node ticket csrfToken skipTlsVerify pre handles logs)
        (fun done =>
           sync_loop fuel apiUrl node ticket csrfToken skipTlsVerify post
             (fst done) (snd done)) w.
Proof.
  induction pre as [| rv pre IH]; intros handles logs w; [reflexivity |].
  cbn [app sync_loop]. cbv zeta.
  rewrite bind_assoc. apply bind_ext. intros rv_status w1.
  rewrite bind_assoc. apply bind_ext. intros ip w2.
  rewrite bind_assoc. apply bind_ext. intros handle w3.
  apply IH.
Qed.

(** X16. [sync] is not all-or-nothing.  When the list of VMs has a [null]
    (or missing) entry, the loop raises a [TypeError] on reaching it, and
    the versions of the VMs listed before it stay written, one each and in
    the order of the list; nothing is written for the entries after it. *)
Theorem sync_stops_at_a_hole_and_keeps_what_it_wrote
    (fuel : nat) (context : Context.t) (w w1 w2 : World) (auth : Auth.t)
    (pre post : list JsVal) (hole : JsVal) :
  let g := Context.globalArgs context in
  (rounds 5 2 <= fuel)%nat ->
  resolveAuth g context authOpts w = Ok auth w1 ->
  accepted (list_request (GlobalArgs.apiUrl g) (GlobalArgs.node g) (Auth.ticket auth)
              (Auth.csrfToken auth) (GlobalArgs.skipTlsVerify g))
    w1 (JArr (pre ++ hole :: post)) w2 ->
  Forall listed_vm pre ->
  hole = JNull \/ hole = JUndef ->
  exists w' versions,
    sync fuel context w = Throw TypeError w'
    /\ store w' = store w ++ versions
    /\ Forall2 synced_from pre versions.
Proof.
  intros g Hfuel Ha Hl Hpre Hhole.
  destruct (sync_loop_spec fuel (GlobalArgs.apiUrl g) (GlobalArgs.node g) (Auth.ticket auth)
              (Auth.csrfToken auth) (GlobalArgs.skipTlsVerify g) Hfuel pre []
              (push (push [] (tpl ["Syncing all VMs from node "; GlobalArgs.node g]))
                    (tpl ["Found ";
                          js_to_string (JNum (Z.of_nat (List.length (pre ++ hole :: post))));
                          " VMs, resolving IPs for running VMs"]))
              w2 Hpre)
    as (hs & logs' & w' & E & _ & (vs & St & F2) & _).
  exists w', vs. split; [| split; [| exact F2]].
  - unfold sync. cbv zeta. fold g.
    rewrite (bind_Ok _ _ _ _ _ Ha).
    rewrite (run_accepted _ _ _ _ _ _ Hl).
    unfold prop. cbn [get orThrow String.eqb Ascii.eqb Bool.eqb iterate].
    unfold bind at 1. cbn [ret].
    unfold bind at 1. cbn [ret].
    apply bind_Throw.
    rewrite sync_loop_app, (bind_Ok _ _ _ _ _ E). cbn [fst snd sync_loop].
    destruct Hhole as [-> | ->]; reflexivity.
  - rewrite St, (accepted_store _ _ _ _ Hl).
    rewrite (resolveAuth_store g context authOpts w w1) by (now rewrite Ha).
    reflexivity.
Qed.

Lemma sync_stops_at_a_hole_and_keeps_what_it_wrote_witness :
  exists w' v,
    sync 3 Fixture.context (Scenario.world Scenario.holed) = Throw TypeError w'
    /\ store w' = [v]
    /\ VmData.vmName (attributes v) = JStr "alpha".
Proof.
  assert (Hfuel : (rounds 5 2 <= 3)%nat) by (vm_compute; lia).
  destruct (sync_stops_at_a_hole_and_keeps_what_it_wrote 3 Fixture.context
              (Scenario.world Scenario.holed) (Scenario.world Scenario.holed)
              (Fixture.world_after
                 (fetchWithCurl (list_request Scenario.apiUrl Scenario.node
                                   (JStr "T0") (JStr "C0") None))
                 (Scenario.world Scenario.holed))
              Scenario.explicitAuth [Fixture.vm 100 "alpha" "stopped"]
              [Fixture.vm 101 "beta" "stopped"] JNull Hfuel eq_refl)
    as (w' & versions & E & St & F).
  - eexists. eexists. repeat split; vm_compute; reflexivity.
  - repeat constructor; discriminate.
  - now left.
  - inversion F as [| rv v l1 l2 Hv Hrest]; subst. inversion Hrest; subst.
    exists w', v. split; [exact E |]. split; [exact St |].
    destruct Hv as (_ & _ & N & _). exact N.
Defined.
(* ===================================================================== *)
(** ** [create]: the form it sends *)
(* ===================================================================== *)

(** X17. In the form [create] sends, the boot order and the disks agree:
    the order names [scsi0] exactly when the form defines a [scsi0] disk,
    which is exactly when the requested disk size is not 0; and no key
    occurs twice in the form. *)
Theorem create_boot_order_names_the_disk_it_defines (args : CreateArgs.t) (vmid : JsVal) :
  let form := create_params args vmid in
  exists boot,
    params_get "boot" form = Some boot
    /\ (In "scsi0" (boot_devices boot) <-> params_get "scsi0" form <> None)
    /\ (params_get "scsi0" form <> None <-> CreateArgs.diskSize args <> Some 0)
    /\ NoDup (map fst form).
Proof.
  unfold create_params. cbv zeta. unfold hasDisk_of.
  destruct (CreateArgs.diskSize args) as [[| p | p] |].
  - exists "order=net0"%string. repeat split; try (cbn; intuition congruence).
    repeat constructor; cbn; intuition discriminate.
  - exists "order=net0;scsi0"%string.
    repeat split; try (cbn; intuition congruence); try discriminate.
    repeat constructor; cbn; intuition discriminate.
  - exists "order=net0;scsi0"%string.
    repeat split; try (cbn; intuition congruence); try discriminate.
    repeat constructor; cbn; intuition discriminate.
  - exists "order=net0;scsi0"%string.
    repeat split; try (cbn; intuition congruence); try discriminate.
    repeat constructor; cbn; intuition discriminate.
Qed.

(** X18. [create] reads the next free id with [parseInt] and does not
    check the outcome.  An id from [-(2^53 - 1)] to [2^53 - 1] that the
    hypervisor reports as a number, or as its decimal numeral with anything
    but a digit after it, reaches the form as that number; an ASCII report
    that [parseInt] cannot read reaches the form as the text [NaN]. *)
Theorem create_passes_the_next_id_on (args : CreateArgs.t) (idText : JsVal) :
  (forall n rest,
      safe_integer n ->
      idText = JNum n \/ (idText = JStr (string_of_Z n ++ rest) /\ no_digit_ahead rest) ->
      vmid_of idText = JNum n
      /\ params_get "vmid" (create_params args (vmid_of idText)) = Some (string_of_Z n))
  /\ (ascii_text (js_to_string idText) ->
      parseInt (js_to_string idText) = None ->
      params_get "vmid" (create_params args (vmid_of idText)) = Some "NaN"%string).
Proof.
  assert (V : forall v, params_get "vmid" (create_params args v) = Some (js_to_string v)).
  { intros v. unfold create_params. cbv zeta.
    destruct (hasDisk_of (CreateArgs.diskSize args)); reflexivity. }
  split.
  - intros n rest _ H.
    assert (E : vmid_of idText = JNum n).
    { unfold vmid_of. destruct H as [-> | [-> Hrest]]; cbn [js_to_string].
      - now rewrite parseInt_string_of_Z.
      - now rewrite parseInt_string_of_Z_app. }
    split; [exact E |]. rewrite V, E. reflexivity.
  - intros _ H. rewrite V. unfold vmid_of. rewrite H. reflexivity.
Qed.

Lemma create_passes_the_next_id_on_witness :
  vmid_of (JStr "105") = JNum 105
  /\ params_get "vmid" (create_params (Fixture.createArgs None) (vmid_of (JStr "105")))
     = Some "105"%string.
Proof.
  assert (S : safe_integer 105) by (unfold safe_integer; lia).
  exact (proj1 (create_passes_the_next_id_on (Fixture.createArgs None) (JStr "105"))
           105 EmptyString S (or_intror (conj eq_refl I))).
Defined.
(* ===================================================================== *)
(** ** [setConfig] and [setBootOrder] *)
(* ===================================================================== *)

Lemma params_set_fresh (k v : string) (p : URLSearchParams) :
  ~ In k (map fst p) -> params_set k v p = p ++ [(k, v)].
Proof.
  induction p as [| [k' v'] p IH]; intros H; [reflexivity |].
  cbn [params_set]. cbn [map fst In] in H.
  destruct (String.eqb k' k) eqn:E.
  - apply String.eqb_eq in E. tauto.
  - cbn [app]. rewrite IH by tauto. reflexivity.
Qed.

Lemma object_set_fresh (k : string) (v : JsVal) (o : list (string * JsVal)) :
  ~ In k (map fst o) -> object_set k v o = o ++ [(k, v)].
Proof.
  induction o as [| [k' v'] o IH]; intros H; [reflexivity |].
  cbn [object_set]. cbn [map fst In] in H.
  destruct (String.eqb k' k) eqn:E.
  - apply String.eqb_eq in E. tauto.
  - cbn [app]. rewrite IH by tauto. reflexivity.
Qed.

Lemma NoDup_app_cons {A : Type} (a : list A) (x : A) (b : list A) :
  NoDup (a ++ x :: b) -> ~ In x a /\ NoDup ((a ++ [x]) ++ b).
Proof.
  intros H. split.
  - apply NoDup_remove_2 in H. intros I. apply H. apply in_or_app. now left.
  - rewrite <- app_assoc. exact H.
Qed.

Lemma fold_params_set (config acc : list (string * string)) :
  NoDup (map fst (acc ++ config)) ->
  fold_left (fun params kv => params_set (fst kv) (snd kv) params) config acc
  = acc ++ config.
Proof.
  revert acc. induction config as [| [k v] config IH]; intros acc H; cbn [fold_left].
  - now rewrite app_nil_r.
  - rewrite map_app in H. cbn [map fst] in H.
    apply NoDup_app_cons in H as [Hk H].
    cbn [fst snd]. rewrite (params_set_fresh k v acc Hk).
    rewrite IH; [now rewrite <- app_assoc |].
    rewrite !map_app. exact H.
Qed.

Lemma fold_object_set (config : list (string * string)) (acc : list (string * JsVal)) :
  NoDup (map fst acc ++ map fst config) ->
  fold_left (fun o kv => object_set (fst kv) (JStr (snd kv)) o) config acc
  = acc ++ map (fun kv => (fst kv, JStr (snd kv))) config.
Proof.
  revert acc. induction config as [| [k v] config IH]; intros acc H; cbn [fold_left map].
  - now rewrite app_nil_r.
  - cbn [map fst] in H. apply NoDup_app_cons in H as [Hk H].
    cbn [fst snd]. rewrite (object_set_fresh k (JStr v) acc Hk).
    rewrite IH; [now rewrite <- app_assoc |].
    rewrite map_app. exact H.
Qed.

(** A configuration object has every key once: for its entries the form
    and the recorded object are the entries themselves, in their order. *)
Lemma config_params_entries (config : list (string * string)) :
  NoDup (map fst config) ->
  config_params config = config /\ fromEntries (config_params config) = config_object config.
Proof.
  intros H.
  assert (E : config_params config = config) by (apply (fold_params_set config []); exact H).
  split; [exact E |]. rewrite E. unfold fromEntries, config_object.
  now rewrite (fold_object_set config []).
Qed.

Lemma params_set_not_empty (k v : string) (p : URLSearchParams) : params_set k v p <> [].
Proof.
  destruct p as [| [k' v'] p]; cbn [params_set]; [discriminate |].
  destruct (String.eqb k' k); discriminate.
Qed.

(** X19. [setConfig] with a configuration that has no entries raises
    after the VM has been looked up: the configuration error is raised in
    the world the lookup left, so no PUT is sent and nothing is written,
    whatever the writer. *)
Theorem setConfig_refuses_an_empty_config
    (writeResource : Writer) (vmName : string) (context : Context.t)
    (w w1 w2 : World) (auth : Auth.t) (vm : Vm.t) :
  let g := Context.globalArgs context in
  resolveAuth g context authOpts w = Ok auth w1 ->
  resolveVm (GlobalArgs.apiUrl g) (GlobalArgs.node g) vmName (Auth.ticket auth)
    (Auth.csrfToken auth) (GlobalArgs.skipTlsVerify g) w1 = Ok vm w2 ->
  setConfig writeResource vmName [] context w = Throw no_config_error w2.
Proof.
  intros g Ha Hv. unfold setConfig. cbv zeta. fold g.
  rewrite (bind_Ok _ _ _ _ _ Ha), (bind_Ok _ _ _ _ _ Hv). reflexivity.
Qed.

Lemma setConfig_refuses_an_empty_config_witness :
  setConfig Scenario.discarding "beta" [] Fixture.context (Fixture.world Fixture.healthy)
  = Throw no_config_error (Scenario.listed Fixture.healthy).
Proof.
  refine (setConfig_refuses_an_empty_config Scenario.discarding "beta" Fixture.context
            (Fixture.world Fixture.healthy) (Fixture.world Fixture.healthy)
            (Scenario.listed Fixture.healthy) Scenario.explicitAuth
            (Vm.mk (JNum 101) (JStr "beta") (JStr "running")) eq_refl _).
  vm_compute. reflexivity.
Defined.

(** X20. [setConfig] with a configuration of one or more entries, each key
    once as in any object, always sends the PUT, and the form it sends is
    the entries as given, in their order.  A failure of [curl] is raised as
    it is; a refusal raises the error that carries status and response
    text; in both cases the writer is not called.  When the hypervisor
    accepts, the writer is called once, after the PUT, with the same
    entries as the recorded configuration and success [true]. *)
Theorem setConfig_sends_and_records_the_entries
    (writeResource : Writer) (vmName : string) (config : list (string * string))
    (context : Context.t) (w w1 w2 : World) (auth : Auth.t) (vm : Vm.t) :
  let g := Context.globalArgs context in
  let put :=
    config_request (GlobalArgs.apiUrl g) (GlobalArgs.node g) (Vm.vmid vm)
      (Auth.ticket auth) (Auth.csrfToken auth) (GlobalArgs.skipTlsVerify g) config in
  resolveAuth g context authOpts w = Ok auth w1 ->
  resolveVm (GlobalArgs.apiUrl g) (GlobalArgs.node g) vmName (Auth.ticket auth)
    (Auth.csrfToken auth) (GlobalArgs.skipTlsVerify g) w1 = Ok vm w2 ->
  config <> [] ->
  NoDup (map fst config) ->
  (forall e w3,
      fetchWithCurl put w2 = Throw e w3 ->
      setConfig writeResource vmName config context w = Throw e w3)
  /\ (forall r w3,
        fetchWithCurl put w2 = Ok r w3 ->
        Response.ok r = false ->
        setConfig writeResource vmName config context w
        = Throw (Error (tpl ["Failed to set config: "; string_of_Z (Response.status r);
                             " "; Response.text r])) w3)
  /\ (forall r w3,
        fetchWithCurl put w2 = Ok r w3 ->
        Response.ok r = true ->
        exists lg,
          setConfig writeResource vmName config context w
          = bind (writeResource "vm" (Vm.name vm)
                    [("vmid", Vm.vmid vm); ("vmName", Vm.name vm);
                     ("config", config_object config); ("success", JBool true);
                     ("logs", JStr lg); ("timestamp", timestamp_value (now w3))] None)
              (fun handle => ret [handle]) w3).
Proof.
  intros g put Ha Hv Hc Hd.
  destruct (config_params_entries config Hd) as [Ep Eo].
  assert (Run : setConfig writeResource vmName config context w
                = bind (fetchWithCurl put)
                    (fun response =>
                       if negb (Response.ok response) then
                         throw (Error (tpl ["Failed to set config: ";
                                            string_of_Z (Response.status response); " ";
                                            Response.text response]))
                       else
                         bind Date_now (fun ts =>
                           bind (writeResource "vm" (Vm.name vm)
                                   [("vmid", Vm.vmid vm); ("vmName", Vm.name vm);
                                    ("config", config_object config);
                                    ("success", JBool true);
                                    ("logs",
                                     JStr (join nl
                                       (push (push (push []
                                          (tpl ["Found VM "; dq; vmName; dq; " "; arrow;
                                                " vmid "; js_to_string (Vm.vmid vm)]))
                                          (tpl ["Setting config: "; params_toString config]))
                                          (tpl ["Config updated for VM ";
                                                js_to_string (Vm.vmid vm)]))));
                                    ("timestamp", timestamp_value ts)] None)
                             (fun handle => ret [handle]))) w2).
  { unfold setConfig. cbv zeta. fold g.
    rewrite (bind_Ok _ _ _ _ _ Ha), (bind_Ok _ _ _ _ _ Hv).
    rewrite Eo, Ep.
    destruct config as [| kv rest]; [contradiction |].
    cbn [List.length]. replace (Z.of_nat (S (List.length rest)) =? 0) with false
      by (symmetry; apply Z.eqb_neq; lia).
    reflexivity. }
  rewrite Run. repeat split.
  - intros e w3 F. now apply bind_Throw.
  - intros r w3 F Hok. rewrite (bind_Ok _ _ _ _ _ F), Hok. reflexivity.
  - intros r w3 F Hok. rewrite (bind_Ok _ _ _ _ _ F), Hok. cbn [negb].
    eexists. reflexivity.
Qed.

Lemma setConfig_sends_and_records_the_entries_witness :
  let w := Scenario.world Scenario.obliging in
  let w2 := Fixture.world_after (fetchWithCurl (list_request Scenario.apiUrl Scenario.node
                                    (JStr "T0") (JStr "C0") None)) w in
  let put := config_request Scenario.apiUrl Scenario.node (JNum 101) (JStr "T0") (JStr "C0")
               None [("agent", "1"); ("memory", "4096")] in
  exists h,
    setConfig Scenario.discarding "beta" [("agent", "1"); ("memory", "4096")] Fixture.context w
    = Ok [h] (Fixture.world_after (fetchWithCurl put) w2).
Proof.
  intros w w2 put.
  destruct (setConfig_sends_and_records_the_entries Scenario.discarding "beta"
              [("agent", "1"); ("memory", "4096")] Fixture.context w w w2 Scenario.explicitAuth
              (Vm.mk (JNum 101) (JStr "beta") (JStr "running")) eq_refl
              ltac:(vm_compute; reflexivity) ltac:(discriminate)
              ltac:(repeat constructor; cbn; intuition discriminate))
    as (_ & _ & Accepted).
  destruct (Accepted (Response.mk 200 "HTTP/1.1" "body"
                        (Some (Fixture.data (JArr Fixture.listing))))
              (Fixture.world_after (fetchWithCurl put) w2)
              ltac:(vm_compute; reflexivity) eq_refl) as (lg & E).
  eexists. rewrite E. reflexivity.
Defined.

(** X21. [setBootOrder] sends one PUT whose form is the single field
    [boot] with the order it was given, and records only what the hypervisor
    accepted: a failure of [curl] or a refusal raises without the writer
    being called; on acceptance the writer is called once, after the PUT,
    with that same order and success [true]. *)
Theorem setBootOrder_records_what_was_accepted
    (writeResource : Writer) (vmName boot : string)
    (context : Context.t) (w w1 w2 : World) (auth : Auth.t) (vm : Vm.t) :
  let g := Context.globalArgs context in
  let put :=
    config_request (GlobalArgs.apiUrl g) (GlobalArgs.node g) (Vm.vmid vm)
      (Auth.ticket auth) (Auth.csrfToken auth) (GlobalArgs.skipTlsVerify g)
      [("boot", boot)] in
  resolveAuth g context authOpts w = Ok auth w1 ->
  resolveVm (GlobalArgs.apiUrl g) (GlobalArgs.node g) vmName (Auth.ticket auth)
    (Auth.csrfToken auth) (GlobalArgs.skipTlsVerify g) w1 = Ok vm w2 ->
  (forall e w3,
      fetchWithCurl put w2 = Throw e w3 ->
      setBootOrder writeResource vmName boot context w = Throw e w3)
  /\ (forall r w3,
        fetchWithCurl put w2 = Ok r w3 ->
        Response.ok r = false ->
        setBootOrder writeResource vmName boot context w
        = Throw (Error (tpl ["Failed to set boot order: "; string_of_Z (Response.status r);
                             " "; Response.text r])) w3)
  /\ (forall r w3,
        fetchWithCurl put w2 = Ok r w3 ->
        Response.ok r = true ->
        exists lg,
          setBootOrder writeResource vmName boot context w
          = bind (writeResource "vm" (Vm.name vm)
                    [("vmid", Vm.vmid vm); ("vmName", Vm.name vm);
                     ("boot", JStr boot); ("success", JBool true);
                     ("logs", JStr lg); ("timestamp", timestamp_value (now w3))] None)
              (fun handle => ret [handle]) w3).
Proof.
  intros g put Ha Hv.
  unfold setBootOrder. cbv zeta. fold g.
  rewrite (bind_Ok _ _ _ _ _ Ha), (bind_Ok _ _ _ _ _ Hv). fold put.
  repeat split.
  - intros e w3 F. now apply bind_Throw.
  - intros r w3 F Hok. rewrite (bind_Ok _ _ _ _ _ F), Hok. reflexivity.
  - intros r w3 F Hok. rewrite (bind_Ok _ _ _ _ _ F), Hok. cbn [negb].
    eexists. reflexivity.
Qed.

Lemma setBootOrder_records_what_was_accepted_witness :
  let w := Fixture.world Fixture.healthy in
  let put := config_request Scenario.apiUrl Scenario.node (JNum 101) (JStr "T0") (JStr "C0")
               None [("boot", "order=scsi0;net0")] in
  setBootOrder Scenario.discarding "beta" "order=scsi0;net0" Fixture.context w
  = Throw (Error "Failed to set boot order: 404 body")
      (Fixture.world_after (fetchWithCurl put) (Scenario.listed Fixture.healthy)).
Proof.
  intros w put.
  refine (proj1 (proj2 (setBootOrder_records_what_was_accepted Scenario.discarding "beta"
                          "order=scsi0;net0" Fixture.context w w (Scenario.listed Fixture.healthy)
                          Scenario.explicitAuth (Vm.mk (JNum 101) (JStr "beta") (JStr "running"))
                          eq_refl _))
            (Response.mk 404 "HTTP/1.1" "body" (Some JNull)) _ _ eq_refl).
  - vm_compute. reflexivity.
  - vm_compute. reflexivity.
Defined.
(* ===================================================================== *)
(** ** The node model: [auth] *)
(* ===================================================================== *)

(** X22. The node model's [auth] never uses a cached session, however
    fresh: without the explicit pair it is the password exchange, run in
    the world the call began in.  What the exchange raises, [auth] raises,
    and the writer is not called; what it returns is handed to the writer,
    once, as the [node] resource with a lifetime of two hours. *)
Theorem node_auth_never_uses_the_cache
    (writeResource : Writer) (context : Context.t) (w : World) :
  let g := Context.globalArgs context in
  truthy (of_opt (GlobalArgs.ticket g)) && truthy (of_opt (GlobalArgs.csrfToken g)) = false ->
  (forall e w', passwordAuth g w = Throw e w' ->
                node_auth writeResource context w = Throw e w')
  /\ (forall a w',
        passwordAuth g w = Ok a w' ->
        Auth.source a = "password"
        /\ exists lg,
             node_auth writeResource context w
             = bind (writeResource "node" (JStr "node")
                       [("ticket", Auth.ticket a); ("csrfToken", Auth.csrfToken a);
                        ("username", of_opt (Auth.username a)); ("logs", JStr lg);
                        ("timestamp", timestamp_value (now w'))]
                       (Some [("lifetime", "2h")]))
                 (fun handle => ret [handle]) w').
Proof.
  intros g Hexplicit.
  assert (R : resolveAuth g context (skipping_cache nodeAuthOpts) w = passwordAuth g w).
  { unfold resolveAuth. rewrite Hexplicit. reflexivity. }
  split.
  - intros e w' P. unfold node_auth. cbv zeta. fold g.
    apply bind_Throw. now rewrite R.
  - intros a w' P. split; [exact (proj1 (passwordAuth_yields g w a w' P)) |].
    unfold node_auth. cbv zeta. fold g.
    rewrite <- R in P. rewrite (bind_Ok _ _ _ _ _ P).
    eexists. reflexivity.
Qed.

Lemma node_auth_never_uses_the_cache_witness :
  resolveAuth Fixture.cachedArgs Fixture.cachedContext authOpts Fixture.cachedWorld
  = Ok (Auth.mk (JStr "T12") (JStr "C12") None "cache" false) Fixture.cachedWorld
  /\ node_auth Scenario.discarding Fixture.cachedContext Fixture.cachedWorld
     = Throw no_auth_error Fixture.cachedWorld.
Proof.
  split; [vm_compute; reflexivity |].
  exact (proj1 (node_auth_never_uses_the_cache Scenario.discarding Fixture.cachedContext
                  Fixture.cachedWorld eq_refl) no_auth_error Fixture.cachedWorld eq_refl).
Defined.
(* ===================================================================== *)
(** ** [start]: what the record says *)
(* ===================================================================== *)

Lemma quiet_run {A : Type} (m : M A) (w w' : World) :
  respects quiet no_version m -> final_world (m w) = Some w' ->
  exists d, trace w' = trace w ++ d /\ count_start d = 0%nat /\ store w' = store w.
Proof.
  intros R F. pose proof (R w w' F) as Ev.
  destruct Ev as ((d & T & Q) & Rest). exists d. split; [exact T |]. split.
  - apply (count_start_none quiet); auto.
  - apply (evolves_store quiet). apply R. exact F.
Qed.

Lemma quiet_run_Ok {A : Type} (m : M A) (w w' : World) (a : A) :
  m w = Ok a w' -> respects quiet no_version m ->
  exists d, trace w' = trace w ++ d /\ count_start d = 0%nat /\ store w' = store w.
Proof. intros E R. apply (quiet_run m); [exact R | now rewrite E]. Qed.

(** The start block sends the start mutation once when it reports that it
    started the VM, and not at all when it reports that it did not. *)
Lemma start_if_stopped_exact (fuel : nat) (apiUrl node : string) (vm : Vm.t)
    (ticket csrfToken : JsVal) (skipTlsVerify : option bool) (logs : list string)
    (w w' : World) (branch : bool * list string) :
  start_if_stopped fuel apiUrl node vm ticket csrfToken skipTlsVerify logs w = Ok branch w' ->
  exists d,
    trace w' = trace w ++ d
    /\ count_start d = (if fst branch then 1 else 0)%nat
    /\ store w' = store w.
Proof.
  unfold start_if_stopped. destruct (is_str (Vm.status vm) "stopped").
  - intros H. apply bind_Ok_inv in H as (r & w1 & F & H).
    destruct (fetch_Ok _ _ _ _ F) as [T1 S1].
    destruct (negb (Response.ok r)); [discriminate |].
    apply bind_Ok_inv in H as (started & w2 & J & H). apply orThrow_Ok in J as [_ ->].
    apply bind_Ok_inv in H as (upid & w2 & D & H). apply orThrow_Ok in D as [_ ->].
    apply bind_Ok_inv in H as (tr & w2 & W & H).
    destruct (quiet_run_Ok _ _ _ _ W (waitForTask_quiet _ _ _ _ _ _ _))
      as (d & T2 & C2 & S2).
    destruct (negb (TaskResult.success tr)); [discriminate |].
    injection H as <- <-. cbn [fst].
    exists (start_request apiUrl node (Vm.vmid vm) ticket csrfToken skipTlsVerify :: d).
    split; [rewrite T2, T1, <- app_assoc; reflexivity |]. split; [| congruence].
    change (start_request apiUrl node (Vm.vmid vm) ticket csrfToken skipTlsVerify :: d)
      with ([start_request apiUrl node (Vm.vmid vm) ticket csrfToken skipTlsVerify] ++ d).
    rewrite count_start_app, C2. unfold count_start. cbn [filter].
    now rewrite start_request_is_start_mutation.
  - intros H. injection H as <- <-. exists []. rewrite app_nil_r. auto.
Qed.

(** An address IP discovery returns lies outside 127.0.0.0/8. *)
Lemma discovered_address (fuel : nat) (apiUrl node : string) (vmid ticket csrfToken : JsVal)
    (skipTlsVerify : option bool) (waitSeconds pollInterval : Z) (w w' : World)
    (a : string) :
  getVmIpWithRetry fuel apiUrl node vmid ticket csrfToken skipTlsVerify
    waitSeconds pollInterval w = Ok (Some a) w' ->
  in_loopback_range a = false.
Proof.
  unfold getVmIpWithRetry, bind, Date_now. intros E.
  pose proof (loop_outcome fuel
                (agent_request apiUrl node vmid ticket csrfToken skipTlsVerify)
                (now w + waitSeconds * 1000) pollInterval w) as L.
  rewrite E in L. destruct L as (t & seen & resp & ifaces & _ & _ & F).
  destruct F as (pre & iface & post & ipre & ip & ipost & _ & _ & _ & _ & _ & _ & O).
  apply not_loopback. apply O.
Qed.

(** X23. The record of a [start] that returns tells what the call did.
    Its status is [running] whatever status the lookup had reported; its
    address is a real one, not empty and outside 127.0.0.0/8; and its
    [wasStarted] is [true] exactly when this call sent the start mutation,
    which it then sent once. *)
Theorem start_records_what_it_did
    (fuel : nat) (args : StartArgs.t) (context : Context.t) (w w' : World)
    (hs : list Handle) :
  start fuel args context w = Ok hs w' ->
  exists v delta address,
    store w' = store w ++ [v]
    /\ trace w' = trace w ++ delta
    /\ VmData.status (attributes v) = JStr "running"
    /\ VmData.ip (attributes v) = JStr address
    /\ address <> EmptyString
    /\ in_loopback_range address = false
    /\ VmData.wasStarted (attributes v) = JBool (Nat.eqb (count_start delta) 1).
Proof.
  intros H. unfold start in H. cbv zeta in H.
  apply bind_Ok_inv in H as (auth & w1 & A & H).
  apply bind_Ok_inv in H as (vm & w2 & V & H).
  unfold start_resolved in H. cbv zeta in H.
  apply bind_Ok_inv in H as (branch & w3 & B & H).
  apply bind_Ok_inv in H as (ip & w4 & D & H).
  destruct (quiet_run_Ok _ _ _ _ A (resolveAuth_quiet _ _ _)) as (d1 & T1 & C1 & S1).
  destruct (quiet_run_Ok _ _ _ _ V (resolveVm_quiet _ _ _ _ _ _)) as (d2 & T2 & C2 & S2).
  destruct (start_if_stopped_exact _ _ _ _ _ _ _ _ _ _ _ B) as (d3 & T3 & C3 & S3).
  destruct (quiet_run_Ok _ _ _ _ D (getVmIpWithRetry_quiet _ _ _ _ _ _ _ _ _))
    as (d4 & T4 & C4 & S4).
  destruct ip as [a |]; cbn [ip_value truthy] in H; [| discriminate].
  destruct (String.eqb a "") eqn:Ea; cbn [negb] in H; [discriminate |].
  cbn in H. injection H as _ <-.
  eexists. exists (d1 ++ d2 ++ d3 ++ d4), a. cbn [store trace set_store].
  split; [rewrite S4, S3, S2, S1; reflexivity |].
  split; [rewrite T4, T3, T2, T1, <- !app_assoc; reflexivity |].
  cbn [attributes VmData.status VmData.ip VmData.wasStarted].
  split; [reflexivity |]. split; [reflexivity |].
  split; [intros ->; discriminate |].
  split; [exact (discovered_address _ _ _ _ _ _ _ _ _ _ _ _ D) |].
  rewrite !count_start_app, C1, C2, C3, C4. now destruct (fst branch).
Qed.

Lemma start_records_what_it_did_witness :
  exists v delta,
    store Fixture.after_first_start = [v]
    /\ trace Fixture.after_first_start = delta
    /\ VmData.ip (attributes v) = JStr "10.0.0.50"
    /\ VmData.wasStarted (attributes v) = JBool (Nat.eqb (count_start delta) 1).
Proof.
  destruct (start_records_what_it_did 10 (Fixture.startArgs 30) Fixture.context
              (Fixture.world Fixture.healthy) Fixture.after_first_start
              [{| h_kind := "vm"; h_name := JStr "alpha"; h_version := 0 |}]
              ltac:(vm_compute; reflexivity))
    as (v & delta & address & St & Tr & _ & Ip & _ & _ & Ws).
  exists v, delta. split; [exact St |]. split; [exact Tr |].
  split; [| exact Ws].
  rewrite Ip. f_equal.
  assert (E : store Fixture.after_first_start
              = [{| kind := "vm"; instanceName := JStr "alpha";
                    attributes :=
                      VmData.mk (JNum 100) (JStr "alpha") (JStr "running") (JStr "10.0.0.50")
                        JUndef JUndef JUndef (JBool true)
                        (VmData.logs (attributes v)) (VmData.timestamp (attributes v)) |}]).
  { rewrite St. cbn [app Fixture.world store].
    revert St. cbn [app Fixture.world store]. intros St.
    assert (S' := St). vm_compute in S'. injection S' as S'. rewrite <- S'. reflexivity. }
  rewrite St in E. injection E as E. rewrite E in Ip. cbn in Ip. now injection Ip.
Defined.
